(** * PyBEL: the JGIF adapter ([pybel/io/jgif.py]) and the [convert]
    command ([pybel/cli.py])

    A shallow embedding of [map_cbn], [get_citation], [from_cbn_jgif] and
    [from_jgif], and of the control flow of [convert], with the properties
    their specification states about them.

    Conventions of the embedding.
    - A Python string is the [string] of its UTF-8 bytes. The methods
      [str.strip] and [str.lower], which belong to the interpreter and
      follow the Unicode tables, are not rebuilt: the functions that call
      them take them as the parameter [Py], and the properties hold
      whatever the two methods compute.
    - A Python [dict] is an association list in insertion order
      ([Dict.get] reads the first binding of a key, [Dict.set] overwrites
      in place or appends), so that iteration order is the one of Python.
    - A JGIF document is a tree of records that follows the JSON shape the
      code indexes; a key the code tests with [in] or reads with [.get] is
      an [option] field, [None] standing for an absent key.
    - A Python exception is a value of [exn]; a function that can raise
      returns a [result].
    - Calls to [log] do not change any data and are left out. *)

From Stdlib Require Import String Ascii List Bool Arith PeanoNat Lia.
Import ListNotations.
Open Scope string_scope.
Open Scope list_scope.

Set Implicit Arguments.

(* ================================================================= *)
(** ** Exceptions and results *)

Inductive exn : Type :=
| KeyError (key : string)
| AttributeError (what : string)
| NakedNameWarning (name : string)
| ParseException (text : string)
| MissingContext (relation : string)
| AssertionError
| OtherException (what : string).

Inductive result (A : Type) : Type :=
| Ok (a : A)
| Raise (e : exn).

Arguments Ok {A} a.
Arguments Raise {A} e.

Definition bind {A B : Type} (m : result A) (k : A -> result B) : result B :=
  match m with
  | Ok a => k a
  | Raise e => Raise e
  end.

Notation "x <- m ;; k" := (bind m (fun x => k))
  (at level 61, m at next level, right associativity).

Lemma Ok_inj (A : Type) (a b : A) : Ok a = Ok b -> a = b.
Proof. intro H. now injection H. Qed.

(** [d[key]] on an optional field: [KeyError] when the key is absent. *)
Definition subscript {A : Type} (key : string) (field : option A) : result A :=
  match field with
  | Some a => Ok a
  | None => Raise (KeyError key)
  end.

(* ================================================================= *)
(** ** Python strings

    A Python string is the [string] of its UTF-8 bytes: two strings are
    equal exactly when their bytes are, and replacing one ASCII character
    by another acts on the bytes. *)

Module PyStr.

(** [s.replace(a, b)] for single ASCII characters [a] and [b]. *)
Fixpoint replace_char (a b : ascii) (s : string) : string :=
  match s with
  | EmptyString => EmptyString
  | String c s' =>
      String (if Ascii.eqb c a then b else c) (replace_char a b s')
  end.

(** Truth value of a string: [not s] holds of the empty string only. *)
Definition nonempty (s : string) : bool :=
  match s with
  | EmptyString => false
  | String _ _ => true
  end.

Lemma nonempty_true (s : string) : nonempty s = true <-> s <> "".
Proof.
  destruct s; simpl; split; intro H;
    solve [discriminate | congruence | reflexivity].
Qed.

Lemma nonempty_false (s : string) : nonempty s = false <-> s = "".
Proof.
  destruct s; simpl; split; intro H;
    solve [discriminate | reflexivity].
Qed.

End PyStr.

(** [str.strip] and [str.lower] belong to the interpreter, not to the
    package: they work on the code points of a string with the Unicode
    tables of Python (a no-break space is stripped, a capital letter of
    any script is lowered). The embedding does not rebuild these tables:
    it takes the two methods as they are, as functions on strings. The
    properties below hold whatever the two compute; the two that rest on
    a fact about [str.lower] state it. *)
Record Builtins : Type := mkBuiltins {
  str_strip : string -> string;
  str_lower : string -> string
}.

(** A capital letter of ASCII, [A] to [Z]. *)
Definition is_capital (c : ascii) : bool :=
  let n := nat_of_ascii c in ((65 <=? n) && (n <=? 90))%nat.

Fixpoint has_capital (s : string) : bool :=
  match s with
  | EmptyString => false
  | String c s' => is_capital c || has_capital s'
  end.

(** The fact about [str.lower] that two properties below rest on: no
    capital letter [A] to [Z] is left in its result. *)
Definition lower_is_lowercase (Py : Builtins) : Prop :=
  forall s, has_capital (str_lower Py s) = false.

(** What the two methods do to a string that holds ASCII characters
    only: [strip s] is [s.strip()] and [lower s] is [s.lower()] for such
    an [s], and for no other. They serve to run the functions on the
    documents of the examples, which are ASCII text; the theorems are
    about any [Builtins]. *)
Module AsciiText.

(** [str.isspace] on one ASCII character: TAB, LF, VT, FF, CR, the four
    separators FS, GS, RS, US, and the space. *)
Definition is_space (c : ascii) : bool :=
  let n := nat_of_ascii c in
  (((9 <=? n) && (n <=? 13)) || ((28 <=? n) && (n <=? 32)))%nat.

Fixpoint lstrip (s : string) : string :=
  match s with
  | EmptyString => EmptyString
  | String c s' => if is_space c then lstrip s' else s
  end.

Fixpoint rstrip (s : string) : string :=
  match s with
  | EmptyString => EmptyString
  | String c s' =>
      match rstrip s' with
      | EmptyString => if is_space c then EmptyString else String c EmptyString
      | r => String c r
      end
  end.

Definition strip (s : string) : string := rstrip (lstrip s).

Definition lower_char (c : ascii) : ascii :=
  let n := nat_of_ascii c in
  if ((65 <=? n) && (n <=? 90))%nat then ascii_of_nat (n + 32) else c.

Fixpoint lower (s : string) : string :=
  match s with
  | EmptyString => EmptyString
  | String c s' => String (lower_char c) (lower s')
  end.

Lemma lower_char_not_capital (c : ascii) : is_capital (lower_char c) = false.
Proof.
  destruct c as [b0 b1 b2 b3 b4 b5 b6 b7].
  destruct b0, b1, b2, b3, b4, b5, b6, b7; reflexivity.
Qed.

Lemma lower_has_no_capital (s : string) : has_capital (lower s) = false.
Proof.
  induction s as [|c s IH]; simpl; [reflexivity |].
  now rewrite lower_char_not_capital, IH.
Qed.

End AsciiText.

(* ================================================================= *)
(** ** Python dictionaries with string keys *)

Module Dict.

Definition dict (V : Type) : Type := list (string * V).

Section Ops.
Variable V : Type.

(** [d.get(key)] *)
Fixpoint get (key : string) (d : dict V) : option V :=
  match d with
  | [] => None
  | (k, v) :: rest => if String.eqb key k then Some v else get key rest
  end.

(** [key in d] *)
Definition mem (key : string) (d : dict V) : bool :=
  match get key d with
  | Some _ => true
  | None => false
  end.

(** [d[key] = v]: the binding of an existing key is overwritten where
    it stands, a new key goes last. *)
Fixpoint set (key : string) (v : V) (d : dict V) : dict V :=
  match d with
  | [] => [(key, v)]
  | (k, w) :: rest =>
      if String.eqb key k then (k, v) :: rest else (k, w) :: set key v rest
  end.

(** [d.update(other)] *)
Fixpoint update (d other : dict V) : dict V :=
  match other with
  | [] => d
  | (k, v) :: rest => update (set k v d) rest
  end.

(** Truth value of a dictionary: [not d] holds of the empty one only. *)
Definition nonempty (d : dict V) : bool :=
  match d with
  | [] => false
  | _ :: _ => true
  end.

Definition keys (d : dict V) : list string := map fst d.

Lemma get_set_same (key : string) (v : V) (d : dict V) :
  get key (set key v d) = Some v.
Proof.
  induction d as [|[k w] rest IH]; simpl.
  - now rewrite String.eqb_refl.
  - destruct (String.eqb key k) eqn:E; simpl; rewrite E; auto.
Qed.

Lemma get_set_other (key key' : string) (v : V) (d : dict V) :
  key' <> key -> get key' (set key v d) = get key' d.
Proof.
  intro Hne.
  induction d as [|[k w] rest IH]; simpl.
  - destruct (String.eqb key' key) eqn:E; auto.
    apply String.eqb_eq in E. contradiction.
  - destruct (String.eqb key k) eqn:E; simpl.
    + apply String.eqb_eq in E. subst k.
      destruct (String.eqb key' key) eqn:E'; auto.
      apply String.eqb_eq in E'. contradiction.
    + destruct (String.eqb key' k); auto.
Qed.

Lemma set_nonempty (key : string) (v : V) (d : dict V) : set key v d <> [].
Proof.
  destruct d as [|[k w] rest]; simpl; [discriminate|].
  destruct (String.eqb key k); discriminate.
Qed.

Lemma keys_set (key : string) (v : V) (d : dict V) (k : string) :
  In k (keys (set key v d)) <-> k = key \/ In k (keys d).
Proof.
  unfold keys.
  induction d as [|[k0 w] rest IH]; simpl.
  - intuition.
  - destruct (String.eqb key k0) eqn:E; simpl.
    + apply String.eqb_eq in E. subst k0. intuition.
    + rewrite IH. intuition.
Qed.

Lemma values_set (P : V -> Prop) (key : string) (v : V) (d : dict V) :
  P v -> Forall (fun kv => P (snd kv)) d ->
  Forall (fun kv => P (snd kv)) (set key v d).
Proof.
  intros Hv Hd.
  induction Hd as [|[k w] rest Hw Hrest IH]; simpl.
  - constructor; auto.
  - destruct (String.eqb key k); constructor; auto.
Qed.

(** Updating the empty dictionary with a dictionary of distinct keys
    copies it. *)
Lemma update_app_fresh (d other : dict V) :
  NoDup (keys (d ++ other)) -> update d other = d ++ other.
Proof.
  revert d.
  induction other as [|[k v] rest IH]; intros d Hnd; simpl.
  - now rewrite app_nil_r.
  - assert (Hset : set k v d = d ++ [(k, v)]).
    { clear IH. induction d as [|[k0 w] d' IHd]; simpl; auto.
      simpl in Hnd. inversion Hnd as [|x l Hnotin Hnd']; subst.
      destruct (String.eqb k k0) eqn:E.
      - apply String.eqb_eq in E. subst k0. exfalso. apply Hnotin.
        unfold keys. rewrite map_app, in_app_iff. right. simpl. auto.
      - f_equal. apply IHd. exact Hnd'. }
    rewrite Hset, IH; rewrite <- app_assoc; simpl; auto.
Qed.

Lemma update_empty (other : dict V) :
  NoDup (keys other) -> update [] other = other.
Proof.
  intro H. now rewrite update_app_fresh.
Qed.
End Ops.

End Dict.

Import Dict(dict).

(* ================================================================= *)
(** ** JGIF documents *)

(** [evidence['citation']]: a dictionary with the keys ['type'], ['id']
    and, optionally, ['name']. *)
Definition JgifCitation : Type := dict string.

(** [evidence['experiment_context']]; a value is [None] for a JSON
    [null]. *)
Definition ExperimentContext : Type := dict (option string).

(** One entry of [edge['metadata']['evidences']]. [ev_other] holds the keys
    the adapter never reads or writes (['bel_statement'], ...). *)
Record Evidence : Type := mkEvidence {
  ev_citation : option JgifCitation;
  ev_summary_text : option string;
  ev_experiment_context : option ExperimentContext;
  ev_other : dict string
}.

(** [edge['metadata']] *)
Record EdgeMetadata : Type := mkEdgeMetadata {
  md_evidences : option (list Evidence);
  md_other : dict string
}.

(** One entry of [graph['edges']]. *)
Record Edge : Type := mkEdge {
  edge_source : option string;
  edge_target : option string;
  edge_relation : option string;
  edge_label : option string;
  edge_metadata : option EdgeMetadata
}.

(** One entry of [graph['nodes']]. *)
Record Node : Type := mkNode {
  node_id : option string;
  node_label : option string
}.

(** [graph_jgif_dict['graph']] *)
Record JgifGraph : Type := mkJgifGraph {
  graph_label : option string;
  graph_metadata : option (dict string);
  graph_nodes : option (list Node);
  graph_edges : option (list Edge)
}.

(** [graph_jgif_dict] *)
Record JgifDocument : Type := mkJgifDocument {
  doc_graph : option JgifGraph
}.

(* ================================================================= *)
(** ** Module constants of [jgif.py] *)

Definition annotation_map : dict string :=
  [ ("tissue", "Tissue");
    ("disease", "Disease");
    ("species_common_name", "Species");
    ("cell", "Cell") ].

Definition species_map : dict string :=
  [ ("human", "9606");
    ("rat", "10116");
    ("mouse", "10090") ].

Definition placeholder_evidence : string :=
  "This Network edge has no supporting evidence.  Please add real evidence to this edge prior to deleting.".

Definition EXPERIMENT_CONTEXT : string := "experiment_context".

(* ================================================================= *)
(** ** [map_cbn] *)

(** The loop [for key, value in evidence[EXPERIMENT_CONTEXT].items()],
    building [new_context]. *)
Fixpoint map_context (Py : Builtins) (items : ExperimentContext)
    (new_context : ExperimentContext) : result ExperimentContext :=
  match items with
  | [] => Ok new_context
  | (key, value) :: rest =>
      match value with
      | None => map_context Py rest new_context
      | Some value =>
          if negb (PyStr.nonempty value) then map_context Py rest new_context
          else
            let value := str_strip Py value in
            if negb (PyStr.nonempty value) then map_context Py rest new_context
            else
              let key := str_lower Py (str_strip Py key) in
              if String.eqb key "species_common_name" then
                code <- subscript (str_lower Py value)
                          (Dict.get (str_lower Py value) species_map) ;;
                map_context Py rest (Dict.set "Species" (Some code) new_context)
              else
                match Dict.get key annotation_map with
                | Some name =>
                    map_context Py rest (Dict.set name (Some value) new_context)
                | None =>
                    map_context Py rest (Dict.set key (Some value) new_context)
                end
      end
  end.

(** [evidences[j][EXPERIMENT_CONTEXT] = new_context] *)
Definition set_experiment_context (evidence : Evidence)
    (new_context : ExperimentContext) : Evidence :=
  {| ev_citation := ev_citation evidence;
     ev_summary_text := ev_summary_text evidence;
     ev_experiment_context := Some new_context;
     ev_other := ev_other evidence |}.

(** The loop over [enumerate(...['evidences'])]. [map_cbn] rewrites its
    argument in place, so the loop is a transformer of the list: it yields
    the list as the loop leaves it and the exception that ended it early,
    if one did. *)
Fixpoint map_evidences (Py : Builtins) (evidences : list Evidence)
    : list Evidence * option exn :=
  match evidences with
  | [] => ([], None)
  | evidence :: rest =>
      match ev_experiment_context evidence with
      | None =>
          let (rest', raised) := map_evidences Py rest in
          (evidence :: rest', raised)
      | Some items =>
          match map_context Py items [] with
          | Raise e => (evidence :: rest, Some e)
          | Ok new_context =>
              let (rest', raised) := map_evidences Py rest in
              (set_experiment_context evidence new_context :: rest', raised)
          end
      end
  end.

Definition set_evidences (edge : Edge) (metadata : EdgeMetadata)
    (evidences : list Evidence) : Edge :=
  {| edge_source := edge_source edge;
     edge_target := edge_target edge;
     edge_relation := edge_relation edge;
     edge_label := edge_label edge;
     edge_metadata :=
       Some {| md_evidences := Some evidences;
               md_other := md_other metadata |} |}.

(** The loop over [enumerate(d['graph']['edges'])]. *)
Fixpoint map_edges (Py : Builtins) (edges : list Edge)
    : list Edge * option exn :=
  match edges with
  | [] => ([], None)
  | edge :: rest =>
      match edge_metadata edge with
      | None =>
          let (rest', raised) := map_edges Py rest in (edge :: rest', raised)
      | Some metadata =>
          match md_evidences metadata with
          | None =>
              let (rest', raised) := map_edges Py rest in
              (edge :: rest', raised)
          | Some evidences =>
              match map_evidences Py evidences with
              | (evidences', Some e) =>
                  (set_evidences edge metadata evidences' :: rest, Some e)
              | (evidences', None) =>
                  let (rest', raised) := map_edges Py rest in
                  (set_evidences edge metadata evidences' :: rest', raised)
              end
          end
      end
  end.

Definition set_edges (d : JgifDocument) (root : JgifGraph)
    (edges : list Edge) : JgifDocument :=
  {| doc_graph :=
       Some {| graph_label := graph_label root;
               graph_metadata := graph_metadata root;
               graph_nodes := graph_nodes root;
               graph_edges := Some edges |} |}.

(** [map_cbn(d)]: the dictionary [d] after the call (which is also the
    value returned when no exception is raised) and the exception raised,
    if any. *)
Definition map_cbn (Py : Builtins) (d : JgifDocument)
    : JgifDocument * option exn :=
  match doc_graph d with
  | None => (d, Some (KeyError "graph"))
  | Some root =>
      match graph_edges root with
      | None => (d, Some (KeyError "edges"))
      | Some edges =>
          let (edges', raised) := map_edges Py edges in
          (set_edges d root edges', raised)
      end
  end.

(* ================================================================= *)
(** ** The graph and the parser that [from_jgif] drives

    [BELGraph], [BelParser] and the module [constants] are imported by
    [jgif.py]; the adapter is written against the interface below. *)

(** Names imported with [from ..constants import *]. *)
Record Constants : Type := mkConstants {
  CITATION_TYPE : string;
  CITATION_REFERENCE : string;
  CITATION_NAME : string;
  METADATA_AUTHORS : string;
  METADATA_LICENSES : string;
  METADATA_INSERT_KEYS : list string;
  UNQUALIFIED_EDGES : list string
}.

(** Modelled from the spec: the canonical key of a parsed term, the
    identity of a node (the class of terms is not part of [jgif.py]). *)
Definition term : Type := string.

(** Modelled from the spec: the control context, [{citation, evidence,
    annotations}]; an empty [citation] and [evidence = None] are the
    unset ones. *)
Record Context : Type := mkContext {
  citation : dict string;
  evidence : option string;
  annotations : ExperimentContext
}.

(** Modelled from the spec: an edge, [(source, target, relation,
    context snapshot)]. *)
Record BELEdge : Type := mkBELEdge {
  source : term;
  target : term;
  relation : string;
  context : Context
}.

(** Modelled from the spec: a warning, [{line number, source text,
    kind}]. *)
Record Warning : Type := mkWarning {
  warning_line : nat;
  warning_text : string;
  warning_kind : exn
}.

(** Modelled from the spec: the graph, with the attributes [jgif.py] and
    [cli.py] use; [name = None] until a name is assigned. *)
Record BELGraph : Type := mkBELGraph {
  name : option string;
  document : dict string;
  namespace_url : dict string;
  annotation_url : dict string;
  nodes : list term;
  edges : list BELEdge;
  warnings : list Warning
}.

(** Modelled from the spec: [BELGraph()], the graph as created at parse
    start, with nothing in it. *)
Definition empty_graph : BELGraph :=
  {| name := None; document := []; namespace_url := []; annotation_url := [];
     nodes := []; edges := []; warnings := [] |}.

Definition with_name (g : BELGraph) (n : string) : BELGraph :=
  {| name := Some n; document := document g;
     namespace_url := namespace_url g; annotation_url := annotation_url g;
     nodes := nodes g; edges := edges g; warnings := warnings g |}.

Definition with_document (g : BELGraph) (doc : dict string) : BELGraph :=
  {| name := name g; document := doc;
     namespace_url := namespace_url g; annotation_url := annotation_url g;
     nodes := nodes g; edges := edges g; warnings := warnings g |}.

Definition with_urls (g : BELGraph) (ns anno : dict string) : BELGraph :=
  {| name := name g; document := document g;
     namespace_url := ns; annotation_url := anno;
     nodes := nodes g; edges := edges g; warnings := warnings g |}.

Definition with_nodes (g : BELGraph) (ns : list term) : BELGraph :=
  {| name := name g; document := document g;
     namespace_url := namespace_url g; annotation_url := annotation_url g;
     nodes := ns; edges := edges g; warnings := warnings g |}.

Definition with_edges (g : BELGraph) (es : list BELEdge) : BELGraph :=
  {| name := name g; document := document g;
     namespace_url := namespace_url g; annotation_url := annotation_url g;
     nodes := nodes g; edges := es; warnings := warnings g |}.

Definition option_string_dec (a b : option string) : {a = b} + {a <> b}.
Proof. decide equality. apply string_dec. Defined.

Definition Context_eq_dec (a b : Context) : {a = b} + {a <> b}.
Proof.
  decide equality.
  - apply list_eq_dec. decide equality.
    + apply option_string_dec.
    + apply string_dec.
  - apply option_string_dec.
  - apply list_eq_dec. decide equality; apply string_dec.
Defined.

Definition BELEdge_eq_dec (a b : BELEdge) : {a = b} + {a <> b}.
Proof.
  decide equality; try apply string_dec. apply Context_eq_dec.
Defined.

(** Modelled from the spec: [register_node], insert-or-reuse by canonical
    key (the Graph Assembler is not part of [jgif.py]). *)
Definition register_node (t : term) (g : BELGraph) : BELGraph :=
  if in_dec string_dec t (nodes g) then g
  else with_nodes g (nodes g ++ [t]).

(** Modelled from the spec: [add_edge], which registers both ends and
    never duplicates an edge with an identical full key. *)
Definition add_edge (e : BELEdge) (g : BELGraph) : BELGraph :=
  let g := register_node (target e) (register_node (source e) g) in
  if in_dec BELEdge_eq_dec e (edges g) then g
  else with_edges g (edges g ++ [e]).

(** Modelled from the spec: [control_parser.clear()] resets citation,
    evidence and annotations to empty. *)
Definition clear (c : Context) : Context :=
  {| citation := []; evidence := None; annotations := [] |}.

Definition set_citation (c : Context) (cit : dict string) : Context :=
  {| citation := cit; evidence := evidence c; annotations := annotations c |}.

Definition set_evidence (c : Context) (text : string) : Context :=
  {| citation := citation c; evidence := Some text;
     annotations := annotations c |}.

Definition update_annotations (c : Context) (ctx : ExperimentContext)
    : Context :=
  {| citation := citation c; evidence := evidence c;
     annotations := Dict.update (annotations c) ctx |}.

(** A parsed relation: subject, relation keyword, object. *)
Definition triple : Type := (term * string * term)%type.

(** The grammar of [BelParser], which [jgif.py] calls and does not define.
    [bel_term s] is the result of [parser.bel_term.parseString(s)], the
    canonical term or the exception raised; [language s n] is the grammar
    side of [parser.parseString(s, line_number=n)], the relations the
    statement holds (two for a nested statement) or the exception
    raised. *)
Record Grammar : Type := mkGrammar {
  bel_term : string -> result term;
  language : string -> nat -> result (list triple)
}.

(** [parser], which owns the graph it fills and its control parser. *)
Record ParserState : Type := mkParserState {
  graph : BELGraph;
  control_parser : Context
}.

(** Modelled from the spec: [BelParser(graph)], whose control context is
    created empty together with the parser. *)
Definition new_parser (g : BELGraph) : ParserState :=
  {| graph := g;
     control_parser := {| citation := []; evidence := None;
                          annotations := [] |} |}.

Definition with_graph (st : ParserState) (g : BELGraph) : ParserState :=
  {| graph := g; control_parser := control_parser st |}.

Definition with_control (st : ParserState) (c : Context) : ParserState :=
  {| graph := graph st; control_parser := c |}.

Definition string_mem (s : string) (l : list string) : bool :=
  existsb (String.eqb s) l.

Lemma string_mem_In (s : string) (l : list string) :
  string_mem s l = true <-> In s l.
Proof.
  unfold string_mem. rewrite existsb_exists. split.
  - intros [x [Hin Heq]]. apply String.eqb_eq in Heq. now subst.
  - intro Hin. exists s. split; [assumption | apply String.eqb_refl].
Qed.

Section Parser.
Variable K : Constants.
Variable G : Grammar.

(** Modelled from the spec: a relation is qualified unless listed as
    unqualified, and a qualified one needs a citation and an evidence. *)
Definition lacks_context (c : Context) (t : triple) : bool :=
  let '(_, rel, _) := t in
  negb (string_mem rel (UNQUALIFIED_EDGES K))
  && (negb (Dict.nonempty (citation c))
      || match evidence c with Some _ => false | None => true end).

(** Modelled from the spec: the edge a parsed relation becomes, with the
    context captured by value. *)
Definition snapshot (c : Context) (t : triple) : BELEdge :=
  let '(s, rel, o) := t in
  {| source := s; target := o; relation := rel; context := c |}.

(** Modelled from the spec: [parser.bel_term.parseString(s)] with
    [handle_term] attached, node-only registration of the parsed term. *)
Definition parse_term (s : string) (st : ParserState) : result ParserState :=
  t <- bel_term G s ;;
  Ok (with_graph st (register_node t (graph st))).

(** Modelled from the spec: [parser.parseString(line, line_number)]. A
    statement whose qualified relation finds no citation or no evidence
    raises [MissingContext] and adds nothing; otherwise every relation of
    the statement becomes an edge with a snapshot of the context. *)
Definition parseString (line : string) (line_number : nat)
    (st : ParserState) : result ParserState :=
  triples <- language G line line_number ;;
  match find (lacks_context (control_parser st)) triples with
  | Some (_, rel, _) => Raise (MissingContext rel)
  | None =>
      Ok (with_graph st
            (fold_left
               (fun g t => add_edge (snapshot (control_parser st) t) g)
               triples (graph st)))
  end.

End Parser.

(* ================================================================= *)
(** ** [get_citation], [from_jgif] and [from_cbn_jgif] *)

Section Adapter.
Variable Py : Builtins.
Variable K : Constants.
Variable G : Grammar.

(** [get_citation(evidence)] *)
Definition get_citation (ev : Evidence) : result (dict string) :=
  cit <- subscript "citation" (ev_citation ev) ;;
  type <- subscript "type" (Dict.get "type" cit) ;;
  id <- subscript "id" (Dict.get "id" cit) ;;
  let citation :=
    Dict.set (CITATION_REFERENCE K) (str_strip Py id)
      (Dict.set (CITATION_TYPE K) (str_strip Py type) []) in
  match Dict.get "name" cit with
  | Some name => Ok (Dict.set (CITATION_NAME K) (str_strip Py name) citation)
  | None => Ok citation
  end.

(** The loop [for key in METADATA_INSERT_KEYS] filling [graph.document]. *)
Fixpoint insert_metadata (keys : list string) (metadata : dict string)
    (doc : dict string) : dict string :=
  match keys with
  | [] => doc
  | key :: rest =>
      match Dict.get key metadata with
      | Some v => insert_metadata rest metadata (Dict.set key v doc)
      | None => insert_metadata rest metadata doc
      end
  end.

(** The body of [for node in root['nodes']]. Only [NakedNameWarning] and
    [ParseException] are handled; any other exception leaves the loop. *)
Definition process_node (node : Node) (st : ParserState)
    : result ParserState :=
  match node_label node with
  | None => Ok st
  | Some label =>
      match parse_term G label st with
      | Ok st' => Ok st'
      | Raise (NakedNameWarning _) => Ok st
      | Raise (ParseException _) => Ok st
      | Raise e => Raise e
      end
  end.

Fixpoint process_nodes (nodes : list Node) (st : ParserState)
    : result ParserState :=
  match nodes with
  | [] => Ok st
  | node :: rest =>
      st' <- process_node node st ;;
      process_nodes rest st'
  end.

(** The four assignments to [parser.control_parser] that precede the
    parse of an evidence record. *)
Definition load_context (ev : Evidence) (summary_text : string)
    (c : Context) : result Context :=
  let c := clear c in
  cit <- get_citation ev ;;
  let c := set_citation c cit in
  let c := set_evidence c summary_text in
  ctx <- subscript EXPERIMENT_CONTEXT (ev_experiment_context ev) ;;
  Ok (update_annotations c ctx).

(** [parser.parseString(bel_statement, line_number=i)] inside
    [try ... except Exception]: every exception is swallowed. A record
    without ['label'] hands [None] to the parser, which raises on it. *)
Definition try_parse (bel_statement : option string) (i : nat)
    (st : ParserState) : ParserState :=
  match bel_statement with
  | None => st
  | Some line =>
      match parseString K G line i st with
      | Ok st' => st'
      | Raise _ => st
      end
  end.

(** The body of [for evidence in evidences]. *)
Definition process_evidence (bel_statement : option string) (i : nat)
    (ev : Evidence) (st : ParserState) : result ParserState :=
  match ev_citation ev with
  | None => Ok st
  | Some cit =>
      if negb (Dict.nonempty cit) then Ok st
      else if negb (Dict.mem "type" cit) && negb (Dict.mem "id" cit)
      then Ok st
      else
        text <- subscript "summary_text" (ev_summary_text ev) ;;
        let summary_text := str_strip Py text in
        if negb (PyStr.nonempty summary_text)
           || String.eqb summary_text placeholder_evidence
        then Ok st
        else
          c <- load_context ev summary_text (control_parser st) ;;
          Ok (try_parse bel_statement i (with_control st c))
  end.

Fixpoint process_evidences (bel_statement : option string) (i : nat)
    (evidences : list Evidence) (st : ParserState) : result ParserState :=
  match evidences with
  | [] => Ok st
  | ev :: rest =>
      st' <- process_evidence bel_statement i ev st ;;
      process_evidences bel_statement i rest st'
  end.

(** [relation in {'actsIn', 'translocates'}]; a missing relation is
    [None], which is in no set of strings. *)
Definition is_legacy (rel : option string) : bool :=
  match rel with
  | Some r => string_mem r ["actsIn"; "translocates"]
  | None => false
  end.

(** [relation in UNQUALIFIED_EDGES] *)
Definition is_unqualified (rel : option string) : bool :=
  match rel with
  | Some r => string_mem r (UNQUALIFIED_EDGES K)
  | None => false
  end.

(** The body of [for i, edge in enumerate(root['edges'])]. *)
Definition process_edge (i : nat) (edge : Edge) (st : ParserState)
    : result ParserState :=
  let rel := edge_relation edge in
  if is_legacy rel then Ok st
  else
    match edge_metadata edge with
    | None => Ok st
    | Some edge_metadata =>
        let bel_statement := edge_label edge in
        let evidences := md_evidences edge_metadata in
        if is_unqualified rel then Ok st
        else
          match evidences with
          | None => Ok st
          | Some [] => Ok st
          | Some evs => process_evidences bel_statement i evs st
          end
    end.

Fixpoint process_edges (i : nat) (es : list Edge) (st : ParserState)
    : result ParserState :=
  match es with
  | [] => Ok st
  | edge :: rest =>
      st' <- process_edge i edge st ;;
      process_edges (S i) rest st'
  end.

(** The head of [from_jgif]: the new graph with its name and document. *)
Definition init_graph (root : JgifGraph) : BELGraph :=
  let g :=
    match graph_label root with
    | Some label => with_name empty_graph label
    | None => empty_graph
    end in
  match graph_metadata root with
  | Some metadata =>
      with_document g
        (insert_metadata (METADATA_INSERT_KEYS K) metadata (document g))
  | None => g
  end.

(** [from_jgif(graph_jgif_dict)] *)
Definition from_jgif (d : JgifDocument) : result BELGraph :=
  root <- subscript "graph" (doc_graph d) ;;
  let parser := new_parser (init_graph root) in
  ns <- subscript "nodes" (graph_nodes root) ;;
  parser <- process_nodes ns parser ;;
  es <- subscript "edges" (graph_edges root) ;;
  parser <- process_edges 0 es parser ;;
  Ok (graph parser).

End Adapter.

(** The text [from_cbn_jgif] stores under [METADATA_LICENSES], as the
    source file spells it, before [.replace] is applied. *)
Definition cbn_license_text : string :=
"
        Please cite:
        
        - www.causalbionet.com
        - https://bionet.sbvimprover.com 

        as well as any relevant publications.
        
        The sbv IMPROVER project, the website and the Symposia are part of a collaborative project 
        designed to enable scientists to learn about and contribute to the development of a new crowd 
        sourcing method for verification of scientific data and results. The current challenges, website 
        and biological network models were developed and are maintained as part of a collaboration among 
        Selventa, OrangeBus and ADS. The project is led and funded by Philip Morris International. For more
        information on the focus of Philip Morris International’s research, please visit www.pmi.com.
        ".

Section CbnAdapter.
Variable Py : Builtins.
Variable K : Constants.
Variable G : Grammar.

Definition cbn_namespace_urls : dict string :=
  [ ("HGNC", "https://arty.scai.fraunhofer.de/artifactory/bel/namespace/hgnc-human-genes/hgnc-human-genes-20150601.belns");
    ("GOBP", "https://arty.scai.fraunhofer.de/artifactory/bel/namespace/go-biological-process/go-biological-process-20150601.belns");
    ("SFAM", "https://arty.scai.fraunhofer.de/artifactory/bel/namespace/selventa-protein-families/selventa-protein-families-20150601.belns") ].

Definition cbn_annotation_urls : dict string :=
  [ ("Cell", "https://arty.scai.fraunhofer.de/artifactory/bel/annotation/cell-line/cell-line-20150601.belanno");
    ("Disease", "https://arty.scai.fraunhofer.de/artifactory/bel/annotation/disease/disease-20150601.belanno");
    ("Species", "https://arty.scai.fraunhofer.de/artifactory/bel/annotation/species-taxonomy-id/species-taxonomy-id-20170511.belanno");
    ("Tissue", "https://arty.scai.fraunhofer.de/artifactory/bel/annotation/mesh-anatomy/mesh-anatomy-20150601.belanno") ].

(** [graph_jgif_dict['graph']['metadata'].update({...})] *)
Definition update_cbn_metadata (d : JgifDocument) : result JgifDocument :=
  root <- subscript "graph" (doc_graph d) ;;
  metadata <- subscript "metadata" (graph_metadata root) ;;
  let metadata :=
    Dict.update metadata
      [ (METADATA_AUTHORS K, "Causal Biological Networks Database");
        (METADATA_LICENSES K,
         PyStr.replace_char "010"%char "009"%char cbn_license_text) ] in
  Ok {| doc_graph :=
          Some {| graph_label := graph_label root;
                  graph_metadata := Some metadata;
                  graph_nodes := graph_nodes root;
                  graph_edges := graph_edges root |} |}.

(** [from_cbn_jgif(graph_jgif_dict)] *)
Definition from_cbn_jgif (d : JgifDocument) : result BELGraph :=
  match map_cbn Py d with
  | (_, Some e) => Raise e
  | (d, None) =>
      d <- update_cbn_metadata d ;;
      g <- from_jgif Py K G d ;;
      Ok (with_urls g
            (Dict.update (namespace_url g) cbn_namespace_urls)
            (Dict.update (annotation_url g) cbn_annotation_urls))
  end.

End CbnAdapter.

(* ================================================================= *)
(** ** An instance to evaluate the adapter on

    The properties below hold for every [Constants] and every [Grammar].
    To run the adapter on a document one of each is needed: the constants
    take the values of [pybel.constants], the unqualified relations are
    the ones the specification lists, the grammar is a small stand-in
    that accepts [subject relation object] with blank-free terms, and the
    two string methods are the ones of [AsciiText], for documents of
    ASCII text. *)

Module Demo.

Definition constants : Constants :=
  {| CITATION_TYPE := "type";
     CITATION_REFERENCE := "reference";
     CITATION_NAME := "name";
     METADATA_AUTHORS := "authors";
     METADATA_LICENSES := "licenses";
     METADATA_INSERT_KEYS :=
       ["name"; "version"; "description"; "authors"; "contact";
        "licenses"; "copyright"; "disclaimer"];
     UNQUALIFIED_EDGES :=
       ["hasComponent"; "hasMember"; "isA"; "partOf"; "translocates"] |}.

Fixpoint has_char (c : ascii) (s : string) : bool :=
  match s with
  | EmptyString => false
  | String c' s' => Ascii.eqb c c' || has_char c s'
  end.

(** The words of [s], separated by single spaces. *)
Fixpoint words (s : string) : list string :=
  match s with
  | EmptyString => [EmptyString]
  | String c s' =>
      if Ascii.eqb c " "%char then EmptyString :: words s'
      else
        match words s' with
        | [] => [String c EmptyString]
        | w :: ws => String c w :: ws
        end
  end.

(** A term is a function application; its name needs a namespace. *)
Definition demo_term (s : string) : result term :=
  if negb (has_char "("%char s) then Raise (ParseException s)
  else if negb (has_char ":"%char s) then Raise (NakedNameWarning s)
  else Ok s.

Definition demo_language (s : string) (line_number : nat)
    : result (list triple) :=
  match words s with
  | [subject; rel; object] =>
      a <- demo_term subject ;;
      b <- demo_term object ;;
      Ok [(a, rel, b)]
  | _ => Raise (ParseException s)
  end.

Definition grammar : Grammar :=
  {| bel_term := demo_term; language := demo_language |}.

(** The two string methods on ASCII text. *)
Definition builtins : Builtins :=
  {| str_strip := AsciiText.strip; str_lower := AsciiText.lower |}.

Lemma builtins_lowercase : lower_is_lowercase builtins.
Proof. intro s. apply AsciiText.lower_has_no_capital. Qed.

Definition from_jgif : JgifDocument -> result BELGraph :=
  from_jgif builtins constants grammar.

Definition from_cbn_jgif : JgifDocument -> result BELGraph :=
  from_cbn_jgif builtins constants grammar.

(** Builders for small documents. *)
Definition pubmed (id : string) : JgifCitation :=
  [("type", "PubMed"); ("id", id)].

Definition evidence_record (cit : option JgifCitation)
    (text : option string) (ctx : option ExperimentContext) : Evidence :=
  {| ev_citation := cit; ev_summary_text := text;
     ev_experiment_context := ctx; ev_other := [] |}.

Definition edge_record (rel label : string) (evs : option (list Evidence))
    : Edge :=
  {| edge_source := None; edge_target := None;
     edge_relation := Some rel; edge_label := Some label;
     edge_metadata := Some {| md_evidences := evs; md_other := [] |} |}.

Definition node_record (label : string) : Node :=
  {| node_id := Some label; node_label := Some label |}.

Definition jgif (ns : list Node) (es : list Edge) : JgifDocument :=
  {| doc_graph :=
       Some {| graph_label := None; graph_metadata := None;
               graph_nodes := Some ns; graph_edges := Some es |} |}.

End Demo.

(* ================================================================= *)
(** ** What the graph operations leave alone *)

(** The graph attributes no parsing step writes. *)
Definition same_header (g g' : BELGraph) : Prop :=
  name g' = name g /\ document g' = document g /\ warnings g' = warnings g.

Lemma same_header_refl (g : BELGraph) : same_header g g.
Proof. repeat split. Qed.

Lemma same_header_trans (g1 g2 g3 : BELGraph) :
  same_header g1 g2 -> same_header g2 g3 -> same_header g1 g3.
Proof.
  unfold same_header. intros (A & B & C) (A' & B' & C').
  repeat split; congruence.
Qed.

Lemma register_node_header (t : term) (g : BELGraph) :
  same_header g (register_node t g).
Proof.
  unfold register_node. destruct (in_dec string_dec t (nodes g));
    repeat split.
Qed.

Lemma register_node_edges (t : term) (g : BELGraph) :
  edges (register_node t g) = edges g.
Proof.
  unfold register_node. now destruct (in_dec string_dec t (nodes g)).
Qed.

Lemma register_node_nodes (t x : term) (g : BELGraph) :
  In x (nodes (register_node t g)) <-> In x (nodes g) \/ x = t.
Proof.
  unfold register_node. destruct (in_dec string_dec t (nodes g)); simpl.
  - split; [auto | intros [H | ->]; assumption].
  - rewrite in_app_iff. simpl. intuition.
Qed.

Lemma add_edge_header (e : BELEdge) (g : BELGraph) :
  same_header g (add_edge e g).
Proof.
  unfold add_edge.
  set (g' := register_node (target e) (register_node (source e) g)).
  assert (H : same_header g g').
  { eapply same_header_trans; apply register_node_header. }
  destruct (in_dec BELEdge_eq_dec e (edges g')); [exact H |].
  destruct H as (A & B & C). repeat split; assumption.
Qed.

Lemma add_edge_edges (e x : BELEdge) (g : BELGraph) :
  In x (edges (add_edge e g)) <-> In x (edges g) \/ x = e.
Proof.
  unfold add_edge.
  set (g' := register_node (target e) (register_node (source e) g)).
  assert (H : edges g' = edges g).
  { unfold g'. now rewrite !register_node_edges. }
  destruct (in_dec BELEdge_eq_dec e (edges g')) as [Hin | Hnot]; simpl.
  - rewrite H in *. split; [auto | intros [Hx | ->]; assumption].
  - rewrite H, in_app_iff. simpl. intuition.
Qed.

Lemma fold_add_edge_header (c : Context) (ts : list triple) (g : BELGraph) :
  same_header g (fold_left (fun g t => add_edge (snapshot c t) g) ts g).
Proof.
  revert g. induction ts as [|t ts IH]; intro g; simpl.
  - apply same_header_refl.
  - eapply same_header_trans; [apply add_edge_header | apply IH].
Qed.

Lemma fold_add_edge_edges (c : Context) (ts : list triple) (g : BELGraph)
    (x : BELEdge) :
  In x (edges (fold_left (fun g t => add_edge (snapshot c t) g) ts g)) <->
  In x (edges g) \/ exists t, In t ts /\ x = snapshot c t.
Proof.
  revert g. induction ts as [|t ts IH]; intro g; simpl.
  - split; [auto | intros [H | (t & [] & _)]; assumption].
  - rewrite IH, add_edge_edges. split.
    + intros [[H | ->] | (t' & Hin & ->)]; eauto.
    + intros [H | (t' & [<- | Hin] & ->)]; eauto.
Qed.

Lemma snapshot_context (c : Context) (t : triple) :
  context (snapshot c t) = c.
Proof. now destruct t as [[s r] o]. Qed.

Section ParserFacts.
Variable K : Constants.
Variable G : Grammar.

Lemma parse_term_Ok (s : string) (st st' : ParserState) :
  parse_term G s st = Ok st' ->
  exists t, bel_term G s = Ok t /\
            st' = with_graph st (register_node t (graph st)).
Proof.
  unfold parse_term. destruct (bel_term G s) as [t | e]; simpl.
  - intro H. injection H as <-. now exists t.
  - discriminate.
Qed.

Lemma parseString_Ok (line : string) (i : nat) (st st' : ParserState) :
  parseString K G line i st = Ok st' ->
  control_parser st' = control_parser st /\
  same_header (graph st) (graph st') /\
  forall x, In x (edges (graph st')) ->
            In x (edges (graph st)) \/ context x = control_parser st.
Proof.
  unfold parseString. destruct (language G line i) as [ts | e]; simpl.
  - destruct (find (lacks_context K (control_parser st)) ts)
      as [[[s r] o] |]; [discriminate |].
    intro H. injection H as <-. simpl. split; [reflexivity |].
    split; [apply fold_add_edge_header |].
    intros x Hx. apply fold_add_edge_edges in Hx.
    destruct Hx as [Hx | (t & _ & ->)]; [now left | right].
    apply snapshot_context.
  - discriminate.
Qed.

Lemma try_parse_control (lbl : option string) (i : nat) (st : ParserState) :
  control_parser (try_parse K G lbl i st) = control_parser st.
Proof.
  unfold try_parse. destruct lbl as [line |]; [| reflexivity].
  destruct (parseString K G line i st) eqn:E; [| reflexivity].
  now apply parseString_Ok in E.
Qed.

Lemma try_parse_header (lbl : option string) (i : nat) (st : ParserState) :
  same_header (graph st) (graph (try_parse K G lbl i st)).
Proof.
  unfold try_parse. destruct lbl as [line |]; [| apply same_header_refl].
  destruct (parseString K G line i st) eqn:E; [| apply same_header_refl].
  now apply parseString_Ok in E.
Qed.

Lemma try_parse_edges (lbl : option string) (i : nat) (st : ParserState)
    (x : BELEdge) :
  In x (edges (graph (try_parse K G lbl i st))) ->
  In x (edges (graph st)) \/ context x = control_parser st.
Proof.
  unfold try_parse. destruct lbl as [line |]; [| now left].
  destruct (parseString K G line i st) eqn:E; [| now left].
  apply parseString_Ok in E. apply E.
Qed.

End ParserFacts.

(* ================================================================= *)
(** ** How one evidence record is processed *)

(** The context a record that passes the guards hands to the parser. *)
Definition record_context (Py : Builtins) (cit : dict string) (text : string)
    (ctx : ExperimentContext) : Context :=
  {| citation := cit; evidence := Some (str_strip Py text);
     annotations := Dict.update [] ctx |}.

Section EvidenceFacts.
Variable Py : Builtins.
Variable K : Constants.
Variable G : Grammar.

Lemma load_context_Ok (ev : Evidence) (text : string) (c c' : Context) :
  load_context Py K ev text c = Ok c' ->
  exists cit ctx,
    get_citation Py K ev = Ok cit /\
    ev_experiment_context ev = Some ctx /\
    c' = {| citation := cit; evidence := Some text;
            annotations := Dict.update [] ctx |}.
Proof.
  unfold load_context.
  destruct (get_citation Py K ev) as [cit | e]; simpl; [| discriminate].
  destruct (ev_experiment_context ev) as [ctx |]; simpl; [| discriminate].
  intro H. injection H as <-. now exists cit, ctx.
Qed.

(** The previous content of the control parser plays no part. *)
Lemma load_context_fresh (ev : Evidence) (text : string) (c c' : Context) :
  load_context Py K ev text c = load_context Py K ev text c'.
Proof. reflexivity. Qed.

(** A record either leaves the parser as it found it, or passes every
    guard and is parsed under its own context. *)
Lemma process_evidence_Ok (lbl : option string) (i : nat) (ev : Evidence)
    (st st' : ParserState) :
  process_evidence Py K G lbl i ev st = Ok st' ->
  st' = st \/
  exists cit text ctx,
    get_citation Py K ev = Ok cit /\
    ev_summary_text ev = Some text /\
    str_strip Py text <> "" /\
    str_strip Py text <> placeholder_evidence /\
    ev_experiment_context ev = Some ctx /\
    st' = try_parse K G lbl i
            (with_control st (record_context Py cit text ctx)).
Proof.
  unfold process_evidence.
  destruct (ev_citation ev) as [jc |]; [| intro H; left; congruence].
  destruct (negb (Dict.nonempty jc)); [intro H; left; congruence |].
  destruct (negb (Dict.mem "type" jc) && negb (Dict.mem "id" jc));
    [intro H; left; congruence |].
  destruct (ev_summary_text ev) as [text |]; simpl; [| discriminate].
  destruct (negb (PyStr.nonempty (str_strip Py text))) eqn:Hne; simpl;
    [intro H; left; congruence |].
  destruct (String.eqb (str_strip Py text) placeholder_evidence) eqn:Hph;
    [intro H; left; congruence |].
  destruct (load_context Py K ev (str_strip Py text) (control_parser st))
    as [c |] eqn:Hload; simpl; [| discriminate].
  intro H. injection H as <-. right.
  apply load_context_Ok in Hload. destruct Hload as (cit & ctx & A & B & ->).
  exists cit, text, ctx. repeat split; try assumption.
  - apply PyStr.nonempty_true. now apply negb_false_iff in Hne.
  - now apply String.eqb_neq.
Qed.

Lemma get_citation_keys (ev : Evidence) (cit : dict string) :
  get_citation Py K ev = Ok cit ->
  cit <> [] /\
  Dict.mem (CITATION_TYPE K) cit = true /\
  Dict.mem (CITATION_REFERENCE K) cit = true.
Proof.
  assert (Hkeep : forall k k' v (d : dict string),
             Dict.mem k' d = true -> Dict.mem k' (Dict.set k v d) = true).
  { intros k k' v d. unfold Dict.mem.
    destruct (string_dec k' k) as [-> | Hne].
    - now rewrite Dict.get_set_same.
    - now rewrite Dict.get_set_other. }
  assert (Hnew : forall k v (d : dict string),
             Dict.mem k (Dict.set k v d) = true).
  { intros. unfold Dict.mem. now rewrite Dict.get_set_same. }
  unfold get_citation.
  destruct (ev_citation ev) as [jc |]; cbn [bind subscript];
    [| discriminate].
  destruct (Dict.get "type" jc) as [ty |]; cbn [bind subscript];
    [| discriminate].
  destruct (Dict.get "id" jc) as [id |]; cbn [bind subscript];
    [| discriminate].
  destruct (Dict.get "name" jc) as [nm |]; intro H; apply Ok_inj in H;
    subst cit; (split; [apply Dict.set_nonempty |]); split; auto.
Qed.

End EvidenceFacts.

(* ================================================================= *)
(** ** Invariants of the two loops of [from_jgif] *)

(** A context with a citation that has its type and reference, and an
    evidence text that is neither empty nor the placeholder. *)
Definition has_provenance (K : Constants) (c : Context) : Prop :=
  citation c <> [] /\
  Dict.mem (CITATION_TYPE K) (citation c) = true /\
  Dict.mem (CITATION_REFERENCE K) (citation c) = true /\
  exists text, evidence c = Some text /\ text <> "" /\
               text <> placeholder_evidence.

(** [st'] comes from [st] by parsing statements under contexts with
    provenance: the header is the same and every new edge has one. *)
Definition extends (K : Constants) (st st' : ParserState) : Prop :=
  same_header (graph st) (graph st') /\
  forall x, In x (edges (graph st')) ->
            In x (edges (graph st)) \/ has_provenance K (context x).

Lemma extends_refl (K : Constants) (st : ParserState) : extends K st st.
Proof. split; [apply same_header_refl | auto]. Qed.

Lemma extends_trans (K : Constants) (st1 st2 st3 : ParserState) :
  extends K st1 st2 -> extends K st2 st3 -> extends K st1 st3.
Proof.
  intros [H1 E1] [H2 E2]. split.
  - eapply same_header_trans; eassumption.
  - intros x Hx. destruct (E2 x Hx) as [Hx' | Hp]; auto.
Qed.

Section LoopFacts.
Variable Py : Builtins.
Variable K : Constants.
Variable G : Grammar.

Lemma process_node_frame (node : Node) (st st' : ParserState) :
  process_node G node st = Ok st' ->
  same_header (graph st) (graph st') /\
  edges (graph st') = edges (graph st) /\
  control_parser st' = control_parser st.
Proof.
  unfold process_node. destruct (node_label node) as [label |].
  - destruct (parse_term G label st) as [st1 | e] eqn:E.
    + intro H. apply Ok_inj in H. subst st1.
      apply parse_term_Ok in E. destruct E as (t & _ & ->). simpl.
      split; [apply register_node_header |].
      split; [apply register_node_edges | reflexivity].
    + destruct e; try discriminate; intro H; apply Ok_inj in H; subst st';
        (split; [apply same_header_refl | split; reflexivity]).
  - intro H. apply Ok_inj in H. subst st'.
    split; [apply same_header_refl | split; reflexivity].
Qed.

Lemma process_nodes_frame (ns : list Node) (st st' : ParserState) :
  process_nodes G ns st = Ok st' ->
  same_header (graph st) (graph st') /\
  edges (graph st') = edges (graph st) /\
  control_parser st' = control_parser st.
Proof.
  revert st. induction ns as [|node ns IH]; intros st; simpl.
  - intro H. apply Ok_inj in H. subst st'.
    split; [apply same_header_refl | split; reflexivity].
  - destruct (process_node G node st) as [st1 |] eqn:E; simpl;
      [| discriminate].
    intro H. apply IH in H. apply process_node_frame in E.
    destruct E as (A & B & C), H as (A' & B' & C').
    split; [eapply same_header_trans; eassumption |].
    split; congruence.
Qed.

Lemma process_evidence_extends (lbl : option string) (i : nat)
    (ev : Evidence) (st st' : ParserState) :
  process_evidence Py K G lbl i ev st = Ok st' -> extends K st st'.
Proof.
  intro H. apply process_evidence_Ok in H.
  destruct H as [-> | (cit & text & ctx & Hc & Ht & Hne & Hph & Hx & ->)].
  - apply extends_refl.
  - split.
    + apply (try_parse_header K G lbl i
               (with_control st (record_context Py cit text ctx))).
    + intros x Hin. apply try_parse_edges in Hin.
      destruct Hin as [Hin | Hctx]; [now left | right].
      rewrite Hctx. simpl.
      destruct (get_citation_keys Py K ev Hc) as (A & B & C).
      repeat split; try assumption.
      exists (str_strip Py text). repeat split; assumption.
Qed.

Lemma process_evidences_extends (lbl : option string) (i : nat)
    (evs : list Evidence) (st st' : ParserState) :
  process_evidences Py K G lbl i evs st = Ok st' -> extends K st st'.
Proof.
  revert st. induction evs as [|ev evs IH]; intros st; simpl.
  - intro H. apply Ok_inj in H. subst st'. apply extends_refl.
  - destruct (process_evidence Py K G lbl i ev st) as [st1 |] eqn:E; simpl;
      [| discriminate].
    intro H. eapply extends_trans.
    + eapply process_evidence_extends; eassumption.
    + now apply IH.
Qed.

Lemma process_edge_extends (i : nat) (edge : Edge) (st st' : ParserState) :
  process_edge Py K G i edge st = Ok st' -> extends K st st'.
Proof.
  unfold process_edge.
  destruct (is_legacy (edge_relation edge));
    [intro H; apply Ok_inj in H; subst; apply extends_refl |].
  destruct (edge_metadata edge) as [md |];
    [| intro H; apply Ok_inj in H; subst; apply extends_refl].
  destruct (is_unqualified K (edge_relation edge));
    [intro H; apply Ok_inj in H; subst; apply extends_refl |].
  destruct (md_evidences md) as [[| ev evs] |];
    try (intro H; apply Ok_inj in H; subst; apply extends_refl).
  apply process_evidences_extends.
Qed.

Lemma process_edges_extends (i : nat) (es : list Edge)
    (st st' : ParserState) :
  process_edges Py K G i es st = Ok st' -> extends K st st'.
Proof.
  revert i st. induction es as [|edge es IH]; intros i st; simpl.
  - intro H. apply Ok_inj in H. subst st'. apply extends_refl.
  - destruct (process_edge Py K G i edge st) as [st1 |] eqn:E; simpl;
      [| discriminate].
    intro H. eapply extends_trans.
    + eapply process_edge_extends; eassumption.
    + eapply IH; eassumption.
Qed.

(** [from_jgif] returns the graph it initialised, extended by the two
    loops. *)
Lemma from_jgif_Ok (d : JgifDocument) (g : BELGraph) :
  from_jgif Py K G d = Ok g ->
  exists root ns es st1 st2,
    doc_graph d = Some root /\
    graph_nodes root = Some ns /\
    graph_edges root = Some es /\
    process_nodes G ns (new_parser (init_graph K root)) = Ok st1 /\
    process_edges Py K G 0 es st1 = Ok st2 /\
    g = graph st2.
Proof.
  unfold from_jgif.
  destruct (doc_graph d) as [root |] eqn:Er; cbn [bind subscript];
    [| discriminate].
  destruct (graph_nodes root) as [ns |] eqn:En; cbn [bind subscript];
    [| discriminate].
  destruct (process_nodes G ns (new_parser (init_graph K root)))
    as [st1 |] eqn:E1; cbn [bind subscript]; [| discriminate].
  destruct (graph_edges root) as [es |] eqn:Ee; cbn [bind subscript];
    [| discriminate].
  destruct (process_edges Py K G 0 es st1) as [st2 |] eqn:E2;
    cbn [bind subscript]; [| discriminate].
  intro H. apply Ok_inj in H. subst g.
  exists root, ns, es, st1, st2. repeat split; auto.
Qed.

End LoopFacts.

(* ================================================================= *)
(** ** The [convert] command of [cli.py] *)

Module Cli.

(** How a run of the command ends: [sys.exit(status)], or an exception
    that nothing in [convert] handles. *)
Inductive outcome : Type :=
| Exit (status : nat)
| Uncaught (e : exn).

(** An option of type string, when its truth value is true: [None] and
    [''] are false. *)
Definition given (o : option string) : option string :=
  match o with
  | Some s => if PyStr.nonempty s then Some s else None
  | None => None
  end.

Section Convert.

(** The state the collaborators act on (files, databases, the cache) and
    the types of their handles. *)
Variables World File Manager NeoGraph : Type.

(** A computation that acts on the world and may raise. *)
Definition M (A : Type) : Type := World -> World * result A.

Definition ret {A : Type} (a : A) : M A := fun w => (w, Ok a).

Definition bindM {A B : Type} (m : M A) (k : A -> M B) : M B :=
  fun w =>
    match m w with
    | (w', Ok a) => k a w'
    | (w', Raise e) => (w', Raise e)
    end.

Definition raise {A : Type} (e : exn) : M A := fun w => (w, Raise e).

(** [if cond: body] *)
Definition when (cond : bool) (body : M unit) : M unit :=
  if cond then body else ret tt.

(** The parameters of [convert], one per [click.option]. *)
Record Options : Type := mkOptions {
  path : File;
  url : option string;
  connection : option string;
  database_name : option string;
  csv : option string;
  graphml : option string;
  json : option File;
  pickle : option string;
  cx : option File;
  bel : option File;
  neo : option string;
  neo_context : option string;
  store_default : bool;
  store_connection : option string;
  allow_naked_names : bool;
  allow_nested : bool;
  no_citation_clearing : bool;
  verbose : nat
}.

(** The functions [cli.py] imports and calls. The loaders take
    [allow_nested], [allow_naked_names] and [citation_clearing] in this
    order; [neo_count] is
    [neo_graph.data('match (n) return count(n) as count')[0]['count']]. *)
Record Collaborators : Type := mkCollaborators {
  CacheManager : option string -> M Manager;
  from_database : string -> Manager -> M BELGraph;
  from_url : string -> Manager -> bool -> bool -> bool -> M BELGraph;
  from_lines : File -> Manager -> bool -> bool -> bool -> M BELGraph;
  to_csv : BELGraph -> string -> M unit;
  to_graphml : BELGraph -> string -> M unit;
  to_json : BELGraph -> File -> M unit;
  to_pickle : BELGraph -> string -> M unit;
  to_cx : BELGraph -> File -> M unit;
  to_bel : BELGraph -> File -> M unit;
  to_database : BELGraph -> option string -> M unit;
  py2neo_Graph : string -> M NeoGraph;
  neo_count : NeoGraph -> M (option nat);
  to_neo4j : BELGraph -> NeoGraph -> option string -> M unit
}.

Variable C : Collaborators.

(** [if option: body(option)], for an option already reduced to its
    truth value ([given]) or a [click.File], true whenever present. *)
Definition if_set {A : Type} (o : option A) (body : A -> M unit) : M unit :=
  match o with
  | Some a => body a
  | None => ret tt
  end.

(** The [if database_name: ... elif url: ... else: ...] that loads [g]. *)
Definition load (o : Options) (manager : Manager) : M BELGraph :=
  match given (database_name o) with
  | Some n => from_database C n manager
  | None =>
      match given (url o) with
      | Some u =>
          from_url C u manager (allow_nested o) (allow_naked_names o)
            (negb (no_citation_clearing o))
      | None =>
          from_lines C (path o) manager (allow_nested o)
            (allow_naked_names o) (negb (no_citation_clearing o))
      end
  end.

(** The body of [if neo:]. *)
Definition upload (o : Options) (g : BELGraph) (n : string) : M unit :=
  bindM (py2neo_Graph C n) (fun neo_graph =>
  bindM (neo_count C neo_graph) (fun count =>
  match count with
  | None => raise AssertionError
  | Some _ => to_neo4j C g neo_graph (neo_context o)
  end)).

(** [convert] up to, and without, its last statement: the graph [g] that
    statement reads. *)
Definition run (o : Options) : M BELGraph :=
  bindM (CacheManager C (connection o)) (fun manager =>
  bindM (load o manager) (fun g =>
  bindM (if_set (given (csv o)) (to_csv C g)) (fun _ =>
  bindM (if_set (given (graphml o)) (to_graphml C g)) (fun _ =>
  bindM (if_set (json o) (to_json C g)) (fun _ =>
  bindM (if_set (given (pickle o)) (to_pickle C g)) (fun _ =>
  bindM (if_set (cx o) (to_cx C g)) (fun _ =>
  bindM (if_set (bel o) (to_bel C g)) (fun _ =>
  bindM (when (store_default o) (to_database C g None)) (fun _ =>
  bindM (if_set (given (store_connection o))
           (fun c => to_database C g (Some c))) (fun _ =>
  bindM (if_set (given (neo o)) (upload o g)) (fun _ =>
  ret g))))))))))).

(** [convert(...)]; the last statement is
    [sys.exit(0 if 0 == len(g.warnings) else 1)]. *)
Definition convert (o : Options) (w : World) : World * outcome :=
  match run o w with
  | (w', Ok g) =>
      (w', Exit (if Nat.eqb 0 (length (warnings g)) then 0 else 1))
  | (w', Raise e) => (w', Uncaught e)
  end.

End Convert.

End Cli.

(* ================================================================= *)
(** ** Predicates the properties are stated with *)

(** An evidence record on which no subscript of [from_jgif] can fail: it
    has ['summary_text'] and ['experiment_context'], and its citation, if
    it has one, has both ['type'] and ['id'] or neither. *)
Definition complete_evidence (ev : Evidence) : bool :=
  match ev_summary_text ev, ev_experiment_context ev with
  | Some _, Some _ =>
      match ev_citation ev with
      | Some cit => Bool.eqb (Dict.mem "type" cit) (Dict.mem "id" cit)
      | None => true
      end
  | _, _ => false
  end.

Definition complete_edge (edge : Edge) : bool :=
  match edge_metadata edge with
  | Some md =>
      match md_evidences md with
      | Some evs => forallb complete_evidence evs
      | None => true
      end
  | None => true
  end.

(** A node record whose label, if any, the term parser accepts or
    rejects with one of the two exceptions the node loop handles. *)
Definition handled_node (G : Grammar) (node : Node) : bool :=
  match node_label node with
  | Some label =>
      match bel_term G label with
      | Ok _ => true
      | Raise (NakedNameWarning _) => true
      | Raise (ParseException _) => true
      | Raise _ => false
      end
  | None => true
  end.

Definition well_formed (G : Grammar) (d : JgifDocument) : bool :=
  match doc_graph d with
  | Some root =>
      match graph_nodes root, graph_edges root with
      | Some ns, Some es =>
          forallb (handled_node G) ns && forallb complete_edge es
      | _, _ => false
      end
  | None => false
  end.

(** The key [map_cbn] files a context entry under: stripped, lowercased,
    and renamed when [annotation_map] knows it. *)
Definition renamed_key (Py : Builtins) (key : string) : string :=
  let key := str_lower Py (str_strip Py key) in
  match Dict.get key annotation_map with
  | Some name => name
  | None => key
  end.

(** [items'] holds what [map_cbn] keeps of [items]: a key for each entry
    whose value is neither empty nor empty once stripped, under its new
    name, and no empty value. *)
Definition rewritten (Py : Builtins) (items items' : ExperimentContext)
    : Prop :=
  (forall k', In k' (Dict.keys items') <->
              exists k v, In (k, Some v) items /\ v <> "" /\
                          str_strip Py v <> "" /\
                          k' = renamed_key Py k) /\
  Forall (fun kv => exists v, snd kv = Some v /\ v <> "") items'.

(** Two documents that differ at most in the experiment contexts of their
    evidence records, each pair of contexts being related by [R]. *)
Section Frame.
Variable R : ExperimentContext -> ExperimentContext -> Prop.

Definition evidence_frame (ev ev' : Evidence) : Prop :=
  ev_citation ev' = ev_citation ev /\
  ev_summary_text ev' = ev_summary_text ev /\
  ev_other ev' = ev_other ev /\
  match ev_experiment_context ev, ev_experiment_context ev' with
  | None, None => True
  | Some items, Some items' => R items items'
  | _, _ => False
  end.

Definition metadata_frame (m m' : option EdgeMetadata) : Prop :=
  match m, m' with
  | None, None => True
  | Some md, Some md' =>
      md_other md' = md_other md /\
      match md_evidences md, md_evidences md' with
      | None, None => True
      | Some evs, Some evs' => Forall2 evidence_frame evs evs'
      | _, _ => False
      end
  | _, _ => False
  end.

Definition edge_frame (e e' : Edge) : Prop :=
  edge_source e' = edge_source e /\
  edge_target e' = edge_target e /\
  edge_relation e' = edge_relation e /\
  edge_label e' = edge_label e /\
  metadata_frame (edge_metadata e) (edge_metadata e').

Definition document_frame (d d' : JgifDocument) : Prop :=
  match doc_graph d, doc_graph d' with
  | None, None => True
  | Some root, Some root' =>
      graph_label root' = graph_label root /\
      graph_metadata root' = graph_metadata root /\
      graph_nodes root' = graph_nodes root /\
      match graph_edges root, graph_edges root' with
      | None, None => True
      | Some es, Some es' => Forall2 edge_frame es es'
      | _, _ => False
      end
  | _, _ => False
  end.

End Frame.

(** The context relation of a call that may have raised midway: a context
    is rewritten or still untouched. *)
Definition rewritten_or_same (Py : Builtins)
    (items items' : ExperimentContext) : Prop :=
  items' = items \/ rewritten Py items items'.

(** A context entry on which [map_cbn] looks up an unknown species. *)
Definition unknown_species (Py : Builtins) (entry : string * option string)
    : Prop :=
  exists v,
    snd entry = Some v /\
    str_lower Py (str_strip Py (fst entry)) = "species_common_name" /\
    v <> "" /\ str_strip Py v <> "" /\
    Dict.get (str_lower Py (str_strip Py v)) species_map = None.

(** [ev] is an evidence record of an edge of [d]. *)
Definition evidence_of (d : JgifDocument) (ev : Evidence) : Prop :=
  exists root es edge md evs,
    doc_graph d = Some root /\ graph_edges root = Some es /\
    In edge es /\ edge_metadata edge = Some md /\
    md_evidences md = Some evs /\ In ev evs.

(** The terms the labels of [ns] parse to. *)
Definition parsed_label (G : Grammar) (ns : list Node) (t : term) : Prop :=
  exists node label,
    In node ns /\ node_label node = Some label /\ bel_term G label = Ok t.

(** Collaborators for evaluating [convert]: the world is the list of the
    calls made, the loader reads the graph from the adapter above. *)
Module CliDemo.

Definition World : Type := list string.

Definition log_call {A : Type} (call : string) (a : A)
    : Cli.M World A :=
  fun w => (w ++ [call], Ok a).

Definition collaborators (g : BELGraph)
    : Cli.Collaborators World string unit unit :=
  {| Cli.CacheManager := fun _ => log_call "CacheManager" tt;
     Cli.from_database := fun _ _ => log_call "from_database" g;
     Cli.from_url := fun _ _ _ _ _ => log_call "from_url" g;
     Cli.from_lines := fun _ _ _ _ _ => log_call "from_lines" g;
     Cli.to_csv := fun _ _ => log_call "to_csv" tt;
     Cli.to_graphml := fun _ _ => log_call "to_graphml" tt;
     Cli.to_json := fun _ _ => log_call "to_json" tt;
     Cli.to_pickle := fun _ _ => log_call "to_pickle" tt;
     Cli.to_cx := fun _ _ => log_call "to_cx" tt;
     Cli.to_bel := fun _ _ => log_call "to_bel" tt;
     Cli.to_database := fun _ _ => log_call "to_database" tt;
     Cli.py2neo_Graph := fun _ => log_call "py2neo.Graph" tt;
     Cli.neo_count := fun _ => log_call "neo_graph.data" (Some 0);
     Cli.to_neo4j := fun _ _ _ => log_call "to_neo4j" tt |}.

Definition fail_call {A : Type} (call : string) (e : exn)
    : Cli.M World A :=
  fun w => (w ++ [call], Raise e).

(** The same collaborators, with a [to_csv] that cannot write its
    file. *)
Definition failing_collaborators (g : BELGraph)
    : Cli.Collaborators World string unit unit :=
  {| Cli.CacheManager := fun _ => log_call "CacheManager" tt;
     Cli.from_database := fun _ _ => log_call "from_database" g;
     Cli.from_url := fun _ _ _ _ _ => log_call "from_url" g;
     Cli.from_lines := fun _ _ _ _ _ => log_call "from_lines" g;
     Cli.to_csv :=
       fun _ _ => fail_call "to_csv" (OtherException "IOError");
     Cli.to_graphml := fun _ _ => log_call "to_graphml" tt;
     Cli.to_json := fun _ _ => log_call "to_json" tt;
     Cli.to_pickle := fun _ _ => log_call "to_pickle" tt;
     Cli.to_cx := fun _ _ => log_call "to_cx" tt;
     Cli.to_bel := fun _ _ => log_call "to_bel" tt;
     Cli.to_database := fun _ _ => log_call "to_database" tt;
     Cli.py2neo_Graph := fun _ => log_call "py2neo.Graph" tt;
     Cli.neo_count := fun _ => log_call "neo_graph.data" (Some 0);
     Cli.to_neo4j := fun _ _ _ => log_call "to_neo4j" tt |}.

Definition options : Cli.Options string :=
  {| Cli.path := "stdin"; Cli.url := None; Cli.connection := None;
     Cli.database_name := None; Cli.csv := Some "out.csv";
     Cli.graphml := None; Cli.json := None; Cli.pickle := Some "";
     Cli.cx := None; Cli.bel := Some "out.bel"; Cli.neo := None;
     Cli.neo_context := None; Cli.store_default := false;
     Cli.store_connection := None; Cli.allow_naked_names := false;
     Cli.allow_nested := false; Cli.no_citation_clearing := false;
     Cli.verbose := 0 |}.

Definition clean_graph : BELGraph :=
  with_nodes empty_graph ["p(HGNC:A)"].

Definition graph_with_warning : BELGraph :=
  {| name := None; document := []; namespace_url := [];
     annotation_url := []; nodes := []; edges := [];
     warnings := [ {| warning_line := 3; warning_text := "p(EGFR)";
                      warning_kind := NakedNameWarning "EGFR" |} ] |}.

End CliDemo.

(* ================================================================= *)
(** ** Documents the properties are evaluated on *)

Module Samples.
Import Demo.

Definition translocation : Edge :=
  edge_record "translocates" "p(HGNC:A) translocates p(HGNC:B)" None.

Definition component : Edge :=
  edge_record "hasComponent"
    "complex(p(HGNC:A),p(HGNC:B)) hasComponent p(HGNC:A)" None.

Definition cited (text : string) : Evidence :=
  evidence_record (Some (pubmed "12345")) (Some text)
    (Some [("Species", Some "9606")]).

Definition uncited : Evidence :=
  evidence_record None (Some "A raises B in lung tissue.")
    (Some [("Tissue", Some "lung")]).

Definition no_summary : Evidence :=
  evidence_record (Some (pubmed "12345")) None (Some []).

Definition increase (evs : list Evidence) : Edge :=
  edge_record "increases" "p(HGNC:A) increases p(HGNC:B)" (Some evs).

Definition decrease (evs : list Evidence) : Edge :=
  edge_record "decreases" "p(HGNC:B) decreases p(HGNC:C)" (Some evs).

Definition start : ParserState := new_parser empty_graph.

Definition titled : JgifDocument :=
  {| doc_graph :=
       Some {| graph_label := Some "Apoptosis";
               graph_metadata :=
                 Some [("name", "Apoptosis"); ("species", "human");
                       ("version", "1.0")];
               graph_nodes := Some [];
               graph_edges := Some [] |} |}.

(** A document of the CBN with one edge and one evidence record. *)
Definition cbn (items : ExperimentContext) : JgifDocument :=
  {| doc_graph :=
       Some {| graph_label := None;
               graph_metadata := Some [];
               graph_nodes := Some [];
               graph_edges :=
                 Some [increase
                         [evidence_record (Some (pubmed "12345"))
                            (Some "A raises B.") (Some items)]] |} |}.

Definition titled_graph : BELGraph :=
  {| name := Some "Apoptosis";
     document := [("name", "Apoptosis"); ("version", "1.0")];
     namespace_url := []; annotation_url := [];
     nodes := []; edges := []; warnings := [] |}.

End Samples.

(* ================================================================= *)
(** ** The functions on small inputs *)

Example strip_lower_example :
  AsciiText.lower (AsciiText.strip "  Species_Common_Name ")
  = "species_common_name".
Proof. reflexivity. Qed.

Example strip_inner_blanks_example : AsciiText.strip "
 A raises  B.  " = "A raises  B.".
Proof. reflexivity. Qed.

Example dict_set_example :
  Dict.set "b" 3 (Dict.set "a" 2 (Dict.set "b" 1 [])) = [("b", 3); ("a", 2)].
Proof. reflexivity. Qed.

Example map_context_example :
  map_context Demo.builtins
    [(" Species_Common_Name", Some " Human "); ("Tissue ", Some "lung");
     ("cell", Some "   "); ("disease", None); ("Dose", Some "5 mg")] []
  = Ok [("Species", Some "9606"); ("Tissue", Some "lung");
        ("dose", Some "5 mg")].
Proof. reflexivity. Qed.

Example get_citation_example :
  get_citation Demo.builtins Demo.constants
    (Demo.evidence_record
       (Some [("type", " PubMed"); ("id", "12345 "); ("name", "J Biol")])
       None None)
  = Ok [("type", "PubMed"); ("reference", "12345"); ("name", "J Biol")].
Proof. reflexivity. Qed.

Example get_citation_without_type_example :
  get_citation Demo.builtins Demo.constants
    (Demo.evidence_record (Some [("id", "12345")]) None None)
  = Raise (KeyError "type").
Proof. reflexivity. Qed.

Example from_jgif_example :
  Demo.from_jgif
    (Demo.jgif
       [Demo.node_record "p(HGNC:A)"; Demo.node_record "p(EGFR)"]
       [Samples.component;
        Samples.increase [Samples.uncited; Samples.cited " A raises B. "]])
  = Ok {| name := None; document := []; namespace_url := [];
          annotation_url := [];
          nodes := ["p(HGNC:A)"; "p(HGNC:B)"];
          edges :=
            [ {| source := "p(HGNC:A)"; target := "p(HGNC:B)";
                 relation := "increases";
                 context :=
                   {| citation := [("type", "PubMed"); ("reference", "12345")];
                      evidence := Some "A raises B.";
                      annotations := [("Species", Some "9606")] |} |} ];
          warnings := [] |}.
Proof. reflexivity. Qed.

(** The same statement under the same context is added once. *)
Example from_jgif_idempotent_example :
  match Demo.from_jgif
          (Demo.jgif []
             [Samples.increase
                [Samples.cited "A raises B."; Samples.cited "A raises B."]])
  with
  | Ok g => length (edges g) = 1
  | Raise _ => False
  end.
Proof. reflexivity. Qed.

(* ================================================================= *)
(** ** Properties of [from_jgif] *)

(** An edge record with an unqualified relation goes through
    [pass  # FIXME?]: nothing is parsed and the parser is left as it
    was. *)
Lemma unqualified_relation_adds_nothing (Py : Builtins) (K : Constants)
    (G : Grammar) (i : nat) (edge : Edge) (st : ParserState) :
  is_unqualified K (edge_relation edge) = true ->
  process_edge Py K G i edge st = Ok st.
Proof.
  intro H. unfold process_edge. rewrite H.
  destruct (is_legacy (edge_relation edge)); [reflexivity |].
  now destruct (edge_metadata edge).
Qed.

(** C1, counterexample. The record [p(HGNC:A) translocates p(HGNC:B)]
    has an unqualified relation and a statement the grammar parses, and
    carries no citation and no evidence; [from_jgif] returns a graph
    without any edge. *)
Lemma translocates_edge_not_added :
  is_unqualified Demo.constants (edge_relation Samples.translocation) = true /\
  language Demo.grammar "p(HGNC:A) translocates p(HGNC:B)" 0
    = Ok [("p(HGNC:A)", "translocates", "p(HGNC:B)")] /\
  match Demo.from_jgif (Demo.jgif [] [Samples.translocation]) with
  | Ok g => edges g = []
  | Raise _ => False
  end.
Proof. repeat split. Qed.

(** C1, as amended. An edge record whose relation is ['actsIn'] or
    ['translocates'] is skipped before anything of it is read: it adds no
    edge and leaves the parser untouched, whatever citation and evidence
    it carries, and the loop goes on with the next record. *)
Theorem legacy_relation_skipped (Py : Builtins) (K : Constants) (G : Grammar)
    (i : nat) (edge : Edge) (rest : list Edge) (st : ParserState) :
  edge_relation edge = Some "actsIn" \/
  edge_relation edge = Some "translocates" ->
  process_edge Py K G i edge st = Ok st /\
  process_edges Py K G i (edge :: rest) st = process_edges Py K G (S i) rest st.
Proof.
  intro H.
  assert (E : process_edge Py K G i edge st = Ok st).
  { unfold process_edge. now destruct H as [-> | ->]. }
  split; [exact E |]. simpl. now rewrite E.
Qed.

Lemma legacy_relation_skipped_witness :
  process_edge Demo.builtins Demo.constants Demo.grammar 0
    (Demo.edge_record "translocates" "p(HGNC:A) translocates p(HGNC:B)"
       (Some [Samples.cited "A moves B."])) Samples.start
    = Ok Samples.start /\
  process_edges Demo.builtins Demo.constants Demo.grammar 0
    [Demo.edge_record "translocates" "p(HGNC:A) translocates p(HGNC:B)"
       (Some [Samples.cited "A moves B."]);
     Samples.increase [Samples.cited "A raises B."]] Samples.start
    = process_edges Demo.builtins Demo.constants Demo.grammar 1
        [Samples.increase [Samples.cited "A raises B."]] Samples.start.
Proof.
  apply (legacy_relation_skipped Demo.builtins Demo.constants Demo.grammar 0
           (Demo.edge_record "translocates"
              "p(HGNC:A) translocates p(HGNC:B)"
              (Some [Samples.cited "A moves B."]))
           [Samples.increase [Samples.cited "A raises B."]] Samples.start).
  right. reflexivity.
Defined.

(** C3, counterexample. An [increases] record whose only evidence has no
    citation: the statement is dropped, and the warning list of the graph
    stays empty, so no [MissingContext] warning is recorded. *)
Lemma uncited_evidence_leaves_no_warning :
  is_unqualified Demo.constants
    (edge_relation (Samples.increase [Samples.uncited])) = false /\
  match Demo.from_jgif (Demo.jgif [] [Samples.increase [Samples.uncited]])
  with
  | Ok g => edges g = [] /\ warnings g = []
  | Raise _ => False
  end.
Proof. repeat split. Qed.

(** C3, as amended. An evidence record that has no citation, or an empty
    one, or one with neither ['type'] nor ['id'], or whose summary text is
    blank or the placeholder, is passed over in silence: the parser, and
    with it the graph and its warnings, stays as it was, and the loop goes
    on with the next evidence record. *)
Theorem evidence_without_context_skipped (Py : Builtins) (K : Constants)
    (G : Grammar) (lbl : option string) (i : nat) (ev : Evidence)
    (rest : list Evidence) (st : ParserState) :
  ev_citation ev = None \/
  ev_citation ev = Some [] \/
  (exists cit, ev_citation ev = Some cit /\
               Dict.mem "type" cit = false /\ Dict.mem "id" cit = false) \/
  (exists text, ev_summary_text ev = Some text /\
                (str_strip Py text = "" \/
                 str_strip Py text = placeholder_evidence)) ->
  process_evidence Py K G lbl i ev st = Ok st /\
  process_evidences Py K G lbl i (ev :: rest) st
    = process_evidences Py K G lbl i rest st.
Proof.
  intro H.
  assert (E : process_evidence Py K G lbl i ev st = Ok st).
  { unfold process_evidence.
    destruct H as [-> | [-> | [(cit & -> & Ht & Hi) | (text & Ht & Hs)]]];
      try reflexivity.
    - rewrite Ht, Hi. now destruct (negb (Dict.nonempty cit)).
    - destruct (ev_citation ev) as [cit |]; [| reflexivity].
      destruct (negb (Dict.nonempty cit)); [reflexivity |].
      destruct (negb (Dict.mem "type" cit) && negb (Dict.mem "id" cit));
        [reflexivity |].
      rewrite Ht. cbn [bind subscript].
      destruct Hs as [-> | ->]; [reflexivity |].
      rewrite String.eqb_refl. now rewrite orb_true_r. }
  split; [exact E |]. simpl. now rewrite E.
Qed.

Lemma evidence_without_context_skipped_witness :
  process_evidence Demo.builtins Demo.constants Demo.grammar
    (Some "p(HGNC:A) increases p(HGNC:B)") 0 Samples.uncited Samples.start
    = Ok Samples.start /\
  process_evidences Demo.builtins Demo.constants Demo.grammar
    (Some "p(HGNC:A) increases p(HGNC:B)") 0
    [Samples.uncited; Samples.cited "A raises B."] Samples.start
    = process_evidences Demo.builtins Demo.constants Demo.grammar
        (Some "p(HGNC:A) increases p(HGNC:B)") 0
        [Samples.cited "A raises B."] Samples.start.
Proof.
  apply (evidence_without_context_skipped Demo.builtins Demo.constants
           Demo.grammar
           (Some "p(HGNC:A) increases p(HGNC:B)") 0 Samples.uncited
           [Samples.cited "A raises B."] Samples.start).
  left. reflexivity.
Defined.

(** C4. Every edge of the graph [from_jgif] returns, all of which come
    from the qualified-relation path, carries a citation that is not
    empty (it has its type and its reference) and an evidence text that is
    neither empty nor the placeholder. *)
Theorem qualified_edges_have_provenance (Py : Builtins) (K : Constants)
    (G : Grammar) (d : JgifDocument) (g : BELGraph) (x : BELEdge) :
  from_jgif Py K G d = Ok g ->
  In x (edges g) ->
  citation (context x) <> [] /\
  Dict.mem (CITATION_TYPE K) (citation (context x)) = true /\
  Dict.mem (CITATION_REFERENCE K) (citation (context x)) = true /\
  exists text,
    evidence (context x) = Some text /\ text <> "" /\
    text <> placeholder_evidence.
Proof.
  intros Hg Hx.
  apply from_jgif_Ok in Hg.
  destruct Hg as (root & ns & es & st1 & st2 & _ & _ & _ & Hn & He & ->).
  apply process_nodes_frame in Hn. destruct Hn as (_ & Hedges & _).
  apply process_edges_extends in He. destruct He as [_ He].
  destruct (He x Hx) as [Hold | Hp]; [| exact Hp].
  rewrite Hedges in Hold. simpl in Hold.
  unfold init_graph in Hold.
  destruct (graph_label root), (graph_metadata root); contradiction.
Qed.

Lemma qualified_edges_have_provenance_witness :
  citation (record_context Demo.builtins
              [("type", "PubMed"); ("reference", "12345")]
              "A raises B." [("Species", Some "9606")]) <> [] /\
  Dict.mem "type" [("type", "PubMed"); ("reference", "12345")] = true /\
  Dict.mem "reference" [("type", "PubMed"); ("reference", "12345")] = true /\
  exists text,
    Some "A raises B." = Some text /\ text <> "" /\
    text <> placeholder_evidence.
Proof.
  apply (qualified_edges_have_provenance Demo.builtins Demo.constants
           Demo.grammar
           (Demo.jgif [] [Samples.increase [Samples.cited "A raises B."]])
           (g := add_edge
                   {| source := "p(HGNC:A)"; target := "p(HGNC:B)";
                      relation := "increases";
                      context :=
                        record_context Demo.builtins
                          [("type", "PubMed"); ("reference", "12345")]
                          "A raises B." [("Species", Some "9606")] |}
                   empty_graph)
           {| source := "p(HGNC:A)"; target := "p(HGNC:B)";
              relation := "increases";
              context :=
                record_context Demo.builtins
                  [("type", "PubMed"); ("reference", "12345")]
                  "A raises B." [("Species", Some "9606")] |}).
  - reflexivity.
  - simpl. left. reflexivity.
Defined.

(** C6. When every label is one the term parser accepts or rejects with
    [NakedNameWarning] or [ParseException], the node loop runs to its end
    and the nodes of the graph are then the ones it had plus the term of
    every label that parses: a record without a label or with a rejected
    label is passed over and the records after it are still registered.
    Registration is node-only: edges and warnings are as before. *)
Theorem node_labels_registered (G : Grammar) (ns : list Node)
    (st : ParserState) :
  forallb (handled_node G) ns = true ->
  exists st',
    process_nodes G ns st = Ok st' /\
    (forall t, In t (nodes (graph st')) <->
               In t (nodes (graph st)) \/ parsed_label G ns t) /\
    edges (graph st') = edges (graph st) /\
    warnings (graph st') = warnings (graph st).
Proof.
  revert st. induction ns as [|node ns IH]; intros st Hall.
  - exists st. split; [reflexivity |]. split; [| split; reflexivity].
    intro t. split; [auto |].
    intros [H | (node & label & [] & _)]. exact H.
  - simpl in Hall. apply andb_true_iff in Hall. destruct Hall as [Hn Hns].
    assert (Hstep : exists st1,
               process_node G node st = Ok st1 /\
               (forall t, In t (nodes (graph st1)) <->
                          In t (nodes (graph st)) \/
                          exists label, node_label node = Some label /\
                                        bel_term G label = Ok t)).
    { unfold process_node, parse_term. unfold handled_node in Hn.
      destruct (node_label node) as [label |].
      - destruct (bel_term G label) as [t0 | e] eqn:E; cbn [bind].
        + eexists. split; [reflexivity |]. intro t. simpl.
          rewrite register_node_nodes. split.
          * intros [H | ->]; [now left | right]. now exists label.
          * intros [H | (l & Hl & Ht)]; [now left | right].
            injection Hl as <-. congruence.
        + destruct e; try discriminate; exists st;
            (split; [reflexivity |]); intro t; split; auto;
            intros [H | (l & Hl & Ht)]; auto;
            injection Hl as <-; congruence.
      - exists st. split; [reflexivity |]. intro t. split; [auto |].
        intros [H | (l & Hl & _)]; [exact H | discriminate]. }
    destruct Hstep as (st1 & E1 & Hnodes1).
    destruct (IH st1 Hns) as (st' & E' & Hnodes' & Hedges' & Hwarn').
    exists st'. simpl. rewrite E1. cbn [bind].
    split; [exact E' |].
    apply process_node_frame in E1. destruct E1 as ((_ & _ & Hw) & He & _).
    split; [| split; congruence].
    intro t. rewrite Hnodes', Hnodes1. unfold parsed_label. split.
    + intros [[H | (l & Hl & Ht)] | (n & l & Hin & Hl & Ht)].
      * now left.
      * right. exists node, l. simpl. auto.
      * right. exists n, l. simpl. auto.
    + intros [H | (n & l & [<- | Hin] & Hl & Ht)].
      * left. now left.
      * left. right. now exists l.
      * right. now exists n, l.
Qed.

Lemma node_labels_registered_witness :
  exists st',
    process_nodes Demo.grammar
      [Demo.node_record "p(HGNC:A)"; Demo.node_record "p(EGFR)";
       {| node_id := Some "n3"; node_label := None |};
       Demo.node_record "a(CHEBI:water"; Demo.node_record "p(HGNC:B)"]
      Samples.start = Ok st' /\
    (forall t, In t (nodes (graph st')) <->
               In t (nodes (graph Samples.start)) \/
               parsed_label Demo.grammar
                 [Demo.node_record "p(HGNC:A)"; Demo.node_record "p(EGFR)";
                  {| node_id := Some "n3"; node_label := None |};
                  Demo.node_record "a(CHEBI:water";
                  Demo.node_record "p(HGNC:B)"] t) /\
    edges (graph st') = edges (graph Samples.start) /\
    warnings (graph st') = warnings (graph Samples.start).
Proof.
  apply (node_labels_registered Demo.grammar
           [Demo.node_record "p(HGNC:A)"; Demo.node_record "p(EGFR)";
            {| node_id := Some "n3"; node_label := None |};
            Demo.node_record "a(CHEBI:water"; Demo.node_record "p(HGNC:B)"]
           Samples.start).
  reflexivity.
Defined.

Lemma insert_metadata_get (keys : list string) (metadata doc : dict string)
    (k : string) :
  Dict.get k (insert_metadata keys metadata doc) =
  if string_mem k keys then
    match Dict.get k metadata with
    | Some v => Some v
    | None => Dict.get k doc
    end
  else Dict.get k doc.
Proof.
  revert doc. induction keys as [|key keys IH]; intro doc; simpl.
  - reflexivity.
  - destruct (String.eqb k key) eqn:E; simpl.
    + apply String.eqb_eq in E. subst key.
      destruct (Dict.get k metadata) as [v |] eqn:Ek.
      * rewrite IH, Dict.get_set_same.
        now destruct (string_mem k keys).
      * rewrite IH. now destruct (string_mem k keys).
    + apply String.eqb_neq in E.
      destruct (Dict.get key metadata) as [v |]; rewrite IH;
        [rewrite Dict.get_set_other by assumption |]; reflexivity.
Qed.

(** C10. The document of the graph [from_jgif] returns binds a key
    exactly when the key is in [METADATA_INSERT_KEYS] and the JGIF
    metadata binds it, and to the same value; every other metadata key is
    left out. The name of the graph is the ['label'] of the JGIF graph,
    and is not set when there is none. *)
Theorem from_jgif_document_and_name (Py : Builtins) (K : Constants)
    (G : Grammar) (d : JgifDocument) (g : BELGraph) :
  from_jgif Py K G d = Ok g ->
  exists root,
    doc_graph d = Some root /\
    name g = graph_label root /\
    forall k,
      Dict.get k (document g) =
      if string_mem k (METADATA_INSERT_KEYS K) then
        match graph_metadata root with
        | Some metadata => Dict.get k metadata
        | None => None
        end
      else None.
Proof.
  intro Hg. apply from_jgif_Ok in Hg.
  destruct Hg as (root & ns & es & st1 & st2 & Hr & _ & _ & Hn & He & ->).
  exists root. split; [exact Hr |].
  apply process_nodes_frame in Hn. destruct Hn as ((Hn1 & Hd1 & _) & _).
  apply process_edges_extends in He. destruct He as [(Hn2 & Hd2 & _) _].
  rewrite Hn2, Hn1, Hd2, Hd1. simpl. unfold init_graph. split.
  - destruct (graph_label root), (graph_metadata root); reflexivity.
  - intro k.
    destruct (graph_metadata root) as [metadata |].
    + assert (E : forall g0, document g0 = [] ->
                Dict.get k (document
                  (with_document g0
                     (insert_metadata (METADATA_INSERT_KEYS K) metadata
                        (document g0)))) =
                if string_mem k (METADATA_INSERT_KEYS K)
                then Dict.get k metadata else None).
      { intros g0 H0. simpl. rewrite insert_metadata_get, H0. simpl.
        destruct (string_mem k (METADATA_INSERT_KEYS K)); [| reflexivity].
        now destruct (Dict.get k metadata). }
      destruct (graph_label root); apply E; reflexivity.
    + destruct (graph_label root); simpl;
        now destruct (string_mem k (METADATA_INSERT_KEYS K)).
Qed.

Lemma from_jgif_document_and_name_witness :
  exists root,
    doc_graph Samples.titled = Some root /\
    name Samples.titled_graph = graph_label root /\
    forall k,
      Dict.get k (document Samples.titled_graph) =
      if string_mem k (METADATA_INSERT_KEYS Demo.constants) then
        match graph_metadata root with
        | Some metadata => Dict.get k metadata
        | None => None
        end
      else None.
Proof.
  apply (from_jgif_document_and_name Demo.builtins Demo.constants Demo.grammar
           Samples.titled (g := Samples.titled_graph)).
  reflexivity.
Defined.

Section Totality.
Variable Py : Builtins.
Variable K : Constants.
Variable G : Grammar.

Lemma process_nodes_total (ns : list Node) (st : ParserState) :
  forallb (handled_node G) ns = true ->
  exists st', process_nodes G ns st = Ok st'.
Proof.
  revert st. induction ns as [|node ns IH]; intros st Hall; simpl.
  - now exists st.
  - simpl in Hall. apply andb_true_iff in Hall. destruct Hall as [Hn Hns].
    assert (E : exists st1, process_node G node st = Ok st1).
    { unfold process_node, parse_term. unfold handled_node in Hn.
      destruct (node_label node) as [label |]; [| now exists st].
      destruct (bel_term G label) as [t | e]; cbn [bind];
        [eexists; reflexivity |].
      destruct e; try discriminate; now exists st. }
    destruct E as (st1 & ->). cbn [bind]. now apply IH.
Qed.

Lemma process_evidence_total (lbl : option string) (i : nat)
    (ev : Evidence) (st : ParserState) :
  complete_evidence ev = true ->
  exists st', process_evidence Py K G lbl i ev st = Ok st'.
Proof.
  unfold complete_evidence, process_evidence, load_context.
  destruct (ev_summary_text ev) as [text |]; [| discriminate].
  destruct (ev_experiment_context ev) as [ctx |]; [| discriminate].
  destruct (ev_citation ev) as [cit |] eqn:Ec; [| now exists st].
  intro Hboth. apply eqb_prop in Hboth.
  destruct (negb (Dict.nonempty cit)); [now exists st |].
  assert (Hcit : Dict.mem "type" cit = true ->
                 exists c, get_citation Py K ev = Ok c).
  { unfold get_citation. rewrite Ec. cbn [bind subscript].
    intro Ht. rewrite Ht in Hboth. unfold Dict.mem in Ht, Hboth.
    destruct (Dict.get "type" cit) as [ty |]; [| discriminate].
    destruct (Dict.get "id" cit) as [id |]; [| discriminate].
    cbn [bind subscript].
    destruct (Dict.get "name" cit); eexists; reflexivity. }
  destruct (Dict.mem "type" cit); cbn [negb andb].
  - destruct (Hcit eq_refl) as (c & ->). cbn [bind subscript].
    destruct (negb (PyStr.nonempty (str_strip Py text))
              || String.eqb (str_strip Py text) placeholder_evidence);
      eexists; reflexivity.
  - rewrite <- Hboth. now exists st.
Qed.

Lemma process_evidences_total (lbl : option string) (i : nat)
    (evs : list Evidence) (st : ParserState) :
  forallb complete_evidence evs = true ->
  exists st', process_evidences Py K G lbl i evs st = Ok st'.
Proof.
  revert st. induction evs as [|ev evs IH]; intros st Hall; simpl.
  - now exists st.
  - simpl in Hall. apply andb_true_iff in Hall. destruct Hall as [Hev Hevs].
    destruct (process_evidence_total lbl i ev st Hev) as (st1 & ->).
    cbn [bind]. now apply IH.
Qed.

Lemma process_edges_total (i : nat) (es : list Edge) (st : ParserState) :
  forallb complete_edge es = true ->
  exists st', process_edges Py K G i es st = Ok st'.
Proof.
  revert i st. induction es as [|edge es IH]; intros i st Hall; simpl.
  - now exists st.
  - simpl in Hall. apply andb_true_iff in Hall. destruct Hall as [He Hes].
    assert (E : exists st1, process_edge Py K G i edge st = Ok st1).
    { unfold process_edge. unfold complete_edge in He.
      destruct (is_legacy (edge_relation edge)); [now exists st |].
      destruct (edge_metadata edge) as [md |]; [| now exists st].
      destruct (is_unqualified K (edge_relation edge)); [now exists st |].
      destruct (md_evidences md) as [[| ev evs] |]; try now exists st.
      now apply process_evidences_total. }
    destruct E as (st1 & ->). cbn [bind]. now apply IH.
Qed.

End Totality.

(** C2, counterexample. An evidence record with a citation and no
    ['summary_text']: the [KeyError] of the subscript is raised outside
    any [try], leaves [from_jgif], and no graph is returned. *)
Lemma missing_summary_text_escapes :
  Demo.from_jgif (Demo.jgif [] [Samples.increase [Samples.no_summary]])
  = Raise (KeyError "summary_text").
Proof. reflexivity. Qed.

(* ================================================================= *)
(** ** Properties of [map_cbn] *)

(** The two tests of [map_cbn] on a value: [if not value] before the
    strip and again after it. *)
Definition kept (Py : Builtins) (v : string) : bool :=
  PyStr.nonempty v && PyStr.nonempty (str_strip Py v).

Lemma kept_true (Py : Builtins) (v : string) :
  kept Py v = true <-> v <> "" /\ str_strip Py v <> "".
Proof.
  unfold kept. rewrite andb_true_iff, !PyStr.nonempty_true. reflexivity.
Qed.

Lemma kept_false (Py : Builtins) (v : string) :
  kept Py v = false -> ~ (v <> "" /\ str_strip Py v <> "").
Proof.
  intros H Hk. apply kept_true in Hk. congruence.
Qed.

Lemma species_code_nonempty (species code : string) :
  Dict.get species species_map = Some code -> code <> "".
Proof.
  unfold species_map. simpl.
  destruct (String.eqb species "human");
    [intro H; injection H as <-; discriminate |].
  destruct (String.eqb species "rat");
    [intro H; injection H as <-; discriminate |].
  destruct (String.eqb species "mouse");
    [intro H; injection H as <-; discriminate | discriminate].
Qed.

(** One turn of the loop of [map_context], case by case. *)
Lemma map_context_step (Py : Builtins) (key : string) (value : option string)
    (rest acc : ExperimentContext) :
  match value with
  | None => map_context Py ((key, value) :: rest) acc = map_context Py rest acc
  | Some v =>
      if kept Py v then
        if String.eqb (str_lower Py (str_strip Py key)) "species_common_name"
        then
          match Dict.get (str_lower Py (str_strip Py v)) species_map with
          | Some code =>
              map_context Py ((key, value) :: rest) acc
              = map_context Py rest
                  (Dict.set (renamed_key Py key) (Some code) acc)
          | None =>
              map_context Py ((key, value) :: rest) acc
              = Raise (KeyError (str_lower Py (str_strip Py v)))
          end
        else
          map_context Py ((key, value) :: rest) acc
          = map_context Py rest
              (Dict.set (renamed_key Py key) (Some (str_strip Py v)) acc)
      else map_context Py ((key, value) :: rest) acc = map_context Py rest acc
  end.
Proof.
  destruct value as [v |]; [| reflexivity].
  cbn [map_context]. unfold kept.
  destruct (PyStr.nonempty v) eqn:Hv; cbn [negb andb]; [| reflexivity].
  destruct (PyStr.nonempty (str_strip Py v)); cbn [negb]; [| reflexivity].
  unfold renamed_key.
  destruct (String.eqb (str_lower Py (str_strip Py key))
              "species_common_name") eqn:Hk.
  - apply String.eqb_eq in Hk. rewrite Hk.
    destruct (Dict.get (str_lower Py (str_strip Py v)) species_map);
      reflexivity.
  - destruct (Dict.get (str_lower Py (str_strip Py key)) annotation_map);
      reflexivity.
Qed.

Definition nonblank (kv : string * option string) : Prop :=
  exists v, snd kv = Some v /\ v <> "".

Lemma map_context_keys (Py : Builtins) (items acc res : ExperimentContext) :
  map_context Py items acc = Ok res ->
  (forall k', In k' (Dict.keys res) <->
              In k' (Dict.keys acc) \/
              exists k v, In (k, Some v) items /\ v <> "" /\
                          str_strip Py v <> "" /\
                          k' = renamed_key Py k) /\
  (Forall nonblank acc -> Forall nonblank res).
Proof.
  revert acc. induction items as [|[key value] rest IH]; intros acc.
  - simpl. intro H. apply Ok_inj in H. subst res. split; [| auto].
    intro k'. split; [auto |]. intros [H | (k & v & [] & _)]. exact H.
  - pose proof (map_context_step Py key value rest acc) as Hstep.
    assert (Hskip :
      map_context Py ((key, value) :: rest) acc = map_context Py rest acc ->
      (forall v, value = Some v -> ~ (v <> "" /\ str_strip Py v <> "")) ->
      map_context Py ((key, value) :: rest) acc = Ok res ->
      (forall k', In k' (Dict.keys res) <->
                  In k' (Dict.keys acc) \/
                  exists k v, In (k, Some v) ((key, value) :: rest) /\
                              v <> "" /\ str_strip Py v <> "" /\
                              k' = renamed_key Py k) /\
      (Forall nonblank acc -> Forall nonblank res)).
    { intros E Hblank Hres. rewrite E in Hres.
      destruct (IH acc Hres) as [Hk Hv]. split; [| exact Hv].
      intro k'. rewrite Hk. split.
      - intros [H | (k & v & Hin & Hv0 & Hne & ->)]; [now left | right].
        exists k, v. simpl. auto.
      - intros [H | (k & v & [Heq | Hin] & Hv0 & Hne & ->)]; [now left | |].
        + injection Heq as _ Hval. exfalso. apply (Hblank v Hval). now split.
        + right. now exists k, v. }
    assert (Hkeep : forall v w,
      value = Some v -> v <> "" -> str_strip Py v <> "" -> w <> "" ->
      map_context Py ((key, value) :: rest) acc
      = map_context Py rest (Dict.set (renamed_key Py key) (Some w) acc) ->
      map_context Py ((key, value) :: rest) acc = Ok res ->
      (forall k', In k' (Dict.keys res) <->
                  In k' (Dict.keys acc) \/
                  exists k v, In (k, Some v) ((key, value) :: rest) /\
                              v <> "" /\ str_strip Py v <> "" /\
                              k' = renamed_key Py k) /\
      (Forall nonblank acc -> Forall nonblank res)).
    { intros v w Hval Hv0 Hne Hw E Hres. rewrite E in Hres.
      destruct (IH _ Hres) as [Hk Hv]. split.
      - intro k'. rewrite Hk, Dict.keys_set. split.
        + intros [[-> | H] | (k & v0 & Hin & Hv1 & Hne0 & ->)].
          * right. exists key, v. subst value. simpl. auto.
          * now left.
          * right. exists k, v0. simpl. auto.
        + intros [H | (k & v0 & [Heq | Hin] & Hv1 & Hne0 & ->)].
          * left. now right.
          * injection Heq as Hkey _. subst k. left. now left.
          * right. now exists k, v0.
      - intro Hacc. apply Hv.
        apply (Dict.values_set (fun o => exists v0, o = Some v0 /\ v0 <> "")).
        + now exists w.
        + exact Hacc. }
    destruct value as [v |].
    + destruct (kept Py v) eqn:Hv.
      * apply kept_true in Hv. destruct Hv as [Hv0 Hv].
        destruct (String.eqb (str_lower Py (str_strip Py key))
                    "species_common_name").
        -- destruct (Dict.get (str_lower Py (str_strip Py v)) species_map)
             as [code |] eqn:Hcode.
           ++ apply (Hkeep v code eq_refl Hv0 Hv); [| exact Hstep].
              eapply species_code_nonempty; eassumption.
           ++ rewrite Hstep. discriminate.
        -- apply (Hkeep v (str_strip Py v) eq_refl Hv0 Hv Hv Hstep).
      * apply kept_false in Hv. apply (Hskip Hstep).
        intros v0 H0. now injection H0 as <-.
    + apply (Hskip Hstep). discriminate.
Qed.

Lemma map_context_rewritten (Py : Builtins) (items items' : ExperimentContext)
    :
  map_context Py items [] = Ok items' -> rewritten Py items items'.
Proof.
  intro H. apply map_context_keys in H. destruct H as [Hk Hv]. split.
  - intro k'. rewrite Hk. simpl. intuition.
  - apply Hv. constructor.
Qed.

(** [map_context] raises nothing but [KeyError]. *)
Lemma map_context_raises (Py : Builtins) (items acc : ExperimentContext)
    (e : exn) :
  map_context Py items acc = Raise e -> exists key, e = KeyError key.
Proof.
  revert acc. induction items as [|[key value] rest IH]; intros acc.
  - discriminate.
  - pose proof (map_context_step Py key value rest acc) as Hstep.
    destruct value as [v |]; [| rewrite Hstep; apply IH].
    destruct (kept Py v); [| rewrite Hstep; apply IH].
    destruct (String.eqb (str_lower Py (str_strip Py key))
                "species_common_name"); [| rewrite Hstep; apply IH].
    destruct (Dict.get (str_lower Py (str_strip Py v)) species_map);
      rewrite Hstep; [apply IH |].
    intro H. injection H as <-. eexists. reflexivity.
Qed.

(** An entry with an unknown species makes [map_context] raise. *)
Lemma map_context_unknown_species (Py : Builtins)
    (items acc : ExperimentContext) (entry : string * option string) :
  In entry items -> unknown_species Py entry ->
  exists key, map_context Py items acc = Raise (KeyError key).
Proof.
  intros Hin (v & Hval & Hkey & Hv0 & Hne & Hmiss).
  assert (Hkept : kept Py v = true) by (apply kept_true; now split).
  revert acc. induction items as [|[key value] rest IH]; intros acc.
  - contradiction.
  - pose proof (map_context_step Py key value rest acc) as Hstep.
    destruct Hin as [<- | Hin].
    + simpl in Hval, Hkey. subst value.
      rewrite Hkept, Hkey, Hmiss in Hstep. simpl in Hstep.
      eexists. exact Hstep.
    + specialize (IH Hin).
      destruct value as [v0 |]; [| rewrite Hstep; apply IH].
      destruct (kept Py v0); [| rewrite Hstep; apply IH].
      destruct (String.eqb (str_lower Py (str_strip Py key))
                  "species_common_name"); [| rewrite Hstep; apply IH].
      destruct (Dict.get (str_lower Py (str_strip Py v0)) species_map);
        rewrite Hstep; [apply IH |].
      eexists. reflexivity.
Qed.

Section FrameFacts.
Variable Py : Builtins.
Variable R : ExperimentContext -> ExperimentContext -> Prop.
Hypothesis R_map :
  forall items items', map_context Py items [] = Ok items' -> R items items'.

Lemma evidence_frame_refl (ev : Evidence) :
  (forall items, R items items) -> evidence_frame R ev ev.
Proof.
  intro Hrefl. unfold evidence_frame. repeat split.
  destruct (ev_experiment_context ev); auto.
Qed.

Lemma evidences_frame_refl (evs : list Evidence) :
  (forall items, R items items) -> Forall2 (evidence_frame R) evs evs.
Proof.
  intro Hrefl. induction evs; constructor; auto using evidence_frame_refl.
Qed.

Lemma edge_frame_refl (e : Edge) :
  (forall items, R items items) -> edge_frame R e e.
Proof.
  intro Hrefl. unfold edge_frame, metadata_frame. repeat split.
  destruct (edge_metadata e) as [md |]; [| exact I].
  split; [reflexivity |].
  destruct (md_evidences md); auto using evidences_frame_refl.
Qed.

Lemma edges_frame_refl (es : list Edge) :
  (forall items, R items items) -> Forall2 (edge_frame R) es es.
Proof.
  intro Hrefl. induction es; constructor; auto using edge_frame_refl.
Qed.

Lemma map_evidences_frame (evs : list Evidence) :
  (forall items, R items items) \/ snd (map_evidences Py evs) = None ->
  Forall2 (evidence_frame R) evs (fst (map_evidences Py evs)).
Proof.
  induction evs as [|ev evs IH]; simpl; [constructor |].
  destruct (ev_experiment_context ev) as [items |] eqn:Ectx.
  - destruct (map_context Py items []) as [new_context | e] eqn:Emap.
    + destruct (map_evidences Py evs) as [rest' raised]. simpl in *.
      intro H. constructor; [| now apply IH].
      unfold evidence_frame. simpl. rewrite Ectx. repeat split.
      now apply R_map.
    + simpl. intros [Hrefl | H]; [| discriminate].
      now apply evidences_frame_refl.
  - destruct (map_evidences Py evs) as [rest' raised]. simpl in *.
    intro H. constructor; [| now apply IH].
    unfold evidence_frame. rewrite Ectx. repeat split.
Qed.

Lemma map_edges_frame (es : list Edge) :
  (forall items, R items items) \/ snd (map_edges Py es) = None ->
  Forall2 (edge_frame R) es (fst (map_edges Py es)).
Proof.
  induction es as [|edge es IH]; simpl; [constructor |].
  destruct (edge_metadata edge) as [md |] eqn:Emd.
  - destruct (md_evidences md) as [evs |] eqn:Eevs.
    + pose proof (map_evidences_frame evs) as Hevs.
      destruct (map_evidences Py evs) as [evs' [e |]]; simpl in Hevs.
      * simpl. intros [Hrefl | H]; [| discriminate].
        constructor; [| now apply edges_frame_refl].
        unfold edge_frame, metadata_frame. simpl. rewrite Emd, Eevs.
        repeat split. auto.
      * destruct (map_edges Py es) as [rest' raised]. simpl in *.
        intro H. constructor; [| now apply IH].
        unfold edge_frame, metadata_frame. simpl. rewrite Emd, Eevs.
        repeat split. auto.
    + destruct (map_edges Py es) as [rest' raised]. simpl in *.
      intro H. constructor; [| now apply IH].
      unfold edge_frame, metadata_frame. rewrite Emd, Eevs. repeat split.
  - destruct (map_edges Py es) as [rest' raised]. simpl in *.
    intro H. constructor; [| now apply IH].
    unfold edge_frame, metadata_frame. rewrite Emd. repeat split.
Qed.

Lemma map_cbn_frame (d : JgifDocument) :
  (forall items, R items items) \/ snd (map_cbn Py d) = None ->
  document_frame R d (fst (map_cbn Py d)).
Proof.
  unfold map_cbn, document_frame.
  destruct (doc_graph d) as [root |] eqn:Er; simpl;
    [| rewrite Er; auto].
  destruct (graph_edges root) as [es |] eqn:Ee; simpl.
  - pose proof (map_edges_frame es) as Hes.
    destruct (map_edges Py es) as [es' raised]. simpl in *.
    intro H. repeat split. auto.
  - rewrite Er, Ee. intros _. repeat split.
Qed.

End FrameFacts.

(** C8. Whether it returns or raises midway, [map_cbn] leaves a document
    with the same label, metadata and nodes, as many edges, each with the
    same source, target, relation, label and other metadata, and as many
    evidence records, each with the same citation, summary text and other
    keys; an experiment context is either untouched or rewritten. When
    [map_cbn] returns, every experiment context is rewritten: its keys are
    the stripped, lowercased keys of the entries whose value is neither
    empty nor empty once stripped, renamed through [annotation_map], and
    no value is empty. *)
Theorem map_cbn_rewrites_contexts_only (Py : Builtins) (d : JgifDocument) :
  document_frame (rewritten_or_same Py) d (fst (map_cbn Py d)) /\
  (snd (map_cbn Py d) = None ->
   document_frame (rewritten Py) d (fst (map_cbn Py d))).
Proof.
  split.
  - apply map_cbn_frame.
    + intros items items' H. right. now apply map_context_rewritten.
    + left. intro items. now left.
  - intro H. apply map_cbn_frame.
    + apply map_context_rewritten.
    + now right.
Qed.

Lemma map_evidences_raises (Py : Builtins) (evs : list Evidence) (e : exn) :
  snd (map_evidences Py evs) = Some e -> exists key, e = KeyError key.
Proof.
  induction evs as [|ev evs IH]; simpl; [discriminate |].
  destruct (ev_experiment_context ev) as [items |].
  - destruct (map_context Py items []) as [nc | e0] eqn:E.
    + destruct (map_evidences Py evs) as [rest' raised]. exact IH.
    + simpl. intro H. injection H as <-.
      eapply map_context_raises; eassumption.
  - destruct (map_evidences Py evs) as [rest' raised]. exact IH.
Qed.

Lemma map_evidences_unknown_species (Py : Builtins) (evs : list Evidence)
    (ev : Evidence) (items : ExperimentContext)
    (entry : string * option string) :
  In ev evs -> ev_experiment_context ev = Some items ->
  In entry items -> unknown_species Py entry ->
  exists key, snd (map_evidences Py evs) = Some (KeyError key).
Proof.
  intros Hin Hctx Hentry Hbad.
  induction evs as [|ev0 evs IH]; [contradiction |].
  simpl. destruct Hin as [-> | Hin].
  - rewrite Hctx.
    destruct (@map_context_unknown_species Py items [] entry Hentry Hbad)
      as (key & ->).
    now exists key.
  - specialize (IH Hin).
    destruct (ev_experiment_context ev0) as [items0 |].
    + destruct (map_context Py items0 []) as [nc | e0] eqn:E.
      * destruct (map_evidences Py evs) as [rest' raised]. exact IH.
      * apply map_context_raises in E. destruct E as (key & ->).
        now exists key.
    + destruct (map_evidences Py evs) as [rest' raised]. exact IH.
Qed.

Lemma map_edges_unknown_species (Py : Builtins) (es : list Edge) (edge : Edge)
    (md : EdgeMetadata) (evs : list Evidence) (ev : Evidence)
    (items : ExperimentContext) (entry : string * option string) :
  In edge es -> edge_metadata edge = Some md -> md_evidences md = Some evs ->
  In ev evs -> ev_experiment_context ev = Some items ->
  In entry items -> unknown_species Py entry ->
  exists key, snd (map_edges Py es) = Some (KeyError key).
Proof.
  intros Hin Hmd Hevs Hev Hctx Hentry Hbad.
  induction es as [|edge0 es IH]; [contradiction |].
  simpl. destruct Hin as [-> | Hin].
  - rewrite Hmd, Hevs.
    destruct (@map_evidences_unknown_species Py evs ev items entry Hev Hctx
                Hentry Hbad) as (key & Hkey).
    destruct (map_evidences Py evs) as [evs' raised]. simpl in Hkey.
    subst raised. now exists key.
  - specialize (IH Hin).
    destruct (edge_metadata edge0) as [md0 |].
    + destruct (md_evidences md0) as [evs0 |].
      * pose proof (map_evidences_raises Py evs0) as Hraise.
        destruct (map_evidences Py evs0) as [evs' [e |]].
        -- destruct (Hraise e eq_refl) as (key & ->). now exists key.
        -- destruct (map_edges Py es) as [rest' raised]. exact IH.
      * destruct (map_edges Py es) as [rest' raised]. exact IH.
    + destruct (map_edges Py es) as [rest' raised]. exact IH.
Qed.

(** C9, counterexample. The value of [species_common_name] is blank;
    stripped and lowercased it is none of the three species, and yet
    [map_cbn] drops the entry and returns, as does [from_cbn_jgif]. *)
Lemma blank_species_raises_nothing :
  Dict.get (str_lower Demo.builtins (str_strip Demo.builtins "  "))
    species_map = None /\
  snd (map_cbn Demo.builtins
         (Samples.cbn [("species_common_name", Some "  ")])) = None /\
  match Demo.from_cbn_jgif
          (Samples.cbn [("species_common_name", Some "  ")]) with
  | Ok _ => True
  | Raise _ => False
  end.
Proof. repeat split. Qed.

(** C9, as amended. If some evidence record of some edge has an
    experiment context with a key that, stripped and lowercased, is
    [species_common_name], and whose value is neither empty nor empty
    once stripped and, stripped and lowercased, is none of ['human'],
    ['rat'] and ['mouse'], then [map_cbn] raises a [KeyError], and so
    does [from_cbn_jgif]. *)
Theorem unknown_species_raises_KeyError (Py : Builtins) (K : Constants)
    (G : Grammar) (d : JgifDocument) (ev : Evidence)
    (items : ExperimentContext) (entry : string * option string) :
  evidence_of d ev ->
  ev_experiment_context ev = Some items ->
  In entry items ->
  unknown_species Py entry ->
  exists key,
    snd (map_cbn Py d) = Some (KeyError key) /\
    from_cbn_jgif Py K G d = Raise (KeyError key).
Proof.
  intros (root & es & edge & md & evs & Hr & He & Hin & Hmd & Hevs & Hev)
         Hctx Hentry Hbad.
  destruct (@map_edges_unknown_species Py es edge md evs ev items entry
              Hin Hmd Hevs Hev Hctx Hentry Hbad) as (key & Hkey).
  exists key.
  assert (E : snd (map_cbn Py d) = Some (KeyError key)).
  { unfold map_cbn. rewrite Hr, He.
    destruct (map_edges Py es) as [es' raised]. exact Hkey. }
  split; [exact E |].
  unfold from_cbn_jgif. destruct (map_cbn Py d) as [d' raised].
  simpl in E. now subst raised.
Qed.

Lemma unknown_species_raises_KeyError_witness :
  exists key,
    snd (map_cbn Demo.builtins (Samples.cbn [("Tissue", Some "lung");
                               (" Species_Common_Name", Some " Dog ")]))
      = Some (KeyError key) /\
    from_cbn_jgif Demo.builtins Demo.constants Demo.grammar
      (Samples.cbn [("Tissue", Some "lung");
                    (" Species_Common_Name", Some " Dog ")])
      = Raise (KeyError key).
Proof.
  apply (@unknown_species_raises_KeyError Demo.builtins Demo.constants
           Demo.grammar
           (Samples.cbn [("Tissue", Some "lung");
                         (" Species_Common_Name", Some " Dog ")])
           (Demo.evidence_record (Some (Demo.pubmed "12345"))
              (Some "A raises B.")
              (Some [("Tissue", Some "lung");
                     (" Species_Common_Name", Some " Dog ")]))
           [("Tissue", Some "lung"); (" Species_Common_Name", Some " Dog ")]
           (" Species_Common_Name", Some " Dog ")).
  - unfold evidence_of. do 5 eexists.
    repeat split; first [reflexivity | simpl; left; reflexivity].
  - reflexivity.
  - simpl. right. left. reflexivity.
  - unfold unknown_species. simpl. exists " Dog ".
    repeat split; discriminate.
Defined.

(* ================================================================= *)
(** ** The exit status of [convert] *)

(** C7, counterexample. The graph is loaded without a warning and
    [to_csv] raises: [convert] does not get to [sys.exit], the exception
    leaves it, and the command does not end with exit status 0 although
    the warning list is empty. *)
Lemma failed_output_is_not_exit_0 :
  warnings CliDemo.clean_graph = [] /\
  Cli.convert (CliDemo.failing_collaborators CliDemo.clean_graph)
    CliDemo.options []
  = (["CacheManager"; "from_lines"; "to_csv"],
     Cli.Uncaught (OtherException "IOError")).
Proof. split; reflexivity. Qed.

(** C7, as amended. [convert] ends with exit status 0 exactly when the
    manager, the loader and every output step it runs return and the
    warning list of the graph is empty, and with exit status 1 exactly
    when they return and the list holds a warning; it ends with no other
    exit status. When one of these steps raises, the exception leaves
    [convert], which does not get to [sys.exit], whatever the warning
    list holds. *)
Theorem convert_exit_status (World File Manager NeoGraph : Type)
    (C : Cli.Collaborators World File Manager NeoGraph)
    (o : Cli.Options File) (w w' : World) :
  (Cli.convert C o w = (w', Cli.Exit 0) <->
   exists g, Cli.run C o w = (w', Ok g) /\ warnings g = []) /\
  (Cli.convert C o w = (w', Cli.Exit 1) <->
   exists g, Cli.run C o w = (w', Ok g) /\ warnings g <> []) /\
  (forall status,
     Cli.convert C o w = (w', Cli.Exit status) -> status = 0 \/ status = 1) /\
  (forall e,
     Cli.convert C o w = (w', Cli.Uncaught e) <->
     Cli.run C o w = (w', Raise e)) /\
  (forall g,
     Cli.run C o w = (w', Ok g) ->
     exists status,
       Cli.convert C o w = (w', Cli.Exit status) /\
       (status = 0 <-> warnings g = []) /\
       (warnings g <> [] -> status = 1)).
Proof.
  unfold Cli.convert.
  destruct (Cli.run C o w) as [w1 [g | e]].
  - assert (Hs : (if Nat.eqb 0 (length (warnings g)) then 0 else 1) = 0 <->
                 warnings g = []).
    { destruct (warnings g); simpl; split; congruence. }
    assert (Hs1 : (if Nat.eqb 0 (length (warnings g)) then 0 else 1) = 1 <->
                  warnings g <> []).
    { destruct (warnings g); simpl; split; congruence. }
    split; [| split; [| split; [| split]]].
    + split.
      * intro H. injection H as -> H. exists g. split; [reflexivity |].
        now apply Hs.
      * intros (g' & H & Hw). injection H as -> <-.
        apply Hs in Hw. now rewrite Hw.
    + split.
      * intro H. injection H as -> H. exists g. split; [reflexivity |].
        now apply Hs1.
      * intros (g' & H & Hw). injection H as -> <-.
        apply Hs1 in Hw. now rewrite Hw.
    + intros status H. injection H as _ <-.
      destruct (warnings g); simpl; auto.
    + intro e. split; discriminate.
    + intros g' H. injection H as -> <-. eexists. split; [reflexivity |].
      split; [exact Hs |]. intro Hw. now apply Hs1.
  - split; [| split; [| split; [| split]]].
    + split; [discriminate |]. intros (g & H & _). discriminate.
    + split; [discriminate |]. intros (g & H & _). discriminate.
    + discriminate.
    + intro e'. split; intro H; injection H as -> ->; reflexivity.
    + discriminate.
Qed.

Lemma convert_exit_status_witness :
  exists status,
    Cli.convert (CliDemo.collaborators CliDemo.graph_with_warning)
      CliDemo.options []
    = (["CacheManager"; "from_lines"; "to_csv"; "to_bel"], Cli.Exit status) /\
    (status = 0 <-> warnings CliDemo.graph_with_warning = []) /\
    (warnings CliDemo.graph_with_warning <> [] -> status = 1).
Proof.
  apply (@convert_exit_status CliDemo.World string unit unit
           (CliDemo.collaborators CliDemo.graph_with_warning)
           CliDemo.options []
           ["CacheManager"; "from_lines"; "to_csv"; "to_bel"]).
  reflexivity.
Defined.

(* ================================================================= *)
(** ** More on [get_citation] and the guards of the evidence loop *)

Unset Implicit Arguments.

(** The three keys [get_citation] writes are three different keys. *)
Definition distinct_citation_keys (K : Constants) : Prop :=
  CITATION_TYPE K <> CITATION_REFERENCE K /\
  CITATION_TYPE K <> CITATION_NAME K /\
  CITATION_REFERENCE K <> CITATION_NAME K.

(** An evidence record that passes the three guards of the evidence
    loop: a citation that is not empty and has ['type'] or ['id'], and a
    summary text that is neither blank nor the placeholder. *)
Definition passes_guards (Py : Builtins) (ev : Evidence) : Prop :=
  exists cit text,
    ev_citation ev = Some cit /\
    (Dict.mem "type" cit = true \/ Dict.mem "id" cit = true) /\
    ev_summary_text ev = Some text /\
    str_strip Py text <> "" /\
    str_strip Py text <> placeholder_evidence.

(** The key whose absence stops a record that passed the guards, in the
    order the code reads them. *)
Definition missing_key (ev : Evidence) : option string :=
  match ev_citation ev with
  | None => Some "citation"
  | Some cit =>
      if negb (Dict.mem "type" cit) then Some "type"
      else if negb (Dict.mem "id" cit) then Some "id"
      else
        match ev_experiment_context ev with
        | None => Some EXPERIMENT_CONTEXT
        | Some _ => None
        end
  end.

(** [ev] is an evidence record of an edge record of [d] that gets to the
    evidence loop. *)
Definition reached (K : Constants) (d : JgifDocument) (edge : Edge)
    (ev : Evidence) : Prop :=
  exists root es md evs,
    doc_graph d = Some root /\ graph_edges root = Some es /\
    In edge es /\
    is_legacy (edge_relation edge) = false /\
    is_unqualified K (edge_relation edge) = false /\
    edge_metadata edge = Some md /\ md_evidences md = Some evs /\
    In ev evs.

Lemma mem_nonempty (V : Type) (key : string) (d : dict V) :
  Dict.mem key d = true -> Dict.nonempty d = true.
Proof. destruct d; [discriminate | reflexivity]. Qed.

(** X1. When the three keys it writes are distinct, [get_citation] on a
    citation with ['type'] and ['id'] returns a dictionary that binds the
    type key to the stripped type, the reference key to the stripped id,
    the name key to the stripped name exactly when the citation has a
    ['name'], and no other key. *)
Theorem get_citation_fields (Py : Builtins) (K : Constants) (ev : Evidence)
    (cit : JgifCitation) (ty id : string) :
  distinct_citation_keys K ->
  ev_citation ev = Some cit ->
  Dict.get "type" cit = Some ty ->
  Dict.get "id" cit = Some id ->
  exists c,
    get_citation Py K ev = Ok c /\
    Dict.get (CITATION_TYPE K) c = Some (str_strip Py ty) /\
    Dict.get (CITATION_REFERENCE K) c = Some (str_strip Py id) /\
    Dict.get (CITATION_NAME K) c
      = option_map (str_strip Py) (Dict.get "name" cit) /\
    forall k,
      k <> CITATION_TYPE K -> k <> CITATION_REFERENCE K ->
      k <> CITATION_NAME K -> Dict.get k c = None.
Proof.
  intros (Htr & Htn & Hrn) Hcit Hty Hid.
  unfold get_citation. rewrite Hcit. cbn [bind subscript].
  rewrite Hty. cbn [bind subscript]. rewrite Hid. cbn [bind subscript].
  destruct (Dict.get "name" cit) as [nm |]; eexists;
    (split; [reflexivity |]); cbn [option_map].
  - repeat split.
    + rewrite !Dict.get_set_other by assumption.
      apply Dict.get_set_same.
    + rewrite Dict.get_set_other by assumption. apply Dict.get_set_same.
    + apply Dict.get_set_same.
    + intros k H1 H2 H3. now rewrite !Dict.get_set_other by assumption.
  - repeat split.
    + rewrite Dict.get_set_other by assumption. apply Dict.get_set_same.
    + apply Dict.get_set_same.
    + rewrite !Dict.get_set_other by (apply not_eq_sym; assumption).
      reflexivity.
    + intros k H1 H2 H3. now rewrite !Dict.get_set_other by assumption.
Qed.

Lemma get_citation_fields_witness :
  exists c,
    get_citation Demo.builtins Demo.constants
      (Demo.evidence_record
         (Some [("type", " PubMed"); ("id", "12345 "); ("name", "J Biol")])
         None None) = Ok c /\
    Dict.get "type" c = Some (str_strip Demo.builtins " PubMed") /\
    Dict.get "reference" c = Some (str_strip Demo.builtins "12345 ") /\
    Dict.get "name" c
      = option_map (str_strip Demo.builtins)
          (Dict.get "name"
             [("type", " PubMed"); ("id", "12345 "); ("name", "J Biol")]) /\
    forall k,
      k <> "type" -> k <> "reference" -> k <> "name" -> Dict.get k c = None.
Proof.
  apply (@get_citation_fields Demo.builtins Demo.constants
           (Demo.evidence_record
              (Some [("type", " PubMed"); ("id", "12345 ");
                     ("name", "J Biol")]) None None)
           [("type", " PubMed"); ("id", "12345 "); ("name", "J Biol")]
           " PubMed" "12345 ").
  - repeat split; discriminate.
  - reflexivity.
  - reflexivity.
  - reflexivity.
Defined.

Lemma process_evidence_guarded (Py : Builtins) (K : Constants) (G : Grammar)
    (lbl : option string) (i : nat) (ev : Evidence) (st : ParserState) :
  passes_guards Py ev ->
  match missing_key ev with
  | Some key => process_evidence Py K G lbl i ev st = Raise (KeyError key)
  | None =>
      exists cit text ctx,
        get_citation Py K ev = Ok cit /\
        ev_summary_text ev = Some text /\
        ev_experiment_context ev = Some ctx /\
        process_evidence Py K G lbl i ev st
        = Ok (try_parse K G lbl i
                (with_control st (record_context Py cit text ctx)))
  end.
Proof.
  intros (cit & text & Hcit & Hkey & Htext & Hne & Hph).
  unfold missing_key, process_evidence, load_context, get_citation.
  rewrite Hcit, Htext.
  assert (Hn : Dict.nonempty cit = true).
  { destruct Hkey as [H | H]; eapply mem_nonempty; eassumption. }
  rewrite Hn. cbn [negb].
  assert (Hguard : negb (Dict.mem "type" cit) && negb (Dict.mem "id" cit)
                   = false).
  { destruct Hkey as [-> | ->]; [reflexivity | apply andb_false_r]. }
  rewrite Hguard. cbn [bind subscript].
  apply PyStr.nonempty_true in Hne. rewrite Hne. cbn [negb orb].
  apply String.eqb_neq in Hph. rewrite Hph.
  unfold Dict.mem.
  destruct (Dict.get "type" cit) as [ty |]; cbn [negb bind subscript];
    [| reflexivity].
  destruct (Dict.get "id" cit) as [id |]; cbn [negb bind subscript];
    [| reflexivity].
  destruct (ev_experiment_context ev) as [ctx |].
  - destruct (Dict.get "name" cit); cbn [bind subscript];
      do 3 eexists; repeat split; reflexivity.
  - destruct (Dict.get "name" cit); reflexivity.
Qed.

(** X2. An evidence record that passes the guards and lacks ['type'],
    ['id'] or ['experiment_context'] ends the evidence loop with the
    [KeyError] of the first key missing, before anything is parsed; one
    that lacks none is handed to the parser: the statement of its edge is
    parsed, inside the [try], under the control context that holds the
    citation [get_citation] returns for the record, its stripped summary
    text and its experiment context, and the loop goes on with the
    parser as the parse leaves it. *)
Theorem guarded_record_outcome (Py : Builtins) (K : Constants) (G : Grammar)
    (lbl : option string) (i : nat) (ev : Evidence) (st : ParserState) :
  passes_guards Py ev ->
  match missing_key ev with
  | Some key => process_evidence Py K G lbl i ev st = Raise (KeyError key)
  | None =>
      exists cit text ctx,
        get_citation Py K ev = Ok cit /\
        ev_summary_text ev = Some text /\
        ev_experiment_context ev = Some ctx /\
        process_evidence Py K G lbl i ev st
        = Ok (try_parse K G lbl i
                (with_control st (record_context Py cit text ctx)))
  end.
Proof. apply process_evidence_guarded. Qed.

Lemma guarded_record_outcome_witness :
  exists cit text ctx,
    get_citation Demo.builtins Demo.constants (Samples.cited " A raises B. ")
    = Ok cit /\
    ev_summary_text (Samples.cited " A raises B. ") = Some text /\
    ev_experiment_context (Samples.cited " A raises B. ") = Some ctx /\
    process_evidence Demo.builtins Demo.constants Demo.grammar
      (Some "p(HGNC:A) increases p(HGNC:B)") 0
      (Samples.cited " A raises B. ") Samples.start
    = Ok (try_parse Demo.constants Demo.grammar
            (Some "p(HGNC:A) increases p(HGNC:B)") 0
            (with_control Samples.start
               (record_context Demo.builtins cit text ctx))).
Proof.
  apply (@guarded_record_outcome Demo.builtins Demo.constants Demo.grammar
           (Some "p(HGNC:A) increases p(HGNC:B)") 0
           (Samples.cited " A raises B. ") Samples.start).
  exists [("type", "PubMed"); ("id", "12345")], " A raises B. ".
  repeat split; try discriminate. left. reflexivity.
Defined.

Section ReachedFacts.
Variable Py : Builtins.
Variable K : Constants.
Variable G : Grammar.

Lemma process_evidences_Ok_each (lbl : option string) (i : nat)
    (evs : list Evidence) (st st' : ParserState) (ev : Evidence) :
  process_evidences Py K G lbl i evs st = Ok st' -> In ev evs ->
  exists st0 st1, process_evidence Py K G lbl i ev st0 = Ok st1.
Proof.
  revert st. induction evs as [|ev0 evs IH]; intros st H Hin;
    [contradiction |].
  simpl in H.
  destruct (process_evidence Py K G lbl i ev0 st) as [st1 |] eqn:E;
    cbn [bind] in H; [| discriminate].
  destruct Hin as [-> | Hin]; [now exists st, st1 | eapply IH; eassumption].
Qed.

Lemma process_edges_Ok_each (i : nat) (es : list Edge)
    (st st' : ParserState) (edge : Edge) (md : EdgeMetadata)
    (evs : list Evidence) (ev : Evidence) :
  process_edges Py K G i es st = Ok st' -> In edge es ->
  is_legacy (edge_relation edge) = false ->
  is_unqualified K (edge_relation edge) = false ->
  edge_metadata edge = Some md -> md_evidences md = Some evs -> In ev evs ->
  exists j st0 st1, process_evidence Py K G (edge_label edge) j ev st0 = Ok st1.
Proof.
  intros H Hin Hl Hu Hmd Hevs Hev.
  revert i st H. induction es as [|edge0 es IH]; intros i st H;
    [contradiction |].
  simpl in H.
  destruct (process_edge Py K G i edge0 st) as [st1 |] eqn:E;
    cbn [bind] in H; [| discriminate].
  destruct Hin as [-> | Hin]; [| eapply IH; eassumption].
  unfold process_edge in E. rewrite Hl, Hmd, Hu, Hevs in E.
  destruct evs as [|ev0 evs]; [contradiction |].
  destruct (@process_evidences_Ok_each _ _ _ _ _ _ E Hev)
    as (st0 & st2 & H2).
  now exists i, st0, st2.
Qed.

End ReachedFacts.

(** X3. A document with one evidence record that gets to the evidence
    loop, passes its guards and lacks ['type'], ['id'] or
    ['experiment_context'] is not imported: [from_jgif] raises and returns
    no graph, whatever else the document holds. *)
Theorem incomplete_record_aborts_import (Py : Builtins) (K : Constants)
    (G : Grammar) (d : JgifDocument) (edge : Edge) (ev : Evidence) :
  reached K d edge ev ->
  passes_guards Py ev ->
  missing_key ev <> None ->
  exists e, from_jgif Py K G d = Raise e.
Proof.
  intros (root & es & md & evs & Hr & He & Hin & Hl & Hu & Hmd & Hevs & Hev)
         Hpass Hmiss.
  destruct (from_jgif Py K G d) as [g | e] eqn:E; [| now exists e].
  exfalso. apply from_jgif_Ok in E.
  destruct E as (root' & ns & es' & st1 & st2 & Hr' & _ & He' & _ & Hes & _).
  rewrite Hr in Hr'. injection Hr' as <-.
  rewrite He in He'. injection He' as <-.
  destruct (@process_edges_Ok_each Py K G _ _ _ _ _ _ _ _
              Hes Hin Hl Hu Hmd Hevs Hev) as (j & st0 & st3 & Hok).
  pose proof (@process_evidence_guarded Py K G (edge_label edge) j ev st0
                Hpass) as Hcase.
  destruct (missing_key ev) as [key |]; [| now apply Hmiss].
  rewrite Hcase in Hok. discriminate.
Qed.

Lemma incomplete_record_aborts_import_witness :
  exists e,
    from_jgif Demo.builtins Demo.constants Demo.grammar
      (Demo.jgif []
         [Samples.increase [Samples.cited "A raises B."];
          Samples.decrease
            [Demo.evidence_record (Some (Demo.pubmed "777"))
               (Some "B lowers C.") None]]) = Raise e.
Proof.
  apply (@incomplete_record_aborts_import Demo.builtins Demo.constants
           Demo.grammar
           (Demo.jgif []
              [Samples.increase [Samples.cited "A raises B."];
               Samples.decrease
                 [Demo.evidence_record (Some (Demo.pubmed "777"))
                    (Some "B lowers C.") None]])
           (Samples.decrease
              [Demo.evidence_record (Some (Demo.pubmed "777"))
                 (Some "B lowers C.") None])
           (Demo.evidence_record (Some (Demo.pubmed "777"))
              (Some "B lowers C.") None)).
  - unfold reached. do 4 eexists.
    repeat split;
      first [reflexivity | simpl; right; left; reflexivity
            | simpl; left; reflexivity].
  - exists (Demo.pubmed "777"), "B lowers C.".
    repeat split; try discriminate. left. reflexivity.
  - discriminate.
Defined.

(* ================================================================= *)
(** ** Where the edges of an imported graph come from *)

(** [x] is a relation of the statement [lbl], parsed with line number
    [i], under the context of the evidence record [ev], which passes the
    guards and lacks no key. *)
Definition from_evidence (Py : Builtins) (K : Constants) (G : Grammar)
    (lbl : option string) (i : nat) (ev : Evidence) (x : BELEdge) : Prop :=
  exists cit text ctx line ts,
    get_citation Py K ev = Ok cit /\
    ev_summary_text ev = Some text /\
    str_strip Py text <> "" /\
    str_strip Py text <> placeholder_evidence /\
    ev_experiment_context ev = Some ctx /\
    lbl = Some line /\
    language G line i = Ok ts /\
    In (source x, relation x, target x) ts /\
    context x = record_context Py cit text ctx.

(** [x] comes from an evidence record of [edge], the edge record at
    position [i], whose relation is neither legacy nor unqualified. *)
Definition from_edge (Py : Builtins) (K : Constants) (G : Grammar) (i : nat)
    (edge : Edge) (x : BELEdge) : Prop :=
  is_legacy (edge_relation edge) = false /\
  is_unqualified K (edge_relation edge) = false /\
  exists md evs ev,
    edge_metadata edge = Some md /\ md_evidences md = Some evs /\
    In ev evs /\ from_evidence Py K G (edge_label edge) i ev x.

Lemma snapshot_eta (x : BELEdge) :
  snapshot (context x) (source x, relation x, target x) = x.
Proof. now destruct x. Qed.

Lemma snapshot_triple (c : Context) (t : triple) :
  (source (snapshot c t), relation (snapshot c t), target (snapshot c t)) = t.
Proof. now destruct t as [[s r] o]. Qed.

Section ImportFacts.
Variable Py : Builtins.
Variable K : Constants.
Variable G : Grammar.

(** A context with a citation and an evidence lets every relation in. *)
Lemma find_lacks_context_None (c : Context) (ts : list triple) :
  citation c <> [] -> evidence c <> None ->
  find (lacks_context K c) ts = None.
Proof.
  intros Hc He. induction ts as [|[[s r] o] ts IH]; [reflexivity |].
  simpl. destruct (citation c); [contradiction |].
  destruct (evidence c); [| contradiction].
  simpl. rewrite andb_false_r. exact IH.
Qed.

Lemma parseString_edges (line : string) (i : nat) (st st' : ParserState)
    (x : BELEdge) :
  parseString K G line i st = Ok st' ->
  (In x (edges (graph st')) <->
   In x (edges (graph st)) \/
   exists ts, language G line i = Ok ts /\
              In (source x, relation x, target x) ts /\
              context x = control_parser st).
Proof.
  unfold parseString. destruct (language G line i) as [ts | e]; simpl;
    [| discriminate].
  destruct (find (lacks_context K (control_parser st)) ts)
    as [[[s r] o] |]; [discriminate |].
  intro H. apply Ok_inj in H. subst st'. simpl.
  rewrite fold_add_edge_edges. split.
  - intros [H | (t & Hin & ->)]; [now left | right].
    exists ts. split; [reflexivity |].
    rewrite snapshot_triple, snapshot_context. now split.
  - intros [H | (ts' & Hts & Hin & Hctx)]; [now left | right].
    apply Ok_inj in Hts. subst ts'.
    exists (source x, relation x, target x). split; [exact Hin |].
    rewrite <- Hctx. symmetry. apply snapshot_eta.
Qed.

(** A record that passes the guards and lacks no key is parsed under
    its own context. *)
Lemma process_evidence_complete (lbl : option string) (i : nat)
    (ev : Evidence) (st : ParserState) (cit : dict string) (text : string)
    (ctx : ExperimentContext) :
  get_citation Py K ev = Ok cit ->
  ev_summary_text ev = Some text ->
  str_strip Py text <> "" ->
  str_strip Py text <> placeholder_evidence ->
  ev_experiment_context ev = Some ctx ->
  process_evidence Py K G lbl i ev st
  = Ok (try_parse K G lbl i (with_control st (record_context Py cit text ctx))).
Proof.
  intros Hc Ht Hne Hph Hx.
  unfold process_evidence, load_context. rewrite Hc, Ht, Hx.
  unfold get_citation in Hc.
  destruct (ev_citation ev) as [jc |]; [| discriminate].
  cbn [bind subscript] in Hc.
  destruct (Dict.get "type" jc) as [ty |] eqn:Ety; [| discriminate].
  assert (Hm : Dict.mem "type" jc = true).
  { unfold Dict.mem. now rewrite Ety. }
  rewrite (mem_nonempty _ _ _ Hm), Hm. cbn [negb andb bind subscript].
  apply PyStr.nonempty_true in Hne. rewrite Hne.
  apply String.eqb_neq in Hph. rewrite Hph. reflexivity.
Qed.

Lemma try_parse_edges_iff (lbl : option string) (i : nat)
    (st : ParserState) (x : BELEdge) :
  citation (control_parser st) <> [] ->
  evidence (control_parser st) <> None ->
  (In x (edges (graph (try_parse K G lbl i st))) <->
   In x (edges (graph st)) \/
   exists line ts, lbl = Some line /\ language G line i = Ok ts /\
                   In (source x, relation x, target x) ts /\
                   context x = control_parser st).
Proof.
  intros Hc He. unfold try_parse. destruct lbl as [line |].
  - destruct (parseString K G line i st) as [st1 | e] eqn:E.
    + rewrite (parseString_edges _ _ _ _ x E). split.
      * intros [H | (ts & Hts & Hin & Hctx)]; [now left | right].
        now exists line, ts.
      * intros [H | (line' & ts & Hl & Hts & Hin & Hctx)]; [now left |].
        injection Hl as <-. right. now exists ts.
    + split; [auto |].
      intros [H | (line' & ts & Hl & Hts & _)]; [exact H |].
      injection Hl as <-. exfalso.
      unfold parseString in E. rewrite Hts in E. cbn [bind] in E.
      rewrite (find_lacks_context_None _ ts Hc He) in E. discriminate.
  - split; [auto |]. intros [H | (line & ts & Hl & _)];
      [exact H | discriminate].
Qed.

Lemma process_evidence_edges (lbl : option string) (i : nat)
    (ev : Evidence) (st st' : ParserState) (x : BELEdge) :
  process_evidence Py K G lbl i ev st = Ok st' ->
  (In x (edges (graph st')) <->
   In x (edges (graph st)) \/ from_evidence Py K G lbl i ev x).
Proof.
  intro H.
  assert (Hrc : forall cit text ctx,
            get_citation Py K ev = Ok cit ->
            citation (control_parser
                        (with_control st (record_context Py cit text ctx)))
              <> [] /\
            evidence (control_parser
                        (with_control st (record_context Py cit text ctx)))
              <> None).
  { intros cit text ctx Hc. simpl. split; [| discriminate].
    apply (get_citation_keys Py K ev Hc). }
  split.
  - intro Hin. apply process_evidence_Ok in H.
    destruct H as [-> | (cit & text & ctx & Hc & Ht & Hne & Hph & Hx & ->)];
      [now left |].
    destruct (Hrc cit text ctx Hc) as [H1 H2].
    apply (try_parse_edges_iff lbl i _ x H1 H2) in Hin.
    destruct Hin as [Hin | (line & ts & Hl & Hts & Hin & Hctx)];
      [now left | right].
    exists cit, text, ctx, line, ts. repeat split; assumption.
  - intros [Hin | Hfrom].
    + apply process_evidence_Ok in H.
      destruct H as [-> | (cit & text & ctx & Hc & _ & _ & _ & _ & ->)];
        [exact Hin |].
      destruct (Hrc cit text ctx Hc) as [H1 H2].
      apply (try_parse_edges_iff lbl i _ x H1 H2). now left.
    + destruct Hfrom as (cit & text & ctx & line & ts & Hc & Ht & Hne & Hph
                         & Hx & Hl & Hts & Hin & Hctx).
      rewrite (process_evidence_complete lbl i ev st cit text ctx
                 Hc Ht Hne Hph Hx) in H.
      apply Ok_inj in H. subst st'.
      destruct (Hrc cit text ctx Hc) as [H1 H2].
      apply (try_parse_edges_iff lbl i _ x H1 H2). right.
      now exists line, ts.
Qed.

End ImportFacts.

(** An exception that ends the processing of a record of [d] that is
    reached ends [from_jgif]. *)
Lemma reached_record_raises (Py : Builtins) (K : Constants) (G : Grammar)
    (d : JgifDocument) (edge : Edge) (ev : Evidence) :
  reached K d edge ev ->
  (forall lbl i st, exists e, process_evidence Py K G lbl i ev st = Raise e) ->
  exists e, from_jgif Py K G d = Raise e.
Proof.
  intros (root & es & md & evs & Hr & He & Hin & Hl & Hu & Hmd & Hevs & Hev)
         Hraise.
  destruct (from_jgif Py K G d) as [g | e] eqn:E; [| now exists e].
  exfalso. apply from_jgif_Ok in E.
  destruct E as (root' & ns & es' & st1 & st2 & Hr' & _ & He' & _ & Hes & _).
  rewrite Hr in Hr'. injection Hr' as <-.
  rewrite He in He'. injection He' as <-.
  destruct (@process_edges_Ok_each Py K G _ _ _ _ _ _ _ _
              Hes Hin Hl Hu Hmd Hevs Hev) as (j & st0 & st3 & Hok).
  destruct (Hraise (edge_label edge) j st0) as (e & He0).
  rewrite He0 in Hok. discriminate.
Qed.

(** A record with a citation that passes the guard and no
    ['summary_text']: the subscript raises, outside any [try]. *)
Lemma process_evidence_without_summary (Py : Builtins) (K : Constants)
    (G : Grammar) (lbl : option string) (i : nat) (ev : Evidence)
    (st : ParserState) (cit : JgifCitation) :
  ev_citation ev = Some cit ->
  Dict.mem "type" cit = true \/ Dict.mem "id" cit = true ->
  ev_summary_text ev = None ->
  process_evidence Py K G lbl i ev st = Raise (KeyError "summary_text").
Proof.
  intros Hcit Hkey Htext. unfold process_evidence. rewrite Hcit, Htext.
  assert (Hn : Dict.nonempty cit = true).
  { destruct Hkey as [H | H]; eapply mem_nonempty; eassumption. }
  rewrite Hn. cbn [negb].
  assert (Hguard : negb (Dict.mem "type" cit) && negb (Dict.mem "id" cit)
                   = false).
  { destruct Hkey as [-> | ->]; [reflexivity | apply andb_false_r]. }
  rewrite Hguard. reflexivity.
Qed.

(** C2, as amended. [from_jgif] returns a graph for every document that
    has its graph with nodes and edges, whose evidence records all have
    ['summary_text'] and ['experiment_context'] and a citation with both
    ['type'] and ['id'] or neither, and whose node labels the term parser
    accepts or rejects with [NakedNameWarning] or [ParseException]. A
    node label rejected with one of these two exceptions is passed over:
    the node loop goes on with the next record, the parser being as it
    was. Whatever exception the parser raises on the statement of an
    edge, for an evidence record that passed the guards and has its
    keys, is caught: the graph is as it was and the evidence loop goes
    on with the next record. A reached evidence record whose citation
    passes the guard and that has no ['summary_text'] raises [KeyError]
    outside any [try], and [from_jgif] raises instead of returning. *)
Theorem from_jgif_returns (Py : Builtins) (K : Constants) (G : Grammar) :
  (forall d, well_formed G d = true -> exists g, from_jgif Py K G d = Ok g) /\
  (forall node rest st label message,
     node_label node = Some label ->
     bel_term G label = Raise (NakedNameWarning message) \/
     bel_term G label = Raise (ParseException message) ->
     process_nodes G (node :: rest) st = process_nodes G rest st) /\
  (forall lbl i ev rest st cit text ctx line e,
     get_citation Py K ev = Ok cit ->
     ev_summary_text ev = Some text ->
     str_strip Py text <> "" ->
     str_strip Py text <> placeholder_evidence ->
     ev_experiment_context ev = Some ctx ->
     lbl = Some line ->
     parseString K G line i
       (with_control st (record_context Py cit text ctx)) = Raise e ->
     let st' := with_control st (record_context Py cit text ctx) in
     graph st' = graph st /\
     process_evidences Py K G lbl i (ev :: rest) st
     = process_evidences Py K G lbl i rest st') /\
  (forall d edge ev cit,
     reached K d edge ev ->
     ev_citation ev = Some cit ->
     Dict.mem "type" cit = true \/ Dict.mem "id" cit = true ->
     ev_summary_text ev = None ->
     (forall lbl i st,
        process_evidence Py K G lbl i ev st
        = Raise (KeyError "summary_text")) /\
     exists e, from_jgif Py K G d = Raise e).
Proof.
  split; [| split; [| split]].
  - intro d. unfold well_formed, from_jgif.
    destruct (doc_graph d) as [root |]; [| discriminate].
    destruct (graph_nodes root) as [ns |] eqn:En; [| discriminate].
    destruct (graph_edges root) as [es |] eqn:Ee; [| discriminate].
    intro H. apply andb_true_iff in H. destruct H as [Hns Hes].
    cbn [bind subscript]. rewrite En. cbn [bind subscript].
    destruct (process_nodes_total G ns (new_parser (init_graph K root)) Hns)
      as (st1 & ->).
    cbn [bind subscript]. rewrite Ee. cbn [bind subscript].
    destruct (process_edges_total Py K G 0 es st1 Hes) as (st2 & ->).
    cbn [bind]. now exists (graph st2).
  - intros node rest st label message Hl Hraise.
    cbn [process_nodes]. unfold process_node, parse_term. rewrite Hl.
    destruct Hraise as [-> | ->]; reflexivity.
  - intros lbl i ev rest st cit text ctx line e Hc Ht Hne Hph Hx Hl Hparse
           st'.
    split; [reflexivity |].
    cbn [process_evidences].
    rewrite (process_evidence_complete Py K G lbl i ev st cit text ctx
               Hc Ht Hne Hph Hx).
    cbn [bind]. unfold try_parse. rewrite Hl, Hparse. reflexivity.
  - intros d edge ev cit Hreach Hcit Hkey Htext.
    assert (Hraise : forall lbl i st,
              process_evidence Py K G lbl i ev st
              = Raise (KeyError "summary_text")).
    { intros lbl i st.
      now apply (process_evidence_without_summary Py K G lbl i ev st cit). }
    split; [exact Hraise |].
    apply (reached_record_raises Py K G d edge ev Hreach).
    intros lbl i st. eexists. apply Hraise.
Qed.

Lemma from_jgif_returns_witness :
  (exists g,
     from_jgif Demo.builtins Demo.constants Demo.grammar
       (Demo.jgif
          [Demo.node_record "p(EGFR)"; Demo.node_record "p(HGNC:A)"]
          [Demo.edge_record "increases" "p(HGNC:A) increases"
             (Some [Samples.cited "Unparsable statement."]);
           Samples.increase [Samples.uncited; Samples.cited "A raises B."]])
     = Ok g) /\
  process_evidences Demo.builtins Demo.constants Demo.grammar
    (Some "p(HGNC:A) increases") 0
    [Samples.cited "Unparsable statement."; Samples.cited "Another one."]
    Samples.start
  = process_evidences Demo.builtins Demo.constants Demo.grammar
      (Some "p(HGNC:A) increases") 0 [Samples.cited "Another one."]
      (with_control Samples.start
         (record_context Demo.builtins
            [("type", "PubMed"); ("reference", "12345")]
            "Unparsable statement." [("Species", Some "9606")])).
Proof.
  destruct (from_jgif_returns Demo.builtins Demo.constants Demo.grammar)
    as (Hreturns & _ & Hcaught & _).
  split.
  - apply Hreturns. reflexivity.
  - apply (Hcaught (Some "p(HGNC:A) increases") 0
             (Samples.cited "Unparsable statement.")
             [Samples.cited "Another one."] Samples.start
             [("type", "PubMed"); ("reference", "12345")]
             "Unparsable statement." [("Species", Some "9606")]
             "p(HGNC:A) increases" (ParseException "p(HGNC:A) increases"));
      first [reflexivity | discriminate].
Defined.

(** The statement of the first edge record does not parse: the second
    one is imported all the same. *)
Example from_jgif_resilient_example :
  Demo.from_jgif
    (Demo.jgif
       [Demo.node_record "p(EGFR)"; Demo.node_record "p(HGNC:A)"]
       [Demo.edge_record "increases" "p(HGNC:A) increases"
          (Some [Samples.cited "Unparsable statement."]);
        Samples.increase [Samples.uncited; Samples.cited "A raises B."]])
  = Ok {| name := None; document := []; namespace_url := [];
          annotation_url := [];
          nodes := ["p(HGNC:A)"; "p(HGNC:B)"];
          edges :=
            [ {| source := "p(HGNC:A)"; target := "p(HGNC:B)";
                 relation := "increases";
                 context :=
                   {| citation := [("type", "PubMed"); ("reference", "12345")];
                      evidence := Some "A raises B.";
                      annotations := [("Species", Some "9606")] |} |} ];
          warnings := [] |}.
Proof. reflexivity. Qed.

(** C5. A record that gets past the guards is parsed under a control
    context that holds the citation [get_citation] builds from it, its
    stripped summary text and, as annotations, its experiment context
    filed into an empty dictionary, and nothing else: this is what the
    four assignments make of any previous context, it is the context the
    parser is left with, and the edges of the graph are then the ones it
    had and the relations of the statement, each under this context.
    Whatever the record, what it adds to the graph does not depend on
    the context the records before it left behind, and no edge it adds
    carries anything of that context. *)
Theorem evidence_context_is_reset (Py : Builtins) (K : Constants)
    (G : Grammar) (lbl : option string) (i : nat) (ev : Evidence)
    (g : BELGraph) (c c' : Context) :
  (forall cit text ctx,
     get_citation Py K ev = Ok cit ->
     ev_summary_text ev = Some text ->
     str_strip Py text <> "" ->
     str_strip Py text <> placeholder_evidence ->
     ev_experiment_context ev = Some ctx ->
     let fresh :=
       {| citation := cit; evidence := Some (str_strip Py text);
          annotations := Dict.update [] ctx |} in
     load_context Py K ev (str_strip Py text) c = Ok fresh /\
     exists st,
       process_evidence Py K G lbl i ev
         {| graph := g; control_parser := c |} = Ok st /\
       control_parser st = fresh /\
       forall x,
         In x (edges (graph st)) <->
         In x (edges g) \/
         exists line ts,
           lbl = Some line /\ language G line i = Ok ts /\
           In (source x, relation x, target x) ts /\
           context x = fresh) /\
  match process_evidence Py K G lbl i ev {| graph := g; control_parser := c |},
        process_evidence Py K G lbl i ev {| graph := g; control_parser := c' |}
  with
  | Ok st, Ok st' => graph st = graph st'
  | Raise e, Raise e' => e = e'
  | _, _ => False
  end /\
  forall st x,
    process_evidence Py K G lbl i ev {| graph := g; control_parser := c |}
      = Ok st ->
    In x (edges (graph st)) ->
    In x (edges g) \/
    exists cit text ctx,
      get_citation Py K ev = Ok cit /\
      ev_summary_text ev = Some text /\
      ev_experiment_context ev = Some ctx /\
      context x = {| citation := cit;
                     evidence := Some (str_strip Py text);
                     annotations := Dict.update [] ctx |}.
Proof.
  split; [| split].
  - intros cit text ctx Hc Ht Hne Hph Hx fresh.
    split.
    { unfold load_context. rewrite Hc, Hx. reflexivity. }
    eexists. split.
    { apply (process_evidence_complete Py K G lbl i ev _ cit text ctx
               Hc Ht Hne Hph Hx). }
    split; [apply try_parse_control |].
    intro x.
    apply (try_parse_edges_iff K G lbl i
             (with_control {| graph := g; control_parser := c |}
                (record_context Py cit text ctx)) x).
    + simpl. apply (get_citation_keys Py K ev Hc).
    + discriminate.
  - unfold process_evidence.
    destruct (ev_citation ev) as [jc |]; [| reflexivity].
    destruct (negb (Dict.nonempty jc)); [reflexivity |].
    destruct (negb (Dict.mem "type" jc) && negb (Dict.mem "id" jc));
      [reflexivity |].
    destruct (ev_summary_text ev) as [text |]; cbn [bind subscript];
      [| reflexivity].
    destruct (negb (PyStr.nonempty (str_strip Py text))
              || String.eqb (str_strip Py text) placeholder_evidence);
      [reflexivity |].
    cbn [control_parser].
    rewrite (load_context_fresh Py K ev (str_strip Py text) c c').
    destruct (load_context Py K ev (str_strip Py text) c') as [c1 | e];
      cbn [bind]; reflexivity.
  - intros st x Hst Hx. apply process_evidence_Ok in Hst.
    destruct Hst as [-> | (cit & text & ctx & Hc & Ht & _ & _ & Hctx & ->)].
    + now left.
    + apply try_parse_edges in Hx. destruct Hx as [Hx | Hx]; [now left |].
      right. exists cit, text, ctx. repeat split; assumption.
Qed.

Lemma evidence_context_is_reset_witness :
  let fresh :=
    {| citation := [("type", "PubMed"); ("reference", "12345")];
       evidence := Some "B lowers C.";
       annotations := [("Species", Some "9606")] |} in
  let stale :=
    {| citation := [("type", "Other")]; evidence := Some "old";
       annotations := [("Cell", Some "x")] |} in
  load_context Demo.builtins Demo.constants (Samples.cited " B lowers C. ")
    "B lowers C." stale = Ok fresh /\
  exists st,
    process_evidence Demo.builtins Demo.constants Demo.grammar
      (Some "p(HGNC:B) decreases p(HGNC:C)") 1
      (Samples.cited " B lowers C. ")
      {| graph := empty_graph; control_parser := stale |} = Ok st /\
    control_parser st = fresh /\
    forall x,
      In x (edges (graph st)) <->
      In x (edges empty_graph) \/
      exists line ts,
        Some "p(HGNC:B) decreases p(HGNC:C)" = Some line /\
        language Demo.grammar line 1 = Ok ts /\
        In (source x, relation x, target x) ts /\
        context x = fresh.
Proof.
  intros fresh stale.
  apply (proj1 (evidence_context_is_reset Demo.builtins Demo.constants
                  Demo.grammar (Some "p(HGNC:B) decreases p(HGNC:C)") 1
                  (Samples.cited " B lowers C. ") empty_graph stale stale)
           [("type", "PubMed"); ("reference", "12345")] " B lowers C. "
           [("Species", Some "9606")]).
  - reflexivity.
  - reflexivity.
  - discriminate.
  - discriminate.
  - reflexivity.
Defined.

Section ImportLoops.
Variable Py : Builtins.
Variable K : Constants.
Variable G : Grammar.

Lemma process_evidences_edges (lbl : option string) (i : nat)
    (evs : list Evidence) (st st' : ParserState) (x : BELEdge) :
  process_evidences Py K G lbl i evs st = Ok st' ->
  (In x (edges (graph st')) <->
   In x (edges (graph st)) \/
   exists ev, In ev evs /\ from_evidence Py K G lbl i ev x).
Proof.
  revert st. induction evs as [|ev evs IH]; intros st H; simpl in H.
  - apply Ok_inj in H. subst st'. split; [auto |].
    intros [Hin | (ev & [] & _)]. exact Hin.
  - destruct (process_evidence Py K G lbl i ev st) as [st1 |] eqn:E;
      cbn [bind] in H; [| discriminate].
    rewrite (IH st1 H), (process_evidence_edges Py K G lbl i ev st st1 x E).
    split.
    + intros [[Hin | Hfrom] | (ev' & Hin & Hfrom)].
      * now left.
      * right. exists ev. split; [now left | exact Hfrom].
      * right. exists ev'. split; [now right | exact Hfrom].
    + intros [Hin | (ev' & [<- | Hin] & Hfrom)].
      * left. now left.
      * left. now right.
      * right. now exists ev'.
Qed.

Lemma process_edge_edges (i : nat) (edge : Edge) (st st' : ParserState)
    (x : BELEdge) :
  process_edge Py K G i edge st = Ok st' ->
  (In x (edges (graph st')) <->
   In x (edges (graph st)) \/ from_edge Py K G i edge x).
Proof.
  unfold process_edge, from_edge.
  destruct (is_legacy (edge_relation edge)).
  { intro H. apply Ok_inj in H. subst st'. split; [auto |].
    intros [Hin | (Hl & _)]; [exact Hin | discriminate]. }
  destruct (edge_metadata edge) as [md |].
  2:{ intro H. apply Ok_inj in H. subst st'. split; [auto |].
      intros [Hin | (_ & _ & md & evs & ev & Hmd & _)];
        [exact Hin | discriminate]. }
  destruct (is_unqualified K (edge_relation edge)).
  { intro H. apply Ok_inj in H. subst st'. split; [auto |].
    intros [Hin | (_ & Hu & _)]; [exact Hin | discriminate]. }
  destruct (md_evidences md) as [evs |] eqn:Eevs.
  2:{ intro H. apply Ok_inj in H. subst st'. split; [auto |].
      intros [Hin | (_ & _ & md' & evs & ev & Hmd & Hevs & _)];
        [exact Hin |].
      injection Hmd as <-. rewrite Eevs in Hevs. discriminate. }
  intro H.
  assert (H' : process_evidences Py K G (edge_label edge) i evs st = Ok st').
  { destruct evs; [exact H | exact H]. }
  rewrite (process_evidences_edges _ _ _ _ _ x H'). split.
  - intros [Hin | (ev & Hin & Hfrom)]; [now left | right].
    repeat split. now exists md, evs, ev.
  - intros [Hin | (_ & _ & md' & evs' & ev & Hmd & Hevs & Hin & Hfrom)];
      [now left | right].
    injection Hmd as <-. rewrite Eevs in Hevs. injection Hevs as <-.
    now exists ev.
Qed.

Lemma process_edges_edges (i : nat) (es : list Edge) (st st' : ParserState)
    (x : BELEdge) :
  process_edges Py K G i es st = Ok st' ->
  (In x (edges (graph st')) <->
   In x (edges (graph st)) \/
   exists j edge, nth_error es j = Some edge /\
                  from_edge Py K G (i + j) edge x).
Proof.
  revert i st. induction es as [|edge es IH]; intros i st H; simpl in H.
  - apply Ok_inj in H. subst st'. split; [auto |].
    intros [Hin | (j & edge & Hnth & _)]; [exact Hin |].
    destruct j; discriminate.
  - destruct (process_edge Py K G i edge st) as [st1 |] eqn:E;
      cbn [bind] in H; [| discriminate].
    rewrite (IH (S i) st1 H), (process_edge_edges i edge st st1 x E).
    split.
    + intros [[Hin | Hfrom] | (j & edge' & Hnth & Hfrom)].
      * now left.
      * right. exists 0, edge. rewrite Nat.add_0_r. now split.
      * right. exists (S j), edge'. rewrite Nat.add_succ_r. now split.
    + intros [Hin | (j & edge' & Hnth & Hfrom)].
      * left. now left.
      * destruct j as [|j]; simpl in Hnth.
        -- injection Hnth as <-. rewrite Nat.add_0_r in Hfrom.
           left. now right.
        -- right. exists j, edge'. rewrite Nat.add_succ_r in Hfrom.
           now split.
Qed.

End ImportLoops.

(** X4. The edges of the graph [from_jgif] returns are exactly the
    relations of the statements of the edge records that are neither
    legacy nor unqualified, each parsed with the position of its record
    as line number, under the context of each evidence record of it that
    passes the guards: citation from [get_citation], stripped summary
    text, experiment context. *)
Theorem imported_edges (Py : Builtins) (K : Constants) (G : Grammar)
    (d : JgifDocument) (g : BELGraph) (x : BELEdge) :
  from_jgif Py K G d = Ok g ->
  (In x (edges g) <->
   exists root es i edge,
     doc_graph d = Some root /\ graph_edges root = Some es /\
     nth_error es i = Some edge /\ from_edge Py K G i edge x).
Proof.
  intro H. apply from_jgif_Ok in H.
  destruct H as (root & ns & es & st1 & st2 & Hr & _ & He & Hn & Hes & ->).
  apply process_nodes_frame in Hn. destruct Hn as (_ & Hedges & _).
  rewrite (process_edges_edges Py K G 0 es st1 st2 x Hes), Hedges.
  assert (Hinit : edges (graph (new_parser (init_graph K root))) = []).
  { simpl. unfold init_graph.
    now destruct (graph_label root), (graph_metadata root). }
  rewrite Hinit. split.
  - intros [[] | (j & edge & Hnth & Hfrom)].
    now exists root, es, j, edge.
  - intros (root' & es' & j & edge & Hr' & He' & Hnth & Hfrom). right.
    rewrite Hr in Hr'. injection Hr' as <-.
    rewrite He in He'. injection He' as <-.
    now exists j, edge.
Qed.

Lemma imported_edges_witness :
  In {| source := "p(HGNC:B)"; target := "p(HGNC:C)";
        relation := "decreases";
        context := record_context Demo.builtins
                     [("type", "PubMed"); ("reference", "12345")]
                     "B lowers C." [("Species", Some "9606")] |}
     (edges
        (add_edge
           {| source := "p(HGNC:B)"; target := "p(HGNC:C)";
              relation := "decreases";
              context := record_context Demo.builtins
                           [("type", "PubMed"); ("reference", "12345")]
                           "B lowers C." [("Species", Some "9606")] |}
           empty_graph)) <->
  exists root es i edge,
    doc_graph
      (Demo.jgif []
         [Samples.translocation;
          Samples.decrease [Samples.uncited; Samples.cited "B lowers C."]])
    = Some root /\
    graph_edges root = Some es /\
    nth_error es i = Some edge /\
    from_edge Demo.builtins Demo.constants Demo.grammar i edge
      {| source := "p(HGNC:B)"; target := "p(HGNC:C)";
         relation := "decreases";
         context := record_context Demo.builtins
                      [("type", "PubMed"); ("reference", "12345")]
                      "B lowers C." [("Species", Some "9606")] |}.
Proof.
  apply (imported_edges Demo.builtins Demo.constants Demo.grammar
           (Demo.jgif []
              [Samples.translocation;
               Samples.decrease
                 [Samples.uncited; Samples.cited "B lowers C."]])).
  reflexivity.
Defined.

(* ================================================================= *)
(** ** The exceptions [from_jgif] can raise *)

Section RaiseFacts.
Variable Py : Builtins.
Variable K : Constants.
Variable G : Grammar.

Lemma process_evidence_Raise (lbl : option string) (i : nat)
    (ev : Evidence) (st : ParserState) (e : exn) :
  process_evidence Py K G lbl i ev st = Raise e ->
  exists key,
    e = KeyError key /\
    In key ["summary_text"; "type"; "id"; EXPERIMENT_CONTEXT].
Proof.
  unfold process_evidence, load_context, get_citation.
  destruct (ev_citation ev) as [jc |]; [| discriminate].
  destruct (negb (Dict.nonempty jc)); [discriminate |].
  destruct (negb (Dict.mem "type" jc) && negb (Dict.mem "id" jc));
    [discriminate |].
  destruct (ev_summary_text ev) as [text |]; cbn [bind subscript].
  2:{ intro H. injection H as <-. exists "summary_text". simpl. intuition. }
  destruct (negb (PyStr.nonempty (str_strip Py text))
            || String.eqb (str_strip Py text) placeholder_evidence);
    [discriminate |].
  destruct (Dict.get "type" jc) as [ty |]; cbn [bind subscript].
  2:{ intro H. injection H as <-. exists "type". simpl. intuition. }
  destruct (Dict.get "id" jc) as [id |]; cbn [bind subscript].
  2:{ intro H. injection H as <-. exists "id". simpl. intuition. }
  destruct (ev_experiment_context ev) as [ctx |].
  - destruct (Dict.get "name" jc); discriminate.
  - destruct (Dict.get "name" jc); cbn [bind subscript]; intro H;
      injection H as <-; exists EXPERIMENT_CONTEXT; simpl; intuition.
Qed.

Lemma process_evidences_Raise (lbl : option string) (i : nat)
    (evs : list Evidence) (st : ParserState) (e : exn) :
  process_evidences Py K G lbl i evs st = Raise e ->
  exists key,
    e = KeyError key /\
    In key ["summary_text"; "type"; "id"; EXPERIMENT_CONTEXT].
Proof.
  revert st. induction evs as [|ev evs IH]; intros st; simpl;
    [discriminate |].
  destruct (process_evidence Py K G lbl i ev st) as [st1 | e1] eqn:E;
    cbn [bind].
  - apply IH.
  - intro H. injection H as <-.
    eapply process_evidence_Raise; eassumption.
Qed.

Lemma process_edges_Raise (i : nat) (es : list Edge) (st : ParserState)
    (e : exn) :
  process_edges Py K G i es st = Raise e ->
  exists key,
    e = KeyError key /\
    In key ["summary_text"; "type"; "id"; EXPERIMENT_CONTEXT].
Proof.
  revert i st. induction es as [|edge es IH]; intros i st; simpl;
    [discriminate |].
  destruct (process_edge Py K G i edge st) as [st1 | e1] eqn:E; cbn [bind].
  - apply IH.
  - intro H. injection H as <-. unfold process_edge in E.
    destruct (is_legacy (edge_relation edge)); [discriminate |].
    destruct (edge_metadata edge) as [md |]; [| discriminate].
    destruct (is_unqualified K (edge_relation edge)); [discriminate |].
    destruct (md_evidences md) as [[|ev evs] |]; try discriminate.
    eapply process_evidences_Raise; eassumption.
Qed.

Lemma process_nodes_Raise (ns : list Node) (st : ParserState) (e : exn) :
  process_nodes G ns st = Raise e ->
  exists node label,
    In node ns /\ node_label node = Some label /\
    bel_term G label = Raise e /\ handled_node G node = false.
Proof.
  revert st. induction ns as [|node ns IH]; intros st; simpl;
    [discriminate |].
  destruct (process_node G node st) as [st1 | e1] eqn:E; cbn [bind].
  - intro H. destruct (IH st1 H) as (n & l & Hin & Hl & Hb & Hh).
    exists n, l. auto.
  - intro H. injection H as <-. exists node.
    unfold process_node, parse_term in E. unfold handled_node.
    destruct (node_label node) as [label |]; [| discriminate].
    exists label.
    destruct (bel_term G label) as [t | e0]; cbn [bind] in E;
      [discriminate |].
    destruct e0; try discriminate; injection E as <-; auto.
Qed.

End RaiseFacts.

(** X5. The exceptions that leave [from_jgif] are the [KeyError] of one
    of seven keys, ['graph'], ['nodes'], ['edges'], ['summary_text'],
    ['type'], ['id'] and ['experiment_context'], and what the term parser
    raises on a node label other than [NakedNameWarning] and
    [ParseException]. Nothing the statement parser raises leaves it. *)
Theorem from_jgif_exceptions (Py : Builtins) (K : Constants) (G : Grammar)
    (d : JgifDocument) (e : exn) :
  from_jgif Py K G d = Raise e ->
  (exists key,
     e = KeyError key /\
     In key ["graph"; "nodes"; "edges"; "summary_text"; "type"; "id";
             EXPERIMENT_CONTEXT]) \/
  (exists root ns node label,
     doc_graph d = Some root /\ graph_nodes root = Some ns /\
     In node ns /\ node_label node = Some label /\
     bel_term G label = Raise e /\ handled_node G node = false).
Proof.
  unfold from_jgif.
  destruct (doc_graph d) as [root |]; cbn [bind subscript].
  2:{ intro H. injection H as <-. left. exists "graph". simpl. intuition. }
  destruct (graph_nodes root) as [ns |] eqn:En; cbn [bind subscript].
  2:{ intro H. injection H as <-. left. exists "nodes". simpl. intuition. }
  destruct (process_nodes G ns (new_parser (init_graph K root)))
    as [st1 | e1] eqn:E1; cbn [bind subscript].
  2:{ intro H. injection H as <-. right.
      destruct (process_nodes_Raise G ns _ e1 E1)
        as (node & label & Hin & Hl & Hb & Hh).
      exists root, ns, node, label. repeat split; assumption. }
  destruct (graph_edges root) as [es |]; cbn [bind subscript].
  2:{ intro H. injection H as <-. left. exists "edges". simpl. intuition. }
  destruct (process_edges Py K G 0 es st1) as [st2 | e2] eqn:E2; cbn [bind];
    [discriminate |].
  intro H. injection H as <-. left.
  destruct (process_edges_Raise Py K G 0 es st1 e2 E2) as (key & -> & Hin).
  exists key. split; [reflexivity |]. simpl in *. intuition.
Qed.

Lemma from_jgif_exceptions_witness :
  (exists key,
     KeyError "summary_text" = KeyError key /\
     In key ["graph"; "nodes"; "edges"; "summary_text"; "type"; "id";
             EXPERIMENT_CONTEXT]) \/
  (exists root ns node label,
     doc_graph (Demo.jgif [] [Samples.increase [Samples.no_summary]])
       = Some root /\
     graph_nodes root = Some ns /\
     In node ns /\ node_label node = Some label /\
     bel_term Demo.grammar label = Raise (KeyError "summary_text") /\
     handled_node Demo.grammar node = false).
Proof.
  apply (from_jgif_exceptions Demo.builtins Demo.constants Demo.grammar
           (Demo.jgif [] [Samples.increase [Samples.no_summary]])
           (KeyError "summary_text")).
  reflexivity.
Defined.

(* ================================================================= *)
(** ** The keys [from_jgif] reads *)

(** A document cut down to the keys [from_jgif] reads: the label and the
    metadata of the graph, the label of a node, the relation, the label
    and the evidences of an edge, and the citation, the summary text and
    the experiment context of an evidence record. *)
Definition read_evidence (ev : Evidence) : Evidence :=
  {| ev_citation := ev_citation ev;
     ev_summary_text := ev_summary_text ev;
     ev_experiment_context := ev_experiment_context ev;
     ev_other := [] |}.

Definition read_metadata (md : EdgeMetadata) : EdgeMetadata :=
  {| md_evidences := option_map (map read_evidence) (md_evidences md);
     md_other := [] |}.

Definition read_edge (edge : Edge) : Edge :=
  {| edge_source := None;
     edge_target := None;
     edge_relation := edge_relation edge;
     edge_label := edge_label edge;
     edge_metadata := option_map read_metadata (edge_metadata edge) |}.

Definition read_node (node : Node) : Node :=
  {| node_id := None; node_label := node_label node |}.

Definition read_document (d : JgifDocument) : JgifDocument :=
  {| doc_graph :=
       option_map
         (fun root =>
            {| graph_label := graph_label root;
               graph_metadata := graph_metadata root;
               graph_nodes := option_map (map read_node) (graph_nodes root);
               graph_edges := option_map (map read_edge) (graph_edges root) |})
         (doc_graph d) |}.

Section ReadFacts.
Variable Py : Builtins.
Variable K : Constants.
Variable G : Grammar.

Lemma process_nodes_read (ns : list Node) (st : ParserState) :
  process_nodes G (map read_node ns) st = process_nodes G ns st.
Proof.
  revert st. induction ns as [|node ns IH]; intro st; simpl;
    [reflexivity |].
  change (process_node G (read_node node) st) with (process_node G node st).
  destruct (process_node G node st); cbn [bind]; [apply IH | reflexivity].
Qed.

Lemma process_evidences_read (lbl : option string) (i : nat)
    (evs : list Evidence) (st : ParserState) :
  process_evidences Py K G lbl i (map read_evidence evs) st
  = process_evidences Py K G lbl i evs st.
Proof.
  revert st. induction evs as [|ev evs IH]; intro st; simpl;
    [reflexivity |].
  change (process_evidence Py K G lbl i (read_evidence ev) st)
    with (process_evidence Py K G lbl i ev st).
  destruct (process_evidence Py K G lbl i ev st); cbn [bind];
    [apply IH | reflexivity].
Qed.

Lemma process_edge_read (i : nat) (edge : Edge) (st : ParserState) :
  process_edge Py K G i (read_edge edge) st = process_edge Py K G i edge st.
Proof.
  unfold process_edge. simpl.
  destruct (is_legacy (edge_relation edge)); [reflexivity |].
  destruct (edge_metadata edge) as [md |]; [| reflexivity]. simpl.
  destruct (is_unqualified K (edge_relation edge)); [reflexivity |].
  destruct (md_evidences md) as [[|ev evs] |]; try reflexivity.
  apply (process_evidences_read (edge_label edge) i (ev :: evs) st).
Qed.

Lemma process_edges_read (i : nat) (es : list Edge) (st : ParserState) :
  process_edges Py K G i (map read_edge es) st = process_edges Py K G i es st.
Proof.
  revert i st. induction es as [|edge es IH]; intros i st; simpl;
    [reflexivity |].
  rewrite process_edge_read.
  destruct (process_edge Py K G i edge st); cbn [bind];
    [apply IH | reflexivity].
Qed.

End ReadFacts.

(** X6. [from_jgif] reads nothing of a document but the label and the
    metadata of the graph, the labels of the nodes, the relation, the
    label and the evidences of each edge, and the citation, the summary
    text and the experiment context of each evidence record: the ids of
    the nodes, the source and the target of the edges and every other key
    change neither the graph returned nor the exception raised. *)
Theorem from_jgif_reads_labels_only (Py : Builtins) (K : Constants)
    (G : Grammar) (d : JgifDocument) :
  from_jgif Py K G (read_document d) = from_jgif Py K G d.
Proof.
  unfold from_jgif, read_document. simpl.
  destruct (doc_graph d) as [root |]; [| reflexivity].
  simpl. cbn [bind subscript].
  change (init_graph K
            {| graph_label := graph_label root;
               graph_metadata := graph_metadata root;
               graph_nodes := option_map (map read_node) (graph_nodes root);
               graph_edges := option_map (map read_edge) (graph_edges root) |})
    with (init_graph K root).
  destruct (graph_nodes root) as [ns |]; [| reflexivity].
  simpl. cbn [bind subscript]. rewrite process_nodes_read.
  destruct (process_nodes G ns (new_parser (init_graph K root)));
    cbn [bind]; [| reflexivity].
  destruct (graph_edges root) as [es |]; [| reflexivity].
  simpl. cbn [bind subscript]. now rewrite process_edges_read.
Qed.

(* ================================================================= *)
(** ** When [map_cbn] returns, and what it leaves in a context *)

Lemma map_context_total (Py : Builtins) (items acc : ExperimentContext) :
  (forall entry, In entry items -> ~ unknown_species Py entry) ->
  exists res, map_context Py items acc = Ok res.
Proof.
  revert acc. induction items as [|[key value] rest IH]; intros acc Hok.
  - now exists acc.
  - assert (Hrest : forall entry, In entry rest -> ~ unknown_species Py entry).
    { intros entry Hin. apply Hok. now right. }
    pose proof (map_context_step Py key value rest acc) as Hstep.
    destruct value as [v |]; [| rewrite Hstep; now apply IH].
    destruct (kept Py v) eqn:Hv; [| rewrite Hstep; now apply IH].
    destruct (String.eqb (str_lower Py (str_strip Py key))
                "species_common_name") eqn:Hk;
      [| rewrite Hstep; now apply IH].
    destruct (Dict.get (str_lower Py (str_strip Py v)) species_map) eqn:Hs;
      [rewrite Hstep; now apply IH |].
    exfalso. apply (Hok (key, Some v)); [now left |].
    apply kept_true in Hv. destruct Hv as [Hv0 Hv].
    exists v. simpl. repeat split.
    + now apply String.eqb_eq.
    + exact Hv0.
    + exact Hv.
    + exact Hs.
Qed.

Lemma map_evidences_total (Py : Builtins) (evs : list Evidence) :
  (forall ev items entry,
     In ev evs -> ev_experiment_context ev = Some items ->
     In entry items -> ~ unknown_species Py entry) ->
  snd (map_evidences Py evs) = None.
Proof.
  induction evs as [|ev evs IH]; intro Hok; simpl; [reflexivity |].
  assert (Hrest : snd (map_evidences Py evs) = None).
  { apply IH. intros ev' items entry Hin. apply Hok. now right. }
  destruct (ev_experiment_context ev) as [items |] eqn:Ectx.
  - destruct (map_context_total Py items []) as (res & ->).
    + intros entry Hin. apply (Hok ev items entry); auto. now left.
    + now destruct (map_evidences Py evs).
  - now destruct (map_evidences Py evs).
Qed.

Lemma map_edges_total (Py : Builtins) (es : list Edge) :
  (forall edge md evs ev items entry,
     In edge es -> edge_metadata edge = Some md ->
     md_evidences md = Some evs -> In ev evs ->
     ev_experiment_context ev = Some items ->
     In entry items -> ~ unknown_species Py entry) ->
  snd (map_edges Py es) = None.
Proof.
  induction es as [|edge es IH]; intro Hok; simpl; [reflexivity |].
  assert (Hrest : snd (map_edges Py es) = None).
  { apply IH. intros edge' md evs ev items entry Hin. apply Hok. now right. }
  destruct (edge_metadata edge) as [md |] eqn:Emd;
    [| now destruct (map_edges Py es)].
  destruct (md_evidences md) as [evs |] eqn:Eevs;
    [| now destruct (map_edges Py es)].
  assert (Hevs : snd (map_evidences Py evs) = None).
  { apply map_evidences_total. intros ev items entry Hin.
    apply (Hok edge md evs ev items entry); auto. now left. }
  destruct (map_evidences Py evs) as [evs' raised]. simpl in Hevs.
  subst raised. now destruct (map_edges Py es).
Qed.

(** X7. [map_cbn] returns exactly when the document has its graph with
    edges and no experiment context of any evidence record has a
    [species_common_name] entry with a value, neither empty nor empty
    once stripped, outside [species_map]; otherwise it raises. *)
Theorem map_cbn_returns_iff (Py : Builtins) (d : JgifDocument) :
  snd (map_cbn Py d) = None <->
  (exists root es, doc_graph d = Some root /\ graph_edges root = Some es) /\
  (forall ev items entry,
     evidence_of d ev -> ev_experiment_context ev = Some items ->
     In entry items -> ~ unknown_species Py entry).
Proof.
  split.
  - intro H. split.
    + unfold map_cbn in H.
      destruct (doc_graph d) as [root |]; [| discriminate].
      destruct (graph_edges root) as [es |] eqn:Ee; [| discriminate].
      now exists root, es.
    + intros ev items entry
             (root & es & edge & md & evs & Hr & He & Hin & Hmd & Hevs & Hev)
             Hctx Hentry Hbad.
      destruct (@map_edges_unknown_species Py es edge md evs ev items entry
                  Hin Hmd Hevs Hev Hctx Hentry Hbad) as (key & Hkey).
      unfold map_cbn in H. rewrite Hr, He in H.
      destruct (map_edges Py es) as [es' raised]. simpl in *. congruence.
  - intros [(root & es & Hr & He) Hok].
    unfold map_cbn. rewrite Hr, He.
    assert (H : snd (map_edges Py es) = None).
    { apply map_edges_total. intros edge md evs ev items entry
                                    Hin Hmd Hevs Hev.
      apply Hok. now exists root, es, edge, md, evs. }
    now destruct (map_edges Py es).
Qed.

(** The identifiers [map_cbn] files a species under. *)
Definition taxonomy_ids : list (option string) :=
  [Some "9606"; Some "10116"; Some "10090"].

Lemma lower_not_Species (Py : Builtins) (s : string) :
  lower_is_lowercase Py -> str_lower Py s <> "Species".
Proof.
  intros Hlow H. specialize (Hlow s). rewrite H in Hlow. discriminate.
Qed.

Lemma annotation_map_names (key name : string) :
  Dict.get key annotation_map = Some name ->
  Dict.get name annotation_map = None /\
  (name = "Species" -> key = "species_common_name").
Proof.
  unfold annotation_map. simpl.
  destruct (String.eqb key "tissue");
    [intro H; injection H as <-; split; [reflexivity | discriminate] |].
  destruct (String.eqb key "disease");
    [intro H; injection H as <-; split; [reflexivity | discriminate] |].
  destruct (String.eqb key "species_common_name") eqn:E.
  { intro H. injection H as <-. split; [reflexivity |].
    intros _. now apply String.eqb_eq. }
  destruct (String.eqb key "cell");
    [intro H; injection H as <-; split; [reflexivity | discriminate] |].
  discriminate.
Qed.

Lemma renamed_key_not_annotation (Py : Builtins) (key : string) :
  Dict.get (renamed_key Py key) annotation_map = None.
Proof.
  unfold renamed_key.
  destruct (Dict.get (str_lower Py (str_strip Py key)) annotation_map)
    as [name |] eqn:E; [| exact E].
  now apply annotation_map_names in E.
Qed.

Lemma renamed_key_Species (Py : Builtins) (key : string) :
  lower_is_lowercase Py ->
  renamed_key Py key = "Species" ->
  str_lower Py (str_strip Py key) = "species_common_name".
Proof.
  unfold renamed_key.
  destruct (Dict.get (str_lower Py (str_strip Py key)) annotation_map)
    as [name |] eqn:E.
  - intros _ Hn. apply annotation_map_names in E. now apply E.
  - intros Hlow H. exfalso.
    now apply (lower_not_Species Py (str_strip Py key) Hlow).
Qed.

Lemma species_map_codes (species code : string) :
  Dict.get species species_map = Some code -> In (Some code) taxonomy_ids.
Proof.
  unfold species_map, taxonomy_ids. simpl.
  destruct (String.eqb species "human");
    [intro H; injection H as <-; auto |].
  destruct (String.eqb species "rat");
    [intro H; injection H as <-; auto |].
  destruct (String.eqb species "mouse");
    [intro H; injection H as <-; auto | discriminate].
Qed.

Lemma map_context_species (Py : Builtins) (items acc res : ExperimentContext)
    :
  lower_is_lowercase Py ->
  map_context Py items acc = Ok res ->
  (forall v, Dict.get "Species" acc = Some v -> In v taxonomy_ids) ->
  forall v, Dict.get "Species" res = Some v -> In v taxonomy_ids.
Proof.
  intro Hlow.
  revert acc. induction items as [|[key value] rest IH]; intros acc H Hacc.
  - simpl in H. apply Ok_inj in H. now subst res.
  - pose proof (map_context_step Py key value rest acc) as Hstep.
    destruct value as [v |];
      [| rewrite Hstep in H; now apply (IH acc)].
    destruct (kept Py v);
      [| rewrite Hstep in H; now apply (IH acc)].
    destruct (String.eqb (str_lower Py (str_strip Py key))
                "species_common_name") eqn:Hk.
    + destruct (Dict.get (str_lower Py (str_strip Py v)) species_map)
        as [code |] eqn:Hs; rewrite Hstep in H; [| discriminate].
      apply (IH _ H). intros w Hw.
      destruct (string_dec "Species" (renamed_key Py key)) as [E | E].
      * rewrite <- E, Dict.get_set_same in Hw. injection Hw as <-.
        eapply species_map_codes; eassumption.
      * rewrite Dict.get_set_other in Hw by assumption. now apply Hacc.
    + rewrite Hstep in H. apply (IH _ H). intros w Hw.
      rewrite Dict.get_set_other in Hw; [now apply Hacc |].
      intro E. symmetry in E. apply (renamed_key_Species Py key Hlow) in E.
      apply String.eqb_neq in Hk. contradiction.
Qed.

Lemma Forall2_In_r (A B : Type) (R : A -> B -> Prop) (l : list A)
    (l' : list B) (y : B) :
  Forall2 R l l' -> In y l' -> exists x, In x l /\ R x y.
Proof.
  induction 1 as [|x y0 l l' Hxy Hrest IH]; intro Hin; [contradiction |].
  destruct Hin as [<- | Hin].
  - exists x. split; [now left | exact Hxy].
  - destruct (IH Hin) as (x' & Hin' & Hr). exists x'. split;
      [now right | exact Hr].
Qed.

(** Every context of a document [map_cbn] returns is the result of the
    loop of [map_context] on a context of the document it was given. *)
Lemma map_cbn_output_context (Py : Builtins) (d : JgifDocument)
    (ev' : Evidence) (items' : ExperimentContext) :
  snd (map_cbn Py d) = None ->
  evidence_of (fst (map_cbn Py d)) ev' ->
  ev_experiment_context ev' = Some items' ->
  exists ev items,
    evidence_of d ev /\ ev_experiment_context ev = Some items /\
    map_context Py items [] = Ok items'.
Proof.
  intros Hret (root' & es' & edge' & md' & evs' & Hr' & He' & Hin' & Hmd'
               & Hevs' & Hev') Hctx'.
  pose proof (map_cbn_frame Py
                (fun items items' => map_context Py items [] = Ok items')
                (fun items items' H => H) d (or_intror Hret)) as Hframe.
  unfold document_frame in Hframe. rewrite Hr' in Hframe.
  destruct (doc_graph d) as [root |] eqn:Er; [| contradiction].
  destruct Hframe as (_ & _ & _ & Hes). rewrite He' in Hes.
  destruct (graph_edges root) as [es |] eqn:Ee; [| contradiction].
  destruct (Forall2_In_r _ _ _ _ _ _ Hes Hin')
    as (edge & Hin & (_ & _ & _ & _ & Hmd)).
  unfold metadata_frame in Hmd. rewrite Hmd' in Hmd.
  destruct (edge_metadata edge) as [md |] eqn:Emd; [| contradiction].
  destruct Hmd as (_ & Hevs). rewrite Hevs' in Hevs.
  destruct (md_evidences md) as [evs |] eqn:Eevs; [| contradiction].
  destruct (Forall2_In_r _ _ _ _ _ _ Hevs Hev')
    as (ev & Hev & (_ & _ & _ & Hctx)).
  rewrite Hctx' in Hctx.
  destruct (ev_experiment_context ev) as [items |] eqn:Ectx;
    [| contradiction].
  exists ev, items. repeat split; try assumption.
  now exists root, es, edge, md, evs.
Qed.

(** X8. In a document [map_cbn] returns, no experiment context has a
    key of [annotation_map] left (['tissue'], ['disease'],
    ['species_common_name'], ['cell']), and, [str.lower] leaving no
    capital letter in its result, a ['Species'] entry always holds one of
    the three identifiers of [species_map]. *)
Theorem map_cbn_contexts_normalised (Py : Builtins) (d : JgifDocument)
    (ev' : Evidence) (items' : ExperimentContext) :
  snd (map_cbn Py d) = None ->
  evidence_of (fst (map_cbn Py d)) ev' ->
  ev_experiment_context ev' = Some items' ->
  (forall k, In k (Dict.keys items') -> Dict.get k annotation_map = None) /\
  (lower_is_lowercase Py ->
   forall v, Dict.get "Species" items' = Some v -> In v taxonomy_ids).
Proof.
  intros Hret Hev Hctx.
  destruct (map_cbn_output_context Py d ev' items' Hret Hev Hctx)
    as (ev & items & _ & _ & Hmap).
  split.
  - intros k Hk. apply map_context_keys in Hmap. destruct Hmap as [Hkeys _].
    apply Hkeys in Hk. destruct Hk as [[] | (k0 & v & _ & _ & _ & ->)].
    apply renamed_key_not_annotation.
  - intro Hlow.
    apply (map_context_species Py items [] items' Hlow Hmap). discriminate.
Qed.

Lemma map_cbn_contexts_normalised_witness :
  (forall k, In k (Dict.keys [("Species", Some "9606");
                              ("Tissue", Some "lung")]) ->
             Dict.get k annotation_map = None) /\
  (forall v, Dict.get "Species" [("Species", Some "9606");
                                 ("Tissue", Some "lung")] = Some v ->
             In v taxonomy_ids).
Proof.
  destruct (map_cbn_contexts_normalised Demo.builtins
              (Samples.cbn [(" Species_Common_Name", Some " Human ");
                            ("Tissue ", Some "lung")])
              (Demo.evidence_record (Some (Demo.pubmed "12345"))
                 (Some "A raises B.")
                 (Some [("Species", Some "9606"); ("Tissue", Some "lung")]))
              [("Species", Some "9606"); ("Tissue", Some "lung")])
    as [Hkeys Hspecies].
  - reflexivity.
  - unfold evidence_of. do 5 eexists.
    repeat split; first [reflexivity | simpl; left; reflexivity].
  - reflexivity.
  - split; [exact Hkeys | exact (Hspecies Demo.builtins_lowercase)].
Defined.

(* ================================================================= *)
(** ** What [from_cbn_jgif] adds to [from_jgif] *)

(** The two URL dictionaries, which parsing does not write. *)
Definition same_urls (g g' : BELGraph) : Prop :=
  namespace_url g' = namespace_url g /\ annotation_url g' = annotation_url g.

Lemma same_urls_refl (g : BELGraph) : same_urls g g.
Proof. now split. Qed.

Lemma same_urls_trans (g1 g2 g3 : BELGraph) :
  same_urls g1 g2 -> same_urls g2 g3 -> same_urls g1 g3.
Proof. unfold same_urls. intros [A B] [A' B']. split; congruence. Qed.

Lemma register_node_urls (t : term) (g : BELGraph) :
  same_urls g (register_node t g).
Proof.
  unfold register_node. destruct (in_dec string_dec t (nodes g)); now split.
Qed.

Lemma add_edge_urls (e : BELEdge) (g : BELGraph) :
  same_urls g (add_edge e g).
Proof.
  unfold add_edge.
  set (g' := register_node (target e) (register_node (source e) g)).
  assert (H : same_urls g g').
  { eapply same_urls_trans; apply register_node_urls. }
  destruct (in_dec BELEdge_eq_dec e (edges g')); [exact H |].
  destruct H as [A B]. now split.
Qed.

Lemma fold_add_edge_urls (c : Context) (ts : list triple) (g : BELGraph) :
  same_urls g (fold_left (fun g t => add_edge (snapshot c t) g) ts g).
Proof.
  revert g. induction ts as [|t ts IH]; intro g; simpl.
  - apply same_urls_refl.
  - eapply same_urls_trans; [apply add_edge_urls | apply IH].
Qed.

Section UrlFacts.
Variable Py : Builtins.
Variable K : Constants.
Variable G : Grammar.

Lemma try_parse_urls (lbl : option string) (i : nat) (st : ParserState) :
  same_urls (graph st) (graph (try_parse K G lbl i st)).
Proof.
  unfold try_parse, parseString.
  destruct lbl as [line |]; [| apply same_urls_refl].
  destruct (language G line i) as [ts |]; cbn [bind];
    [| apply same_urls_refl].
  destruct (find (lacks_context K (control_parser st)) ts) as [[[s r] o] |];
    [apply same_urls_refl |].
  simpl. apply fold_add_edge_urls.
Qed.

Lemma process_evidences_urls (lbl : option string) (i : nat)
    (evs : list Evidence) (st st' : ParserState) :
  process_evidences Py K G lbl i evs st = Ok st' ->
  same_urls (graph st) (graph st').
Proof.
  revert st. induction evs as [|ev evs IH]; intros st H; simpl in H.
  - apply Ok_inj in H. subst st'. apply same_urls_refl.
  - destruct (process_evidence Py K G lbl i ev st) as [st1 |] eqn:E;
      cbn [bind] in H; [| discriminate].
    eapply same_urls_trans; [| apply (IH st1 H)].
    apply process_evidence_Ok in E.
    destruct E as [-> | (cit & text & ctx & _ & _ & _ & _ & _ & ->)];
      [apply same_urls_refl |].
    apply (try_parse_urls lbl i
             (with_control st (record_context Py cit text ctx))).
Qed.

Lemma process_edges_urls (i : nat) (es : list Edge) (st st' : ParserState) :
  process_edges Py K G i es st = Ok st' -> same_urls (graph st) (graph st').
Proof.
  revert i st. induction es as [|edge es IH]; intros i st H; simpl in H.
  - apply Ok_inj in H. subst st'. apply same_urls_refl.
  - destruct (process_edge Py K G i edge st) as [st1 |] eqn:E;
      cbn [bind] in H; [| discriminate].
    eapply same_urls_trans; [| apply (IH (S i) st1 H)].
    unfold process_edge in E.
    destruct (is_legacy (edge_relation edge));
      [apply Ok_inj in E; subst; apply same_urls_refl |].
    destruct (edge_metadata edge) as [md |];
      [| apply Ok_inj in E; subst; apply same_urls_refl].
    destruct (is_unqualified K (edge_relation edge));
      [apply Ok_inj in E; subst; apply same_urls_refl |].
    destruct (md_evidences md) as [[|ev evs] |];
      try (apply Ok_inj in E; subst; apply same_urls_refl).
    eapply process_evidences_urls; eassumption.
Qed.

Lemma process_nodes_urls (ns : list Node) (st st' : ParserState) :
  process_nodes G ns st = Ok st' -> same_urls (graph st) (graph st').
Proof.
  revert st. induction ns as [|node ns IH]; intros st H; simpl in H.
  - apply Ok_inj in H. subst st'. apply same_urls_refl.
  - destruct (process_node G node st) as [st1 |] eqn:E;
      cbn [bind] in H; [| discriminate].
    eapply same_urls_trans; [| apply (IH st1 H)].
    unfold process_node, parse_term in E.
    destruct (node_label node) as [label |];
      [| apply Ok_inj in E; subst; apply same_urls_refl].
    destruct (bel_term G label) as [t | e]; cbn [bind] in E.
    + apply Ok_inj in E. subst st1. simpl. apply register_node_urls.
    + destruct e; try discriminate; apply Ok_inj in E; subst;
        apply same_urls_refl.
Qed.

(** The graph [from_jgif] returns has the name and the document it was
    initialised with, and no URL. *)
Lemma from_jgif_attributes (d : JgifDocument) (g : BELGraph) :
  from_jgif Py K G d = Ok g ->
  exists root,
    doc_graph d = Some root /\
    document g = document (init_graph K root) /\
    namespace_url g = [] /\ annotation_url g = [].
Proof.
  intro H. apply from_jgif_Ok in H.
  destruct H as (root & ns & es & st1 & st2 & Hr & _ & _ & Hn & He & ->).
  exists root. split; [exact Hr |].
  pose proof (process_nodes_urls ns _ _ Hn) as [U1 U1'].
  pose proof (process_edges_urls 0 es _ _ He) as [U2 U2'].
  apply process_nodes_frame in Hn. destruct Hn as ((_ & Hd1 & _) & _).
  apply process_edges_extends in He. destruct He as [(_ & Hd2 & _) _].
  assert (Hinit : namespace_url (init_graph K root) = [] /\
                  annotation_url (init_graph K root) = []).
  { unfold init_graph.
    now destruct (graph_label root), (graph_metadata root). }
  destruct Hinit as [I1 I2]. simpl in *.
  repeat split; congruence.
Qed.

End UrlFacts.

Lemma map_edges_raises (Py : Builtins) (es : list Edge) (e : exn) :
  snd (map_edges Py es) = Some e -> exists key, e = KeyError key.
Proof.
  induction es as [|edge es IH]; simpl; [discriminate |].
  destruct (edge_metadata edge) as [md |];
    [| destruct (map_edges Py es); exact IH].
  destruct (md_evidences md) as [evs |];
    [| destruct (map_edges Py es); exact IH].
  pose proof (map_evidences_raises Py evs) as Hevs.
  destruct (map_evidences Py evs) as [evs' [e0 |]].
  - simpl. intro H. injection H as <-. now apply Hevs.
  - destruct (map_edges Py es). exact IH.
Qed.

(** X9. The graph [from_cbn_jgif] returns has exactly the three
    namespace URLs and the four annotation URLs of the CBN. Its document
    binds the licences key, when it is an insert key, to the licence text
    with a tab for every line break, and the authors key, when it is an
    insert key other than the licences key, to the name of the database,
    whatever the document said. *)
Theorem from_cbn_jgif_attributes (Py : Builtins) (K : Constants) (G : Grammar)
    (d : JgifDocument) (g : BELGraph) :
  from_cbn_jgif Py K G d = Ok g ->
  namespace_url g = cbn_namespace_urls /\
  annotation_url g = cbn_annotation_urls /\
  (string_mem (METADATA_LICENSES K) (METADATA_INSERT_KEYS K) = true ->
   Dict.get (METADATA_LICENSES K) (document g)
   = Some (PyStr.replace_char "010"%char "009"%char cbn_license_text)) /\
  (string_mem (METADATA_AUTHORS K) (METADATA_INSERT_KEYS K) = true ->
   METADATA_AUTHORS K <> METADATA_LICENSES K ->
   Dict.get (METADATA_AUTHORS K) (document g)
   = Some "Causal Biological Networks Database").
Proof.
  unfold from_cbn_jgif, update_cbn_metadata.
  remember (PyStr.replace_char "010"%char "009"%char cbn_license_text)
    as text eqn:Htext.
  clear Htext.
  destruct (map_cbn Py d) as [d1 [e |]]; [discriminate |].
  destruct (doc_graph d1) as [root |]; cbn [bind subscript];
    [| discriminate].
  destruct (graph_metadata root) as [metadata |]; cbn [bind subscript];
    [| discriminate].
  match goal with
  | |- context [from_jgif Py K G ?doc] =>
      destruct (from_jgif Py K G doc) as [g0 |] eqn:E
  end; cbn [bind]; [| discriminate].
  intro H. apply Ok_inj in H. subst g.
  apply from_jgif_attributes in E.
  destruct E as (root0 & Hr0 & Hdoc & Hns & Han).
  cbn [doc_graph] in Hr0. apply (f_equal (fun o => match o with
                                                   | Some r => r
                                                   | None => root
                                                   end)) in Hr0.
  cbn beta iota in Hr0. subst root0.
  cbn [namespace_url annotation_url document with_urls].
  rewrite Hns, Han. split; [reflexivity |]. split; [reflexivity |].
  rewrite Hdoc. unfold init_graph. cbn [graph_label graph_metadata].
  assert (Hget : forall k g1,
            document g1 = [] ->
            string_mem k (METADATA_INSERT_KEYS K) = true ->
            Dict.get k
              (document
                 (with_document g1
                    (insert_metadata (METADATA_INSERT_KEYS K)
                       (Dict.set (METADATA_LICENSES K) text
                          (Dict.set (METADATA_AUTHORS K)
                             "Causal Biological Networks Database"
                             metadata))
                       (document g1))))
            = Dict.get k
                (Dict.set (METADATA_LICENSES K) text
                   (Dict.set (METADATA_AUTHORS K)
                      "Causal Biological Networks Database" metadata))).
  { intros k g1 Hg1 Hk. cbn [document with_document].
    rewrite insert_metadata_get, Hk, Hg1.
    now destruct (Dict.get k _). }
  cbn [Dict.update].
  assert (Hempty : document
                     match graph_label root with
                     | Some label => with_name empty_graph label
                     | None => empty_graph
                     end = []).
  { now destruct (graph_label root). }
  split.
  - intro Hin. rewrite (Hget _ _ Hempty Hin). apply Dict.get_set_same.
  - intros Hin Hne. rewrite (Hget _ _ Hempty Hin).
    rewrite Dict.get_set_other by assumption. apply Dict.get_set_same.
Qed.

Lemma from_cbn_jgif_attributes_witness :
  namespace_url
    match Demo.from_cbn_jgif (Samples.cbn [("tissue", Some "lung")]) with
    | Ok g => g
    | Raise _ => empty_graph
    end = cbn_namespace_urls /\
  annotation_url
    match Demo.from_cbn_jgif (Samples.cbn [("tissue", Some "lung")]) with
    | Ok g => g
    | Raise _ => empty_graph
    end = cbn_annotation_urls /\
  (string_mem "licenses" (METADATA_INSERT_KEYS Demo.constants) = true ->
   Dict.get "licenses"
     (document
        match Demo.from_cbn_jgif (Samples.cbn [("tissue", Some "lung")]) with
        | Ok g => g
        | Raise _ => empty_graph
        end)
   = Some (PyStr.replace_char "010"%char "009"%char cbn_license_text)) /\
  (string_mem "authors" (METADATA_INSERT_KEYS Demo.constants) = true ->
   "authors" <> "licenses" ->
   Dict.get "authors"
     (document
        match Demo.from_cbn_jgif (Samples.cbn [("tissue", Some "lung")]) with
        | Ok g => g
        | Raise _ => empty_graph
        end)
   = Some "Causal Biological Networks Database").
Proof.
  apply (from_cbn_jgif_attributes Demo.builtins Demo.constants Demo.grammar
           (Samples.cbn [("tissue", Some "lung")])).
  reflexivity.
Defined.

(** X10. [from_cbn_jgif] needs the ['metadata'] of the graph, which
    [from_jgif] does without: on a document whose graph has none it
    raises a [KeyError] and returns no graph. *)
Theorem from_cbn_jgif_needs_metadata (Py : Builtins) (K : Constants)
    (G : Grammar) (d : JgifDocument) (root : JgifGraph) :
  doc_graph d = Some root ->
  graph_metadata root = None ->
  exists key, from_cbn_jgif Py K G d = Raise (KeyError key).
Proof.
  intros Hr Hm. unfold from_cbn_jgif, map_cbn. rewrite Hr.
  destruct (graph_edges root) as [es |]; [| now exists "edges"].
  pose proof (map_edges_raises Py es) as Hraise.
  destruct (map_edges Py es) as [es' [e |]].
  - destruct (Hraise e eq_refl) as (key & ->). now exists key.
  - unfold update_cbn_metadata, set_edges. cbn [doc_graph bind subscript].
    cbn [graph_metadata]. rewrite Hm. now exists "metadata".
Qed.

Lemma from_cbn_jgif_needs_metadata_witness :
  exists key,
    from_cbn_jgif Demo.builtins Demo.constants Demo.grammar
      (Demo.jgif [] [Samples.increase [Samples.cited "A raises B."]])
    = Raise (KeyError key).
Proof.
  apply (from_cbn_jgif_needs_metadata Demo.builtins Demo.constants Demo.grammar
           (Demo.jgif [] [Samples.increase [Samples.cited "A raises B."]])
           {| graph_label := None; graph_metadata := None;
              graph_nodes := Some [];
              graph_edges :=
                Some [Samples.increase [Samples.cited "A raises B."]] |}).
  - reflexivity.
  - reflexivity.
Defined.

Lemma set_NoDup (V : Type) (key : string) (v : V) (d : dict V) :
  NoDup (Dict.keys d) -> NoDup (Dict.keys (Dict.set key v d)).
Proof.
  induction d as [|[k w] rest IH]; simpl; intro H.
  - constructor; [intros [] | constructor].
  - inversion H as [|x l Hnotin Hnd]; subst.
    destruct (String.eqb key k) eqn:E; simpl.
    + constructor; assumption.
    + constructor; [| now apply IH].
      intro Hin. apply (Dict.keys_set key v rest k) in Hin.
      destruct Hin as [-> | Hin]; [| contradiction].
      now rewrite String.eqb_refl in E.
Qed.

Lemma map_context_NoDup (Py : Builtins) (items acc res : ExperimentContext) :
  map_context Py items acc = Ok res ->
  NoDup (Dict.keys acc) -> NoDup (Dict.keys res).
Proof.
  revert acc. induction items as [|[key value] rest IH]; intros acc H Hacc.
  - simpl in H. apply Ok_inj in H. now subst res.
  - pose proof (map_context_step Py key value rest acc) as Hstep.
    destruct value as [v |];
      [| rewrite Hstep in H; now apply (IH acc)].
    destruct (kept Py v);
      [| rewrite Hstep in H; now apply (IH acc)].
    destruct (String.eqb (str_lower Py (str_strip Py key))
                "species_common_name").
    + destruct (Dict.get (str_lower Py (str_strip Py v)) species_map);
        rewrite Hstep in H; [| discriminate].
      apply (IH _ H). now apply set_NoDup.
    + rewrite Hstep in H. apply (IH _ H). now apply set_NoDup.
Qed.

(** X11. In the graph [from_cbn_jgif] returns, the annotations of every
    edge have no key of [annotation_map] left, and, [str.lower] leaving
    no capital letter in its result, a ['Species'] annotation is always
    one of the three identifiers of [species_map]. *)
Theorem from_cbn_jgif_annotations (Py : Builtins) (K : Constants)
    (G : Grammar) (d : JgifDocument) (g : BELGraph) (x : BELEdge) :
  from_cbn_jgif Py K G d = Ok g ->
  In x (edges g) ->
  (forall k, In k (Dict.keys (annotations (context x))) ->
             Dict.get k annotation_map = None) /\
  (lower_is_lowercase Py ->
   forall v, Dict.get "Species" (annotations (context x)) = Some v ->
             In v taxonomy_ids).
Proof.
  unfold from_cbn_jgif, update_cbn_metadata.
  remember (PyStr.replace_char "010"%char "009"%char cbn_license_text)
    as text eqn:Htext.
  clear Htext.
  destruct (map_cbn Py d) as [d1 [e |]] eqn:Emap; [discriminate |].
  destruct (doc_graph d1) as [root |] eqn:Er; cbn [bind subscript];
    [| discriminate].
  destruct (graph_metadata root) as [metadata |]; cbn [bind subscript];
    [| discriminate].
  match goal with
  | |- context [from_jgif Py K G ?doc] =>
      destruct (from_jgif Py K G doc) as [g0 |] eqn:E
  end; cbn [bind]; [| discriminate].
  intros H Hx. apply Ok_inj in H. subst g. cbn [edges with_urls] in Hx.
  apply from_jgif_Ok in E.
  destruct E as (root0 & ns & es & st1 & st2 & Hr0 & _ & He & Hn & Hes & ->).
  cbn [doc_graph] in Hr0.
  apply (f_equal (fun o => match o with Some r => r | None => root end))
    in Hr0.
  cbn beta iota in Hr0. subst root0. cbn [graph_edges] in He.
  apply process_nodes_frame in Hn. destruct Hn as (_ & Hedges & _).
  apply (process_edges_edges Py K G 0 es st1 st2 x Hes) in Hx.
  rewrite Hedges in Hx.
  assert (Hinit : forall r, edges (graph (new_parser (init_graph K r))) = []).
  { intro r. simpl. unfold init_graph.
    now destruct (graph_label r), (graph_metadata r). }
  rewrite Hinit in Hx.
  destruct Hx as [[] | (j & edge & Hnth & _ & _ & md & evs & ev & Hmd & Hevs
                        & Hev & Hfrom)].
  destruct Hfrom as (cit & txt & ctx & line & ts & _ & _ & _ & _ & Hctx & _
                     & _ & _ & Hcx).
  assert (Hof : evidence_of (fst (map_cbn Py d)) ev).
  { rewrite Emap. simpl. exists root, es, edge, md, evs.
    repeat split; try assumption. eapply nth_error_In; eassumption. }
  assert (Hret : snd (map_cbn Py d) = None) by now rewrite Emap.
  destruct (map_cbn_output_context Py d ev ctx Hret Hof Hctx)
    as (ev0 & items & _ & _ & Hmc).
  assert (Hann : annotations (context x) = ctx).
  { rewrite Hcx. simpl. apply Dict.update_empty.
    apply (map_context_NoDup Py items [] ctx Hmc). constructor. }
  rewrite Hann. split.
  - intros k Hk. apply map_context_keys in Hmc. destruct Hmc as [Hkeys _].
    apply Hkeys in Hk. destruct Hk as [[] | (k0 & v & _ & _ & _ & ->)].
    apply renamed_key_not_annotation.
  - intro Hlow.
    apply (map_context_species Py items [] ctx Hlow Hmc). discriminate.
Qed.

Lemma from_cbn_jgif_annotations_witness :
  (forall k, In k (Dict.keys [("Species", Some "10090");
                              ("Cell", Some "T cell")]) ->
             Dict.get k annotation_map = None) /\
  (forall v, Dict.get "Species" [("Species", Some "10090");
                                 ("Cell", Some "T cell")] = Some v ->
             In v taxonomy_ids).
Proof.
  destruct (from_cbn_jgif_annotations Demo.builtins Demo.constants
              Demo.grammar
              (Samples.cbn [("species_common_name", Some "Mouse");
                            ("CELL", Some " T cell")])
              match Demo.from_cbn_jgif
                      (Samples.cbn [("species_common_name", Some "Mouse");
                                    ("CELL", Some " T cell")]) with
              | Ok g => g
              | Raise _ => empty_graph
              end
              {| source := "p(HGNC:A)"; target := "p(HGNC:B)";
                 relation := "increases";
                 context :=
                   {| citation :=
                        [("type", "PubMed"); ("reference", "12345")];
                      evidence := Some "A raises B.";
                      annotations := [("Species", Some "10090");
                                      ("Cell", Some "T cell")] |} |})
    as [Hkeys Hspecies].
  - reflexivity.
  - vm_compute. left. reflexivity.
  - split; [exact Hkeys | exact (Hspecies Demo.builtins_lowercase)].
Defined.

(* ================================================================= *)
(** ** The evidence dictionaries [to_jgif] writes *)

(** The attributes of an edge of the graph that [to_jgif] reads from
    [data]; an attribute the code tests with [in] is an [option]. *)
Record EdgeData : Type := mkEdgeData {
  data_relation : string;
  data_annotations : option ExperimentContext;
  data_evidence : option string;
  data_citation : option (dict string)
}.

(** The [evidence_dict] that [to_jgif] builds for the edge attributes
    [data], [bel] being the statement of the edge. *)
Definition evidence_dict (bel : string) (data : EdgeData) : Evidence :=
  {| ev_citation := data_citation data;
     ev_summary_text := data_evidence data;
     ev_experiment_context := data_annotations data;
     ev_other := [("bel_statement", bel)] |}.

Lemma get_citation_without_id (Py : Builtins) (K : Constants) (ev : Evidence)
    (cit : dict string) :
  CITATION_TYPE K <> "id" -> CITATION_REFERENCE K <> "id" ->
  CITATION_NAME K <> "id" ->
  get_citation Py K ev = Ok cit -> Dict.get "id" cit = None.
Proof.
  intros Ht Hr Hn. unfold get_citation.
  destruct (ev_citation ev) as [jc |]; cbn [bind subscript];
    [| discriminate].
  destruct (Dict.get "type" jc); cbn [bind subscript]; [| discriminate].
  destruct (Dict.get "id" jc); cbn [bind subscript]; [| discriminate].
  destruct (Dict.get "name" jc); intro H; apply Ok_inj in H; subst cit;
    rewrite !Dict.get_set_other by (apply not_eq_sym; assumption);
    reflexivity.
Qed.

(** X12. An evidence dictionary written by [to_jgif] for an edge whose
    citation [get_citation] built is not read back by [from_jgif] when
    the citation keys are the type key ['type'] and two keys other than
    ['id']: the citation passes the guard on ['type'] and the evidence
    loop raises [KeyError] for ['id'], provided the evidence text is one
    the loop does not skip. *)
Theorem exported_evidence_not_read_back (Py : Builtins) (K : Constants)
    (G : Grammar) (lbl : option string) (i : nat) (st : ParserState)
    (ev : Evidence) (cit : dict string) (bel text : string) (data : EdgeData)
    :
  CITATION_TYPE K = "type" ->
  CITATION_REFERENCE K <> "id" ->
  CITATION_NAME K <> "id" ->
  get_citation Py K ev = Ok cit ->
  data_citation data = Some cit ->
  data_evidence data = Some text ->
  str_strip Py text <> "" ->
  str_strip Py text <> placeholder_evidence ->
  process_evidence Py K G lbl i (evidence_dict bel data) st
  = Raise (KeyError "id").
Proof.
  intros Ht Hr Hn Hc Hdc Hde Hne Hph.
  assert (Hid : Dict.get "id" cit = None).
  { apply (get_citation_without_id Py K ev cit); try assumption.
    rewrite Ht. discriminate. }
  assert (Hty : Dict.mem "type" cit = true).
  { rewrite <- Ht. apply (get_citation_keys Py K ev Hc). }
  assert (Hpass : passes_guards Py (evidence_dict bel data)).
  { exists cit, text. simpl. repeat split; auto. }
  pose proof (process_evidence_guarded Py K G lbl i (evidence_dict bel data)
                st Hpass) as Hcase.
  unfold missing_key in Hcase. simpl in Hcase. rewrite Hdc, Hty in Hcase.
  unfold Dict.mem in Hcase. rewrite Hid in Hcase. exact Hcase.
Qed.

Lemma exported_evidence_not_read_back_witness :
  process_evidence Demo.builtins Demo.constants Demo.grammar
    (Some "p(HGNC:A) increases p(HGNC:B)") 0
    (evidence_dict "p(HGNC:A) increases p(HGNC:B)"
       {| data_relation := "increases";
          data_annotations := Some [("Species", Some "9606")];
          data_evidence := Some "A raises B.";
          data_citation := Some [("type", "PubMed"); ("reference", "12345")]
       |}) Samples.start
  = Raise (KeyError "id").
Proof.
  apply (exported_evidence_not_read_back Demo.builtins Demo.constants
           Demo.grammar
           (Some "p(HGNC:A) increases p(HGNC:B)") 0 Samples.start
           (Samples.cited "A raises B.")
           [("type", "PubMed"); ("reference", "12345")]
           "p(HGNC:A) increases p(HGNC:B)" "A raises B.").
  - reflexivity.
  - discriminate.
  - discriminate.
  - reflexivity.
  - reflexivity.
  - reflexivity.
  - discriminate.
  - discriminate.
Defined.

(* ================================================================= *)
(** ** More on the command line *)

(** Two option records that agree on everything but the input file, the
    URL and the three parser flags (the verbosity, which sets the level
    of the log, is among what they agree on). *)
Definition same_outputs {File : Type} (o o' : Cli.Options File) : Prop :=
  Cli.connection o' = Cli.connection o /\
  Cli.database_name o' = Cli.database_name o /\
  Cli.csv o' = Cli.csv o /\
  Cli.graphml o' = Cli.graphml o /\
  Cli.json o' = Cli.json o /\
  Cli.pickle o' = Cli.pickle o /\
  Cli.cx o' = Cli.cx o /\
  Cli.bel o' = Cli.bel o /\
  Cli.neo o' = Cli.neo o /\
  Cli.neo_context o' = Cli.neo_context o /\
  Cli.store_default o' = Cli.store_default o /\
  Cli.store_connection o' = Cli.store_connection o /\
  Cli.verbose o' = Cli.verbose o.

(** X13. When a database name is given, [convert] reads the graph from
    the database and nothing else of the input options matters: the
    input file, the URL and the flags [--allow-naked-names],
    [--allow-nested] and [--no-citation-clearing] change neither what the
    command does nor how it ends. *)
Theorem database_input_ignores_parser_flags
    (World File Manager NeoGraph : Type)
    (C : Cli.Collaborators World File Manager NeoGraph)
    (o o' : Cli.Options File) (w : World) (n : string) :
  Cli.given (Cli.database_name o) = Some n ->
  same_outputs o o' ->
  Cli.convert C o' w = Cli.convert C o w.
Proof.
  intros Hn (H1 & H2 & H3 & H4 & H5 & H6 & H7 & H8 & H9 & H10 & H11 & H12
             & _).
  unfold Cli.convert. f_equal.
  assert (Hrun : Cli.run C o' w = Cli.run C o w).
  { unfold Cli.run, Cli.upload, Cli.bindM.
    rewrite H1, H3, H4, H5, H6, H7, H8, H9, H10, H11, H12.
    destruct (Cli.CacheManager C (Cli.connection o) w) as [w1 [m | e]];
      [| reflexivity].
    unfold Cli.load. rewrite H2, Hn. reflexivity. }
  now rewrite Hrun.
Qed.

Lemma database_input_ignores_parser_flags_witness :
  Cli.convert (CliDemo.collaborators CliDemo.clean_graph)
    {| Cli.path := "other.bel"; Cli.url := Some "http://example.org/x.bel";
       Cli.connection := None; Cli.database_name := Some "apoptosis";
       Cli.csv := Some "out.csv"; Cli.graphml := None; Cli.json := None;
       Cli.pickle := None; Cli.cx := None; Cli.bel := None;
       Cli.neo := None; Cli.neo_context := None;
       Cli.store_default := false; Cli.store_connection := None;
       Cli.allow_naked_names := true; Cli.allow_nested := true;
       Cli.no_citation_clearing := true; Cli.verbose := 0 |} []
  = Cli.convert (CliDemo.collaborators CliDemo.clean_graph)
      {| Cli.path := "stdin"; Cli.url := None;
         Cli.connection := None; Cli.database_name := Some "apoptosis";
         Cli.csv := Some "out.csv"; Cli.graphml := None; Cli.json := None;
         Cli.pickle := None; Cli.cx := None; Cli.bel := None;
         Cli.neo := None; Cli.neo_context := None;
         Cli.store_default := false; Cli.store_connection := None;
         Cli.allow_naked_names := false; Cli.allow_nested := false;
         Cli.no_citation_clearing := false; Cli.verbose := 0 |} [].
Proof.
  apply (database_input_ignores_parser_flags CliDemo.World string unit unit
           (CliDemo.collaborators CliDemo.clean_graph) _ _ [] "apoptosis").
  - reflexivity.
  - repeat split.
Defined.

From Stdlib Require Import ZArith.

(** The argument of [log.setLevel] in [convert],
    [int(5 * verbose ** 2 / 2 - 25 * verbose / 2 + 20)]. Both quotients
    are multiples of one half, which the division computes exactly (in
    floating point for every count of flags below [2^25], and with the
    integer division of Python 2, where the two remainders cancel), so
    the expression is evaluated on its double, [5 v^2 - 25 v + 40], and
    [int] truncates the half of it toward zero. *)
Definition log_level (verbose : nat) : Z :=
  let v := Z.of_nat verbose in
  Z.quot (5 * v ^ 2 - 25 * v + 40) 2.

(** The double is even: [int] has nothing to truncate. *)
Lemma log_level_exact (verbose : nat) :
  (2 * log_level verbose
   = 5 * Z.of_nat verbose ^ 2 - 25 * Z.of_nat verbose + 40)%Z.
Proof.
  unfold log_level. set (v := Z.of_nat verbose).
  assert (Hev : exists k, (5 * v ^ 2 - 25 * v + 40 = 2 * k)%Z).
  { destruct (Z.Even_or_Odd v) as [[k Hk] | [k Hk]].
    - exists (10 * k ^ 2 - 25 * k + 20)%Z. rewrite Hk. ring.
    - exists (10 * k ^ 2 - 15 * k + 10)%Z. rewrite Hk. ring. }
  destruct Hev as (k & ->).
  rewrite (Z.mul_comm 2 k), Z.quot_mul by discriminate. ring.
Qed.

(** X14. The log level [convert] sets is 20 without [-v] and 10 with
    one, and reaches its lowest value, 5, with two or three; it is never
    below 5, and from three on every further [-v] raises it again, so
    that the log gets quieter. *)
Theorem log_level_shape (verbose : nat) :
  log_level 0 = 20%Z /\ log_level 1 = 10%Z /\
  (5 <= log_level verbose)%Z /\
  (log_level verbose = 5%Z <-> verbose = 2 \/ verbose = 3) /\
  (3 <= verbose -> (log_level verbose < log_level (S verbose))%Z).
Proof.
  pose proof (log_level_exact verbose) as H.
  pose proof (log_level_exact (S verbose)) as HS.
  rewrite Nat2Z.inj_succ in HS.
  rewrite Z.pow_2_r in H, HS.
  assert (Hv : (0 <= Z.of_nat verbose)%Z) by apply Nat2Z.is_nonneg.
  generalize dependent (log_level (S verbose)). intros L' HS.
  generalize dependent (log_level verbose). intros L H.
  split; [reflexivity |]. split; [reflexivity |].
  set (v := Z.of_nat verbose) in *.
  assert (Hsq : (Z.succ v * Z.succ v = v * v + 2 * v + 1)%Z) by ring.
  assert (Hcase : (v <= 1 \/ v = 2 \/ v = 3 \/ 4 <= v)%Z) by lia.
  split; [| split; [split |]].
  - destruct Hcase as [Hc | [Hc | [Hc | Hc]]]; nia.
  - intro H5. subst L.
    destruct Hcase as [Hc | [Hc | [Hc | Hc]]];
      [exfalso; nia | left; lia | right; lia | exfalso; nia].
  - intros [Hc | Hc]; subst verbose; simpl in v; subst v; lia.
  - intro H3. assert (3 <= v)%Z by lia. lia.
Qed.

(* ================================================================= *)
(** ** The commands [insert] and [ls] of [manage definitions] *)

(** [s.endswith(suffix)] *)
Fixpoint endswith (s suffix : string) : bool :=
  String.eqb s suffix
  || match s with
     | EmptyString => false
     | String _ s' => endswith s' suffix
     end.

Lemma endswith_refl (s : string) : endswith s s = true.
Proof. destruct s; cbn [endswith]; now rewrite String.eqb_refl. Qed.

(** Two suffixes of one string: one is a suffix of the other. *)
Lemma endswith_comparable (s a b : string) :
  endswith s a = true -> endswith s b = true ->
  endswith a b = true \/ endswith b a = true.
Proof.
  induction s as [|c s IH]; cbn [endswith].
  - rewrite !orb_false_r. intros Ha Hb.
    apply String.eqb_eq in Ha, Hb. subst a b. now left.
  - intros Ha Hb. apply orb_true_iff in Ha, Hb.
    destruct Ha as [Ha | Ha], Hb as [Hb | Hb].
    + apply String.eqb_eq in Ha, Hb. subst a b. left. apply endswith_refl.
    + apply String.eqb_eq in Ha. subst a. left. cbn [endswith].
      rewrite Hb. apply orb_true_r.
    + apply String.eqb_eq in Hb. subst b. right. cbn [endswith].
      rewrite Ha. apply orb_true_r.
    + now apply IH.
Qed.

Lemma belanno_is_not_belns (url : string) :
  endswith url ".belanno" = true -> endswith url ".belns" = false.
Proof.
  intro Ha. destruct (endswith url ".belns") eqn:Hn; [| reflexivity].
  destruct (endswith_comparable url ".belanno" ".belns" Ha Hn) as [H | H];
    vm_compute in H; discriminate.
Qed.

Lemma endswith_nonempty (url suffix : string) :
  endswith url suffix = true -> suffix <> "" -> PyStr.nonempty url = true.
Proof.
  destruct url; [| reflexivity]. cbn [endswith].
  rewrite orb_false_r. intros H Hs. apply String.eqb_eq in H.
  now subst suffix.
Qed.

Set Implicit Arguments.

Module Manage.

Section Commands.

Variables World Manager : Type.

(** The cache manager and [click.echo], which [cli.py] imports. *)
Record Cache : Type := mkCache {
  CacheManager : option string -> Cli.M World Manager;
  ensure_namespace : Manager -> string -> Cli.M World unit;
  ensure_annotation : Manager -> string -> Cli.M World unit;
  ensure_namespace_owl : Manager -> string -> Cli.M World unit;
  get_definition_urls : Manager -> Cli.M World (list string);
  get_namespace : Manager -> string -> Cli.M World (list string);
  get_annotation : Manager -> string -> Cli.M World (list string);
  get_namespace_owl_terms : Manager -> string -> Cli.M World (list string);
  echo : string -> Cli.M World unit
}.

Variable C : Cache.

(** [insert(url, connection)] *)
Definition insert (url : string) (connection : option string)
    : Cli.M World unit :=
  Cli.bindM (CacheManager C connection) (fun manager =>
    if endswith url ".belns" then ensure_namespace C manager url
    else if endswith url ".belanno" then ensure_annotation C manager url
    else ensure_namespace_owl C manager url).

(** [for l in res: click.echo(l)] *)
Fixpoint echo_all (res : list string) : Cli.M World unit :=
  match res with
  | [] => Cli.ret tt
  | l :: rest => Cli.bindM (echo C l) (fun _ => echo_all rest)
  end.

(** The loop over [manager.get_definition_urls()], which passes over
    the empty lines. *)
Fixpoint echo_urls (lines : list string) : Cli.M World unit :=
  match lines with
  | [] => Cli.ret tt
  | line :: rest =>
      if negb (PyStr.nonempty line) then echo_urls rest
      else Cli.bindM (echo C line) (fun _ => echo_urls rest)
  end.

(** [ls(url, connection)] of [manage definitions] *)
Definition ls (url : option string) (connection : option string)
    : Cli.M World unit :=
  Cli.bindM (CacheManager C connection) (fun manager =>
    match Cli.given url with
    | None => Cli.bindM (get_definition_urls C manager) echo_urls
    | Some url =>
        Cli.bindM
          (if endswith url ".belns" then get_namespace C manager url
           else if endswith url ".belanno" then get_annotation C manager url
           else get_namespace_owl_terms C manager url)
          echo_all
    end).

End Commands.

End Manage.

Unset Implicit Arguments.

(** X15. A URL that ends in [.belanno] is an annotation for both
    commands, whatever stands before the suffix: [insert] stores it with
    [ensure_annotation] and [ls] lists it with [get_annotation]; the test
    for [.belns], which comes first, never takes it. *)
Theorem belanno_url_is_annotation (World Manager : Type)
    (C : Manage.Cache World Manager) (url : string)
    (connection : option string) :
  endswith url ".belanno" = true ->
  Manage.insert C url connection
  = Cli.bindM (Manage.CacheManager C connection)
      (fun manager => Manage.ensure_annotation C manager url) /\
  Manage.ls C (Some url) connection
  = Cli.bindM (Manage.CacheManager C connection)
      (fun manager =>
         Cli.bindM (Manage.get_annotation C manager url)
           (Manage.echo_all C)).
Proof.
  intro Ha. pose proof (belanno_is_not_belns url Ha) as Hn.
  unfold Manage.insert, Manage.ls, Cli.given.
  rewrite (endswith_nonempty url ".belanno" Ha) by discriminate.
  rewrite Hn, Ha. split; reflexivity.
Qed.

(** X16. Without a URL, [ls] echoes the definition URLs that are not
    empty, in the order the manager gives them, and nothing else. *)
Theorem ls_echoes_nonempty_urls (World Manager : Type)
    (C : Manage.Cache World Manager) (lines : list string) (w : World) :
  Manage.echo_urls C lines w
  = Manage.echo_all C (filter PyStr.nonempty lines) w.
Proof.
  revert w. induction lines as [|line lines IH]; intro w; simpl;
    [reflexivity |].
  destruct (PyStr.nonempty line); simpl; [| apply IH].
  unfold Cli.bindM. destruct (Manage.echo C line w) as [w' [[] | e]];
    [apply IH | reflexivity].
Qed.

(** A cache for evaluating the two commands: the world is the list of
    the calls made. *)
Definition demo_cache : Manage.Cache CliDemo.World unit :=
  {| Manage.CacheManager := fun _ => CliDemo.log_call "CacheManager" tt;
     Manage.ensure_namespace :=
       fun _ u => CliDemo.log_call ("ensure_namespace " ++ u) tt;
     Manage.ensure_annotation :=
       fun _ u => CliDemo.log_call ("ensure_annotation " ++ u) tt;
     Manage.ensure_namespace_owl :=
       fun _ u => CliDemo.log_call ("ensure_namespace_owl " ++ u) tt;
     Manage.get_definition_urls :=
       fun _ => CliDemo.log_call "get_definition_urls"
                  ["http://example.org/hgnc.belns"; "";
                   "http://example.org/cell.belanno"];
     Manage.get_namespace :=
       fun _ u => CliDemo.log_call ("get_namespace " ++ u) ["A"; "B"];
     Manage.get_annotation :=
       fun _ u => CliDemo.log_call ("get_annotation " ++ u) ["T cell"];
     Manage.get_namespace_owl_terms :=
       fun _ u => CliDemo.log_call ("get_namespace_owl_terms " ++ u) [];
     Manage.echo := fun l => CliDemo.log_call ("echo " ++ l) tt |}.

Example ls_example :
  Manage.ls demo_cache None None []
  = (["CacheManager"; "get_definition_urls";
      "echo http://example.org/hgnc.belns";
      "echo http://example.org/cell.belanno"], Ok tt).
Proof. reflexivity. Qed.

Lemma belanno_url_is_annotation_witness :
  Manage.insert demo_cache "http://example.org/x.belns/cell.belanno" None
  = Cli.bindM (Manage.CacheManager demo_cache None)
      (fun manager =>
         Manage.ensure_annotation demo_cache manager
           "http://example.org/x.belns/cell.belanno") /\
  Manage.ls demo_cache (Some "http://example.org/x.belns/cell.belanno") None
  = Cli.bindM (Manage.CacheManager demo_cache None)
      (fun manager =>
         Cli.bindM
           (Manage.get_annotation demo_cache manager
              "http://example.org/x.belns/cell.belanno")
           (Manage.echo_all demo_cache)).
Proof.
  apply (belanno_url_is_annotation CliDemo.World unit demo_cache
           "http://example.org/x.belns/cell.belanno" None).
  reflexivity.
Defined.
